(** * Physics glass effect: the fragment shader and its driver class

    A shallow embedding of the two halves of the renderer:

    - the GLSL fragment shader ([fragmentShaderSource]): shape intersection,
      Snell refraction, chromatic dispersion and compositing, over the real
      numbers, with every operation GLSL leaves undefined made explicit;
    - the TypeScript class [PhysicsGlass] that owns the configuration, the
      uniforms, the animation clock and the GPU handles, as a state and
      exception monad over an explicit model of the browser.

    Part I holds the definitions, Part II the properties. *)

From Stdlib Require Import Reals Lra Psatz ZArith QArith Qminmax List String Bool.
Import ListNotations.

(* ================================================================= *)
(** * Part I: definitions *)
(* ================================================================= *)

(** ** GLSL values and built-in functions *)

Module GLSL.

Local Open Scope R_scope.

(** A GLSL expression denotes a real number, or nothing when the language
    leaves its result undefined (division by zero, square root of a negative
    number, [pow] with a negative base, [atan(0,0)]). *)
Definition glsl (A : Type) : Type := option A.

Definition ret {A : Type} (a : A) : glsl A := Some a.

Definition undefined {A : Type} : glsl A := None.

Definition bind {A B : Type} (c : glsl A) (k : A -> glsl B) : glsl B :=
  match c with
  | Some a => k a
  | None => None
  end.

Notation "x <- c ;; k" := (bind c (fun x => k))
  (at level 61, c at next level, right associativity).

Record vec2 : Type := Vec2 { x2 : R; y2 : R }.
Record vec3 : Type := Vec3 { x3 : R; y3 : R; z3 : R }.
Record vec4 : Type := Vec4 { x4 : R; y4 : R; z4 : R; w4 : R }.

(** Constructors from one scalar, [vec2(s)], [vec3(s)], [vec4(s)]. *)
Definition splat2 (s : R) : vec2 := Vec2 s s.
Definition splat3 (s : R) : vec3 := Vec3 s s s.
Definition splat4 (s : R) : vec4 := Vec4 s s s s.

(** Swizzles [.xy] and [.xyz]. *)
Definition xy3 (v : vec3) : vec2 := Vec2 (x3 v) (y3 v).
Definition xyz4 (v : vec4) : vec3 := Vec3 (x4 v) (y4 v) (z4 v).

Definition add2 (a b : vec2) : vec2 := Vec2 (x2 a + x2 b) (y2 a + y2 b).
Definition sub2 (a b : vec2) : vec2 := Vec2 (x2 a - x2 b) (y2 a - y2 b).
Definition scale2 (s : R) (a : vec2) : vec2 := Vec2 (s * x2 a) (s * y2 a).
(** [v + s] with a scalar [s] adds it to every component. *)
Definition adds2 (a : vec2) (s : R) : vec2 := Vec2 (x2 a + s) (y2 a + s).
(** [v - s] with a scalar [s]. *)
Definition subs2 (a : vec2) (s : R) : vec2 := Vec2 (x2 a - s) (y2 a - s).

Definition add3 (a b : vec3) : vec3 :=
  Vec3 (x3 a + x3 b) (y3 a + y3 b) (z3 a + z3 b).
Definition sub3 (a b : vec3) : vec3 :=
  Vec3 (x3 a - x3 b) (y3 a - y3 b) (z3 a - z3 b).
Definition scale3 (s : R) (a : vec3) : vec3 :=
  Vec3 (s * x3 a) (s * y3 a) (s * z3 a).
Definition neg3 (a : vec3) : vec3 := Vec3 (- x3 a) (- y3 a) (- z3 a).

Definition dot2 (a b : vec2) : R := x2 a * x2 b + y2 a * y2 b.
Definition dot3 (a b : vec3) : R := x3 a * x3 b + y3 a * y3 b + z3 a * z3 b.

(** [length] is total: the sum of squares under the root is never negative. *)
Definition length2 (a : vec2) : R := sqrt (dot2 a a).
Definition length3 (a : vec3) : R := sqrt (dot3 a a).

(** The scalar built-ins with a partial domain. *)
Definition glsl_div (a b : R) : glsl R :=
  if Req_dec_T b 0 then undefined else ret (a / b).

Definition glsl_sqrt (a : R) : glsl R :=
  if Rlt_dec a 0 then undefined else ret (sqrt a).

Definition glsl_pow (a b : R) : glsl R :=
  if Rlt_dec a 0 then undefined
  else if Req_dec_T a 0 then (if Rlt_dec 0 b then ret 0 else undefined)
  else ret (Rpower a b).

(** Two-argument [atan(y, x)]: the angle of the point [(x, y)]. *)
Definition glsl_atan (y x : R) : glsl R :=
  if Rlt_dec 0 x then ret (atan (y / x))
  else if Rlt_dec x 0 then
    (if Rle_dec 0 y then ret (atan (y / x) + PI) else ret (atan (y / x) - PI))
  else if Rlt_dec 0 y then ret (PI / 2)
  else if Rlt_dec y 0 then ret (- PI / 2)
  else undefined.

(** [normalize] divides by the length, so the zero vector has no image. *)
Definition normalize (a : vec3) : glsl vec3 :=
  x <- glsl_div (x3 a) (length3 a) ;;
  y <- glsl_div (y3 a) (length3 a) ;;
  z <- glsl_div (z3 a) (length3 a) ;;
  ret (Vec3 x y z).

(** [reflect(I, N) = I - 2 * dot(N, I) * N]. *)
Definition reflect (I N : vec3) : vec3 :=
  sub3 I (scale3 (2 * dot3 N I) N).

Definition glsl_floor (a : R) : R := IZR (Int_part a).
Definition fract (a : R) : R := a - glsl_floor a.
(** [mod(x, y) = x - y * floor(x / y)]; the shader only takes it modulo 1.0. *)
Definition glsl_mod (a b : R) : R := a - b * glsl_floor (a / b).
(** [step(edge, x)]. *)
Definition step (edge a : R) : R := if Rlt_dec a edge then 0 else 1.
Definition clamp (a lo hi : R) : R := Rmin (Rmax a lo) hi.
(** [mix(x, y, a) = x * (1 - a) + y * a], component-wise. *)
Definition mix3 (a b : vec3) (t : R) : vec3 :=
  add3 (scale3 (1 - t) a) (scale3 t b).

(** [smoothstep] by its defining formula, Hermite interpolation of the
    clamped ratio; the shader calls it with [edge0 > edge1] to get a falling
    edge, which this formula gives. *)
Definition smoothstep (edge0 edge1 a : R) : glsl R :=
  q <- glsl_div (a - edge0) (edge1 - edge0) ;;
  let t := clamp q 0 1 in
  ret (t * t * (3 - 2 * t)).

End GLSL.

(** ** The fragment shader *)

Module Fragment.

Import GLSL.
Local Open Scope R_scope.

(** The uniforms of the program; the sampler is the function from texture
    coordinates to texels that [texture2D] reads. *)
Record Uniforms : Type := {
  u_time : R;
  u_resolution : vec2;
  u_mousePos : vec2;
  u_refractionIndex : R;
  u_dispersion : R;
  u_thickness : R;
  u_glassSize : R;
  u_glassShape : R;
  u_backgroundPattern : R;
  u_backgroundTexture : vec2 -> vec4
}.

Definition texture2D (sampler : vec2 -> vec4) (coord : vec2) : vec4 :=
  sampler coord.

Definition noise (p : vec2) : R :=
  fract (sin (dot2 p (Vec2 12.9898 78.233)) * 43758.5453).

(** The body of the [for] loop of [fbm], [n] iterations to go. *)
Fixpoint fbm_loop (n : nat) (p : vec2) (value amplitude frequency : R) : R :=
  match n with
  | O => value
  | S k =>
      fbm_loop k p (value + amplitude * noise (scale2 frequency p))
        (amplitude * 0.5) (frequency * 2)
  end.

Definition fbm (p : vec2) : R := fbm_loop 4 p 0 0.5 1.

Definition intersectSphere (rayOrigin rayDir sphereCenter : vec3) (radius : R)
  : glsl vec2 :=
  let oc := sub3 rayOrigin sphereCenter in
  let b := dot3 oc rayDir in
  let c := dot3 oc oc - radius * radius in
  let discriminant := b * b - c in
  if Rlt_dec discriminant 0 then ret (splat2 (-1))
  else
    sqrt_discriminant <- glsl_sqrt discriminant ;;
    let t1 := - b - sqrt_discriminant in
    let t2 := - b + sqrt_discriminant in
    ret (Vec2 t1 t2).

Definition intersectCylinder (rayOrigin rayDir cylinderCenter : vec3)
  (radius : R) : glsl vec2 :=
  let ro := sub2 (xy3 rayOrigin) (xy3 cylinderCenter) in
  let rd := xy3 rayDir in
  let a := dot2 rd rd in
  let b := 2 * dot2 ro rd in
  let c := dot2 ro ro - radius * radius in
  let discriminant := b * b - 4 * a * c in
  if Rlt_dec discriminant 0 then ret (splat2 (-1))
  else
    sqrt_discriminant <- glsl_sqrt discriminant ;;
    t1 <- glsl_div (- b - sqrt_discriminant) (2 * a) ;;
    t2 <- glsl_div (- b + sqrt_discriminant) (2 * a) ;;
    ret (Vec2 t1 t2).

Definition getSphereNormal (point center : vec3) : glsl vec3 :=
  normalize (sub3 point center).

Definition getCylinderNormal (point center : vec3) : glsl vec3 :=
  let toPoint := sub3 point center in
  normalize (Vec3 (x3 toPoint) (y3 toPoint) 0).

(** 3D refraction using Snell's law. *)
Definition refract3D (incident normal : vec3) (eta : R) : glsl vec3 :=
  let cosI := dot3 (neg3 incident) normal in
  let sinT2 := eta * eta * (1 - cosI * cosI) in
  if Rge_dec sinT2 1 then
    (* total internal reflection *)
    ret (reflect incident normal)
  else
    cosT <- glsl_sqrt (1 - sinT2) ;;
    ret (add3 (scale3 eta incident) (scale3 (eta * cosI - cosT) normal)).

(** Fresnel reflection coefficient. *)
Definition fresnel (cosTheta n1 n2 : R) : glsl R :=
  q <- glsl_div (n1 - n2) (n1 + n2) ;;
  r0 <- glsl_pow q 2 ;;
  p <- glsl_pow (1 - cosTheta) 5 ;;
  ret (r0 + (1 - r0) * p).

Definition getBackgroundPattern (u : Uniforms) (uv : vec2) (patternType : R)
  : vec3 :=
  if Rlt_dec patternType 0.5 then
    let stripeWidth := 0.1 in
    let stripe := step 0.5 (glsl_mod (x2 uv / stripeWidth) 1) in
    splat3 stripe
  else if Rlt_dec patternType 1.5 then
    let gridSize := 0.05 in
    let grid :=
      Vec2 (step 0.5 (glsl_mod (x2 uv / gridSize) 1))
           (step 0.5 (glsl_mod (y2 uv / gridSize) 1)) in
    let pattern := Rmax (x2 grid) (y2 grid) in
    splat3 pattern
  else if Rlt_dec patternType 2.5 then
    let dist := length2 (subs2 uv 0.5) in
    let rings := sin (dist * 50) * 0.5 + 0.5 in
    splat3 rings
  else
    xyz4 (texture2D (u_backgroundTexture u) uv).

(** Ray trace through the glass shapes.  The result's [w] is the hit flag,
    0 for a miss; on a hit [xyz] is the perturbed entry normal. *)
Definition traceGlassShape (u : Uniforms) (uv mouseUV : vec2)
  (shapeType glassSize : R) : glsl vec4 :=
  let rayOrigin := Vec3 (x2 uv) (y2 uv) 2 in
  let rayDir := Vec3 0 0 (-1) in
  let glassCenter := Vec3 (x2 mouseUV) (y2 mouseUV) 0 in
  (* the statements after the if-chain: add surface perturbations *)
  let perturb (normal1 normal2 : vec3) : glsl vec4 :=
    let perturbation :=
      Vec3 (fbm (adds2 (scale2 20 uv) (u_time u * 0.1)) * 0.02)
           (fbm (adds2 (scale2 20 uv) (u_time u * 0.13)) * 0.02)
           0 in
    normal1 <- normalize (add3 normal1 perturbation) ;;
    normal2 <- normalize (add3 normal2 perturbation) ;;
    ret (Vec4 (x3 normal1) (y3 normal1) (z3 normal1) 1) in
  if Rlt_dec shapeType 0.5 then
    (* sphere *)
    intersections <- intersectSphere rayOrigin rayDir glassCenter glassSize ;;
    if Rlt_dec (x2 intersections) 0 then ret (splat4 0)
    else
      let enterPoint := add3 rayOrigin (scale3 (x2 intersections) rayDir) in
      let exitPoint := add3 rayOrigin (scale3 (y2 intersections) rayDir) in
      normal1 <- getSphereNormal enterPoint glassCenter ;;
      n2 <- getSphereNormal exitPoint glassCenter ;;
      perturb normal1 (neg3 n2)
  else if Rlt_dec shapeType 1.5 then
    (* cylinder *)
    intersections <- intersectCylinder rayOrigin rayDir glassCenter glassSize ;;
    if Rlt_dec (x2 intersections) 0 then ret (splat4 0)
    else
      let enterPoint := add3 rayOrigin (scale3 (x2 intersections) rayDir) in
      let exitPoint := add3 rayOrigin (scale3 (y2 intersections) rayDir) in
      normal1 <- getCylinderNormal enterPoint glassCenter ;;
      n2 <- getCylinderNormal exitPoint glassCenter ;;
      perturb normal1 (neg3 n2)
  else if Rlt_dec shapeType 2.5 then
    (* convex lens, approximated as a flattened sphere *)
    let lensRatio := 1.5 in
    let lensCenter := Vec3 (x2 mouseUV) (y2 mouseUV) 0 in
    intersections <-
      intersectSphere rayOrigin rayDir lensCenter (glassSize * lensRatio) ;;
    if Rlt_dec (x2 intersections) 0 then ret (splat4 0)
    else
      let enterPoint := add3 rayOrigin (scale3 (x2 intersections) rayDir) in
      let exitPoint := add3 rayOrigin (scale3 (y2 intersections) rayDir) in
      normal1 <- getSphereNormal enterPoint lensCenter ;;
      n2 <- getSphereNormal exitPoint lensCenter ;;
      let normal2 := neg3 n2 in
      (* flatten the lens effect *)
      let normal1 := Vec3 (x3 normal1) (y3 normal1) (z3 normal1 * 0.3) in
      let normal2 := Vec3 (x3 normal2) (y3 normal2) (z3 normal2 * 0.3) in
      normal1 <- normalize normal1 ;;
      normal2 <- normalize normal2 ;;
      perturb normal1 normal2
  else if Rlt_dec shapeType 3.5 then
    (* triangular prism, simplified *)
    let dist := length2 (sub2 uv mouseUV) in
    if Rgt_dec dist glassSize then ret (splat4 0)
    else
      let centered := sub2 uv mouseUV in
      angle <- glsl_atan (y2 centered) (x2 centered) ;;
      let prismEffect := sin (angle * 3) * 0.3 + 0.7 in
      if Rgt_dec dist (glassSize * prismEffect) then ret (splat4 0)
      else
        normal1 <- normalize (Vec3 (sin (angle * 3)) (cos (angle * 3)) 1) ;;
        let normal2 := neg3 normal1 in
        perturb normal1 normal2
  else
    (* flat glass *)
    let dist := length2 (sub2 uv mouseUV) in
    if Rgt_dec dist glassSize then ret (splat4 0)
    else
      let normal1 := Vec3 0 0 1 in
      let normal2 := Vec3 0 0 (-1) in
      perturb normal1 normal2.

(** *** The locals of [main] *)

(** Chromatic dispersion: the per-channel ratios of refraction indices. *)
Definition redEta (u : Uniforms) : glsl R :=
  glsl_div 1 (u_refractionIndex u - u_dispersion u).
Definition greenEta (u : Uniforms) : glsl R :=
  glsl_div 1 (u_refractionIndex u).
Definition blueEta (u : Uniforms) : glsl R :=
  glsl_div 1 (u_refractionIndex u + u_dispersion u).

(** The distortion scale of a pixel, after the curvature branch. *)
Definition distortionScale (u : Uniforms) (uv : vec2) : R :=
  let mouseUV := u_mousePos u in
  let distortionScale := u_thickness u * 0.3 in
  if Rlt_dec (u_glassShape u) 2.5 then
    let centerOffset := sub2 uv mouseUV in
    let distFromCenter := length2 centerOffset in
    let curvatureEffect := 1 + distFromCenter * distFromCenter * 2 in
    distortionScale * curvatureEffect
  else distortionScale.

(** What [main] computes between the Fresnel term and the blend: the three
    refracted rays, their offsets, the three background samples and the
    colour recombined from them. *)
Record Refraction : Type := {
  offsetR : vec2;
  offsetG : vec2;
  offsetB : vec2;
  bgColorR : vec3;
  bgColorG : vec3;
  bgColorB : vec3;
  refractedColor : vec3
}.

Definition refraction (u : Uniforms) (uv : vec2) (normal : vec3)
  : glsl Refraction :=
  let viewDir := Vec3 0 0 1 in
  redEta <- redEta u ;;
  greenEta <- greenEta u ;;
  blueEta <- blueEta u ;;
  refractedR <- refract3D (neg3 viewDir) normal redEta ;;
  refractedG <- refract3D (neg3 viewDir) normal greenEta ;;
  refractedB <- refract3D (neg3 viewDir) normal blueEta ;;
  let distortionScale := distortionScale u uv in
  let offsetR := scale2 distortionScale (xy3 refractedR) in
  let offsetG := scale2 distortionScale (xy3 refractedG) in
  let offsetB := scale2 distortionScale (xy3 refractedB) in
  let bgColorR :=
    getBackgroundPattern u (add2 uv offsetR) (u_backgroundPattern u) in
  let bgColorG :=
    getBackgroundPattern u (add2 uv offsetG) (u_backgroundPattern u) in
  let bgColorB :=
    getBackgroundPattern u (add2 uv offsetB) (u_backgroundPattern u) in
  ret {| offsetR := offsetR; offsetG := offsetG; offsetB := offsetB;
         bgColorR := bgColorR; bgColorG := bgColorG; bgColorB := bgColorB;
         refractedColor := Vec3 (x3 bgColorR) (y3 bgColorG) (z3 bgColorB) |}.

(** [main]: the value written to [gl_FragColor] for the pixel at [v_uv]. *)
Definition main (u : Uniforms) (v_uv : vec2) : glsl vec4 :=
  let uv := v_uv in
  let mouseUV := u_mousePos u in
  glassInfo <- traceGlassShape u uv mouseUV (u_glassShape u) (u_glassSize u) ;;
  if Rlt_dec (w4 glassInfo) 0.5 then ret (Vec4 0 0 0 0)
  else
    let normal := xyz4 glassInfo in
    let viewDir := Vec3 0 0 1 in
    let cosTheta := Rabs (dot3 viewDir normal) in
    fresnelTerm <- fresnel cosTheta 1 (u_refractionIndex u) ;;
    r <- refraction u uv normal ;;
    let reflectionColor := Vec3 0.9 0.95 1 in
    let finalColor := mix3 (refractedColor r) reflectionColor fresnelTerm in
    caustic <- glsl_pow (Rmax 0 (dot3 normal (Vec3 0.5 0.5 1))) 3 ;;
    let finalColor :=
      add3 finalColor (scale3 (caustic * 0.4) (Vec3 1 1 0.9)) in
    let dist := length2 (sub2 uv mouseUV) in
    glassMask <-
      smoothstep (u_glassSize u + 0.02) (u_glassSize u - 0.02) dist ;;
    let alpha := glassMask * 0.4 in
    s <- smoothstep (u_glassSize u - 0.005) (u_glassSize u) dist ;;
    let edge := 1 - s in
    let alpha := alpha + edge * 0.6 in
    ret (Vec4 (x3 finalColor) (y3 finalColor) (z3 finalColor) alpha).

(** The alpha of a hit pixel alone: the statements of [main] from
    [float dist] to the edge enhancement, which read the distance to the
    centre and the size of the glass and nothing of the colour. *)
Definition alpha (u : Uniforms) (v_uv : vec2) : glsl R :=
  let uv := v_uv in
  let mouseUV := u_mousePos u in
  let dist := length2 (sub2 uv mouseUV) in
  glassMask <-
    smoothstep (u_glassSize u + 0.02) (u_glassSize u - 0.02) dist ;;
  let alpha := glassMask * 0.4 in
  s <- smoothstep (u_glassSize u - 0.005) (u_glassSize u) dist ;;
  let edge := 1 - s in
  let alpha := alpha + edge * 0.6 in
  ret alpha.

End Fragment.

(** ** A monad for TypeScript methods: state and exceptions

    A method either completes normally or throws; in both cases the writes
    it made before are kept, as in JavaScript. *)

Module JS.

(** [number]: the model computes with exact rationals.  IEEE rounding and
    the infinities are outside the model, and so is a [NaN] given as an
    argument: every number the host passes in is a [number]. *)
Definition number : Type := Q.

Definition Math_max (a b : number) : number := Qmax a b.
Definition Math_min (a b : number) : number := Qmin a b.

(** The comparisons [a <= b], [a < b], [a > b]. *)
Definition le (a b : number) : bool := Qle_bool a b.
Definition lt (a b : number) : bool := negb (Qle_bool b a).
Definition gt (a b : number) : bool := lt b a.

(** [double]: a [number] or [NaN].  The class makes one [NaN] of its own,
    out of the [undefined] that [setMaterial] reads from a value that is no
    material; the fields it can reach have this type. *)
Inductive double : Type :=
| num (q : Q)
| NaN.

Coercion num : Q >-> double.

(** [Math.max], [Math.min], [<] and [>] when an argument may be [NaN]: the
    first two return [NaN], the comparisons are false. *)
Module Double.
Definition Math_max (a b : double) : double :=
  match a, b with
  | num x, num y => num (Math_max x y)
  | _, _ => NaN
  end.
Definition Math_min (a b : double) : double :=
  match a, b with
  | num x, num y => num (Math_min x y)
  | _, _ => NaN
  end.
Definition lt (a b : double) : bool :=
  match a, b with
  | num x, num y => lt x y
  | _, _ => false
  end.
Definition gt (a b : double) : bool := lt b a.
End Double.

Inductive Completion (E A : Type) : Type :=
| Normal (a : A)
| Throw (e : E).
Arguments Normal {E A} a.
Arguments Throw {E A} e.

Definition M (E S A : Type) : Type := S -> Completion E A * S.

Definition ret {E S A : Type} (a : A) : M E S A := fun s => (Normal a, s).

Definition throw {E S A : Type} (e : E) : M E S A := fun s => (Throw e, s).

Definition bind {E S A B : Type} (c : M E S A) (k : A -> M E S B) : M E S B :=
  fun s =>
    match c s with
    | (Normal a, s') => k a s'
    | (Throw e, s') => (Throw e, s')
    end.

(** [try { c } catch (e) { handler e }]. *)
Definition tryCatch {E S A : Type} (c : M E S A) (handler : E -> M E S A)
  : M E S A :=
  fun s =>
    match c s with
    | (Normal a, s') => (Normal a, s')
    | (Throw e, s') => handler e s'
    end.

Definition get {E S : Type} : M E S S := fun s => (Normal s, s).
Definition gets {E S A : Type} (f : S -> A) : M E S A :=
  fun s => (Normal (f s), s).
Definition modify {E S : Type} (f : S -> S) : M E S unit :=
  fun s => (Normal tt, f s).

(** Run a computation on a component [part] of the state. *)
Definition lift {E S T A : Type} (part : S -> T) (update : T -> S -> S)
  (c : M E T A) : M E S A :=
  fun s => let (r, t') := c (part s) in (r, update t' s).

Definition when {E S : Type} (b : bool) (c : M E S unit) : M E S unit :=
  if b then c else ret tt.

(** The state a computation leaves, and its completion. *)
Definition exec {E S A : Type} (c : M E S A) (s : S) : S := snd (c s).
Definition completion {E S A : Type} (c : M E S A) (s : S) : Completion E A :=
  fst (c s).

Declare Scope js_scope.
Delimit Scope js_scope with js.
Notation "x <- c ;; k" := (bind c (fun x => k))
  (at level 61, c at next level, right associativity) : js_scope.
Notation "c ;;; k" := (bind c (fun _ => k))
  (at level 61, right associativity) : js_scope.

End JS.

(** ** [types.ts] *)

Module Types.

Import JS.
Local Open Scope string_scope.

Inductive GlassShape : Type := sphere | cylinder | lens | prism | flat.

Inductive BackgroundPattern : Type := stripes | grid | circles | texture.

Definition GlassShape_eqb (a b : GlassShape) : bool :=
  match a, b with
  | sphere, sphere | cylinder, cylinder | lens, lens
  | prism, prism | flat, flat => true
  | _, _ => false
  end.

Definition BackgroundPattern_eqb (a b : BackgroundPattern) : bool :=
  match a, b with
  | stripes, stripes | grid, grid | circles, circles
  | texture, texture => true
  | _, _ => false
  end.

Module GlassMaterial.
Record t : Type := mk {
  name : string;
  refractionIndex : number;
  dispersion : number;
  description : string
}.
End GlassMaterial.

(** What [setMaterial] holds in [mat] at run time: a material, or the
    member of [Object.prototype] that a name such as [toString] finds in
    the table of presets, which is a plain object.  Such a member is a
    function or an object, and has neither a [refractionIndex] nor a
    [dispersion]: reading them gives [undefined], which [Math.min] turns
    into [NaN]. *)
Module MaterialValue.
Inductive t : Type :=
| aMaterial (mat : GlassMaterial.t)
| prototypeMember (name : string).
Definition refractionIndex (v : t) : double :=
  match v with
  | aMaterial mat => GlassMaterial.refractionIndex mat
  | prototypeMember _ => NaN
  end.
Definition dispersion (v : t) : double :=
  match v with
  | aMaterial mat => GlassMaterial.dispersion mat
  | prototypeMember _ => NaN
  end.
End MaterialValue.

Coercion MaterialValue.aMaterial : GlassMaterial.t >-> MaterialValue.t.

Module MouseConfig.
(** [centerX] and [centerY] are read through a non-null assertion; they are
    modelled as always present. *)
Record t : Type := mk {
  enabled : bool;
  followCursor : bool;
  centerX : number;
  centerY : number
}.
End MouseConfig.

Module PerformanceConfig.
Record t : Type := mk {
  pixelRatio : number;
  antialias : bool;
  preserveDrawingBuffer : bool;
  premultipliedAlpha : bool
}.
End PerformanceConfig.

Module AnimationConfig.
Record t : Type := mk {
  enabled : bool;
  speed : number;
  surfaceRipples : bool
}.
Definition set_enabled (v : bool) (a : t) : t :=
  mk v (speed a) (surfaceRipples a).
Definition set_speed (v : number) (a : t) : t :=
  mk (enabled a) v (surfaceRipples a).
End AnimationConfig.

(** A DOM element that can be a texture source, by identity. *)
Definition Element : Type := nat.

(** [HTMLImageElement | HTMLCanvasElement | string]. *)
Inductive TextureSource : Type :=
| Url (url : string)
| Image (element : Element).

(** JavaScript truthiness of a texture source: only the empty string is
    falsy. *)
Definition truthy (t : TextureSource) : bool :=
  match t with
  | Url "" => false
  | _ => true
  end.

(** [PhysicsGlassConfig]: every option may be absent.  The four callbacks
    are not fields of the model; their invocations are recorded in the
    browser instead. *)
Module PhysicsGlassConfig.
Record t : Type := mk {
  shape : option GlassShape;
  size : option number;
  refractionIndex : option number;
  dispersion : option number;
  thickness : option number;
  backgroundPattern : option BackgroundPattern;
  backgroundTexture : option TextureSource;
  mouse : option MouseConfig.t;
  animation : option AnimationConfig.t;
  performance : option PerformanceConfig.t
}.
Definition empty : t :=
  mk None None None None None None None None None None.
End PhysicsGlassConfig.

(** [Required<PhysicsGlassConfig>]. *)
Module Config.
Record t : Type := mk {
  shape : GlassShape;
  size : number;
  refractionIndex : double;
  dispersion : double;
  thickness : number;
  backgroundPattern : BackgroundPattern;
  backgroundTexture : TextureSource;
  mouse : MouseConfig.t;
  animation : AnimationConfig.t;
  performance : PerformanceConfig.t
}.
Definition set_shape (v : GlassShape) (c : t) : t :=
  mk v (size c) (refractionIndex c) (dispersion c) (thickness c)
     (backgroundPattern c) (backgroundTexture c) (mouse c) (animation c)
     (performance c).
Definition set_size (v : number) (c : t) : t :=
  mk (shape c) v (refractionIndex c) (dispersion c) (thickness c)
     (backgroundPattern c) (backgroundTexture c) (mouse c) (animation c)
     (performance c).
Definition set_refractionIndex (v : double) (c : t) : t :=
  mk (shape c) (size c) v (dispersion c) (thickness c)
     (backgroundPattern c) (backgroundTexture c) (mouse c) (animation c)
     (performance c).
Definition set_dispersion (v : double) (c : t) : t :=
  mk (shape c) (size c) (refractionIndex c) v (thickness c)
     (backgroundPattern c) (backgroundTexture c) (mouse c) (animation c)
     (performance c).
Definition set_thickness (v : number) (c : t) : t :=
  mk (shape c) (size c) (refractionIndex c) (dispersion c) v
     (backgroundPattern c) (backgroundTexture c) (mouse c) (animation c)
     (performance c).
Definition set_backgroundPattern (v : BackgroundPattern) (c : t) : t :=
  mk (shape c) (size c) (refractionIndex c) (dispersion c) (thickness c)
     v (backgroundTexture c) (mouse c) (animation c) (performance c).
Definition set_backgroundTexture (v : TextureSource) (c : t) : t :=
  mk (shape c) (size c) (refractionIndex c) (dispersion c) (thickness c)
     (backgroundPattern c) v (mouse c) (animation c) (performance c).
Definition set_mouse (v : MouseConfig.t) (c : t) : t :=
  mk (shape c) (size c) (refractionIndex c) (dispersion c) (thickness c)
     (backgroundPattern c) (backgroundTexture c) v (animation c)
     (performance c).
Definition set_animation (v : AnimationConfig.t) (c : t) : t :=
  mk (shape c) (size c) (refractionIndex c) (dispersion c) (thickness c)
     (backgroundPattern c) (backgroundTexture c) (mouse c) v (performance c).
End Config.

(** The uniform values kept on the TypeScript side. *)
Module ShaderUniforms.
Record t : Type := mk {
  time : number;
  resolution : number * number;
  mousePos : number * number;
  refractionIndex : double;
  dispersion : double;
  thickness : number;
  glassSize : number;
  glassShape : number;
  backgroundPattern : number
}.
Definition set_time (v : number) (u : t) : t :=
  mk v (resolution u) (mousePos u) (refractionIndex u) (dispersion u)
     (thickness u) (glassSize u) (glassShape u) (backgroundPattern u).
Definition set_resolution (v : number * number) (u : t) : t :=
  mk (time u) v (mousePos u) (refractionIndex u) (dispersion u)
     (thickness u) (glassSize u) (glassShape u) (backgroundPattern u).
Definition set_mousePos (v : number * number) (u : t) : t :=
  mk (time u) (resolution u) v (refractionIndex u) (dispersion u)
     (thickness u) (glassSize u) (glassShape u) (backgroundPattern u).
Definition set_refractionIndex (v : double) (u : t) : t :=
  mk (time u) (resolution u) (mousePos u) v (dispersion u)
     (thickness u) (glassSize u) (glassShape u) (backgroundPattern u).
Definition set_dispersion (v : double) (u : t) : t :=
  mk (time u) (resolution u) (mousePos u) (refractionIndex u) v
     (thickness u) (glassSize u) (glassShape u) (backgroundPattern u).
Definition set_thickness (v : number) (u : t) : t :=
  mk (time u) (resolution u) (mousePos u) (refractionIndex u) (dispersion u)
     v (glassSize u) (glassShape u) (backgroundPattern u).
Definition set_glassSize (v : number) (u : t) : t :=
  mk (time u) (resolution u) (mousePos u) (refractionIndex u) (dispersion u)
     (thickness u) v (glassShape u) (backgroundPattern u).
Definition set_glassShape (v : number) (u : t) : t :=
  mk (time u) (resolution u) (mousePos u) (refractionIndex u) (dispersion u)
     (thickness u) (glassSize u) v (backgroundPattern u).
Definition set_backgroundPattern (v : number) (u : t) : t :=
  mk (time u) (resolution u) (mousePos u) (refractionIndex u) (dispersion u)
     (thickness u) (glassSize u) (glassShape u) v.
End ShaderUniforms.

(** Names of GPU objects (shaders, programs, buffers, textures). *)
Definition Handle : Type := nat.

(** [WebGLState]; the rendering context itself is the one of the browser
    model, and the uniform locations are the uniform names. *)
Module WebGLState.
Record t : Type := mk {
  program : Handle;
  uniformLocations : list string;
  backgroundTexture : option Handle
}.
Definition set_backgroundTexture (v : option Handle) (w : t) : t :=
  mk (program w) (uniformLocations w) v.
End WebGLState.

Inductive ErrorCode : Type :=
| WEBGL_NOT_SUPPORTED
| CANVAS_NOT_FOUND
| SHADER_COMPILATION_FAILED
| TEXTURE_LOAD_FAILED
| INVALID_CONFIGURATION.

(** What a [catch] clause can receive: a [PhysicsGlassError], or the
    [TypeError] of reading a property of [null]. *)
Inductive Error : Type :=
| PhysicsGlassError (message : string) (code : ErrorCode)
| TypeError (message : string).

Definition GLASS_MATERIALS : list (string * GlassMaterial.t) :=
  [ ("water",
     GlassMaterial.mk "Water" 1.33 0.01
       "Clear water with minimal dispersion");
    ("crownGlass",
     GlassMaterial.mk "Crown Glass" 1.52 0.02
       "Standard optical glass used in windows and lenses");
    ("flintGlass",
     GlassMaterial.mk "Flint Glass" 1.65 0.05
       "Dense glass with high dispersion for prisms");
    ("diamond",
     GlassMaterial.mk "Diamond" 2.42 0.08
       "Extremely high refraction creating brilliant effects");
    ("acrylic",
     GlassMaterial.mk "Acrylic" 1.49 0.015
       "Lightweight plastic with glass-like properties") ].

(** The names every plain object inherits from [Object.prototype]. *)
Definition ObjectPrototype : list string :=
  [ "constructor"; "hasOwnProperty"; "isPrototypeOf";
    "propertyIsEnumerable"; "toLocaleString"; "toString"; "valueOf";
    "__proto__"; "__defineGetter__"; "__defineSetter__";
    "__lookupGetter__"; "__lookupSetter__" ].

End Types.

(** ** The browser: DOM, animation frames and the WebGL context *)

Module GL.

Import Types.

Inductive ShaderType : Type := VERTEX_SHADER | FRAGMENT_SHADER.

(** What [texImage2D] uploads. *)
Inductive Pixels : Type :=
| ofElement (element : Element)
| ofLoadedImage (url : string)
| ofGradientCanvas.

(** The calls made on the rendering context, with the arguments that name
    GPU objects; a [create] call carries what it returned. *)
Inductive Command : Type :=
| createShader (type : ShaderType) (result : option Handle)
| shaderSource (shader : Handle)
| compileShader (shader : Handle)
| deleteShader (shader : Handle)
| createProgram (result : option Handle)
| attachShader (program shader : Handle)
| linkProgram (program : Handle)
| deleteProgram (program : Handle)
| useProgram (program : Handle)
| getUniformLocation (program : Handle) (name : string)
| getAttribLocation (program : Handle) (name : string)
| enableVertexAttribArray
| vertexAttribPointer
| createBuffer (result : option Handle)
| bindBuffer (buffer : Handle)
| bufferData
| deleteBuffer (buffer : Handle)
| createTexture (result : option Handle)
| bindTexture (texture : Handle)
| texImage2D (source : Pixels)
| texParameteri
| deleteTexture (texture : Handle)
| activeTexture
| viewport (width height : JS.number)
| clearColor
| enable
| blendFunc
| uniform1f (location : string) (value : JS.double)
| uniform2f (location : string) (value : JS.number * JS.number)
| uniform1i (location : string) (value : Z)
| clear
| drawArrays.

(** The calls that release a GPU object. *)
Definition releases (c : Command) : bool :=
  match c with
  | deleteTexture _ | deleteBuffer _ | deleteProgram _ => true
  | _ => false
  end.

End GL.

Module Browser.

Import JS Types.

Inductive Listener : Type :=
| mousemove | mouseleave | resize | webglcontextlost | webglcontextrestored.

Definition Listener_eqb (a b : Listener) : bool :=
  match a, b with
  | mousemove, mousemove | mouseleave, mouseleave | resize, resize
  | webglcontextlost, webglcontextlost
  | webglcontextrestored, webglcontextrestored => true
  | _, _ => false
  end.

(** An invocation of one of the four callbacks of the configuration. *)
Inductive Callback : Type :=
| onReady
| onError (error : Error)
| onShapeChange (shape : GlassShape)
| onMaterialChange (material : MaterialValue.t).

(** What the host decides and the library can only observe. *)
Record Host : Type := {
  supportsWebGL : bool;
  providesContext : bool;
  createsShader : bool;
  createsProgram : bool;
  createsBuffer : bool;
  createsTexture : bool;
  compiles : GL.ShaderType -> bool;
  links : bool;
  shaderInfoLog : string;
  programInfoLog : string;
  loads : string -> bool;
  matches : string -> bool;
  devicePixelRatio : number;
  rectLeft : number;
  rectTop : number;
  rectWidth : number;
  rectHeight : number
}.

Record t : Type := mk {
  host : Host;
  (** the calls made on the WebGL context, oldest first *)
  glLog : list GL.Command;
  nextHandle : Handle;
  (** the pending [requestAnimationFrame] requests *)
  frames : list positive;
  nextFrame : positive;
  listeners : list Listener;
  (** the callback invocations, oldest first *)
  callbacks : list Callback;
  canvasWidth : number;
  canvasHeight : number
}.

Definition B (A : Type) : Type := M Error t A.

Local Open Scope js_scope.

(** Issue one call on the rendering context. *)
Definition gl (c : GL.Command) : B unit :=
  modify (fun b =>
    mk (host b) (glLog b ++ [c]) (nextHandle b) (frames b) (nextFrame b)
       (listeners b) (callbacks b) (canvasWidth b) (canvasHeight b)).

Definition fresh : B Handle :=
  fun b =>
    (Normal (nextHandle b),
     mk (host b) (glLog b) (S (nextHandle b)) (frames b) (nextFrame b)
        (listeners b) (callbacks b) (canvasWidth b) (canvasHeight b)).

(** A [gl.create...] call: a fresh object, or [null] when the host refuses. *)
Definition create (allowed : Host -> bool)
  (call : option Handle -> GL.Command) : B (option Handle) :=
  ok <- gets (fun b => allowed (host b)) ;;
  if ok : bool then
    h <- fresh ;;
    gl (call (Some h)) ;;;
    ret (Some h)
  else
    gl (call None) ;;;
    ret None.

Definition requestAnimationFrame : B positive :=
  fun b =>
    (Normal (nextFrame b),
     mk (host b) (glLog b) (nextHandle b) (frames b ++ [nextFrame b])
        (Pos.succ (nextFrame b)) (listeners b) (callbacks b)
        (canvasWidth b) (canvasHeight b)).

Definition cancelAnimationFrame (id : positive) : B unit :=
  modify (fun b =>
    mk (host b) (glLog b) (nextHandle b)
       (filter (fun f => negb (Pos.eqb f id)) (frames b)) (nextFrame b)
       (listeners b) (callbacks b) (canvasWidth b) (canvasHeight b)).

(** [addEventListener] keeps one registration per listener. *)
Definition addEventListener (l : Listener) : B unit :=
  modify (fun b =>
    mk (host b) (glLog b) (nextHandle b) (frames b) (nextFrame b)
       (if existsb (Listener_eqb l) (listeners b) then listeners b
        else listeners b ++ [l])
       (callbacks b) (canvasWidth b) (canvasHeight b)).

Definition removeEventListener (l : Listener) : B unit :=
  modify (fun b =>
    mk (host b) (glLog b) (nextHandle b) (frames b) (nextFrame b)
       (filter (fun k => negb (Listener_eqb l k)) (listeners b))
       (callbacks b) (canvasWidth b) (canvasHeight b)).

(** Invoke a callback of the configuration.  The callbacks are observers:
    they return normally and do not call back into the instance. *)
Definition invoke (c : Callback) : B unit :=
  modify (fun b =>
    mk (host b) (glLog b) (nextHandle b) (frames b) (nextFrame b)
       (listeners b) (callbacks b ++ [c]) (canvasWidth b) (canvasHeight b)).

Definition setCanvasSize (w h : number) : B unit :=
  modify (fun b =>
    mk (host b) (glLog b) (nextHandle b) (frames b) (nextFrame b)
       (listeners b) (callbacks b) w h).

(** From now on the host decides as [h] does (the context is lost, the
    network comes back, the window is laid out anew). *)
Definition setHost (h : Host) : B unit :=
  modify (fun b =>
    mk h (glLog b) (nextHandle b) (frames b) (nextFrame b)
       (listeners b) (callbacks b) (canvasWidth b) (canvasHeight b)).

End Browser.

(** ** [utils/webgl.ts] *)

Module WebGL.

Import JS Types Browser.
Local Open Scope js_scope.
Local Open Scope string_scope.

Definition isWebGLSupported : B bool :=
  gets (fun b => supportsWebGL (host b)).

Definition getWebGLContext : B unit :=
  ok <- gets (fun b => providesContext (host b)) ;;
  if ok : bool then ret tt
  else
    throw (PhysicsGlassError "WebGL is not supported in this browser"
             WEBGL_NOT_SUPPORTED).

Definition createShader (type : GL.ShaderType) : B Handle :=
  shader <- create createsShader (GL.createShader type) ;;
  match shader with
  | None =>
      throw (PhysicsGlassError "Failed to create shader"
               SHADER_COMPILATION_FAILED)
  | Some shader =>
      gl (GL.shaderSource shader) ;;;
      gl (GL.compileShader shader) ;;;
      status <- gets (fun b => compiles (host b) type) ;;
      if status : bool then ret shader
      else
        info <- gets (fun b => shaderInfoLog (host b)) ;;
        gl (GL.deleteShader shader) ;;;
        throw (PhysicsGlassError ("Shader compilation failed: " ++ info)
                 SHADER_COMPILATION_FAILED)
  end.

Definition createProgram (vertexShader fragmentShader : Handle) : B Handle :=
  program <- create createsProgram GL.createProgram ;;
  match program with
  | None =>
      throw (PhysicsGlassError "Failed to create shader program"
               SHADER_COMPILATION_FAILED)
  | Some program =>
      gl (GL.attachShader program vertexShader) ;;;
      gl (GL.attachShader program fragmentShader) ;;;
      gl (GL.linkProgram program) ;;;
      status <- gets (fun b => links (host b)) ;;
      if status : bool then ret program
      else
        info <- gets (fun b => programInfoLog (host b)) ;;
        gl (GL.deleteProgram program) ;;;
        throw (PhysicsGlassError ("Program linking failed: " ++ info)
                 SHADER_COMPILATION_FAILED)
  end.

Definition createTextureFromElement (element : GL.Pixels) : B Handle :=
  created <- create createsTexture GL.createTexture ;;
  match created with
  | None =>
      throw (PhysicsGlassError "Failed to create texture" TEXTURE_LOAD_FAILED)
  | Some tex =>
      gl (GL.bindTexture tex) ;;;
      gl (GL.texImage2D element) ;;;
      gl GL.texParameteri ;;;
      gl GL.texParameteri ;;;
      gl GL.texParameteri ;;;
      gl GL.texParameteri ;;;
      ret tex
  end.

(** [loadImageTexture], from the moment the image has settled: the [onload]
    handler when the host loads [url], the [onerror] handler otherwise.  A
    throw is the rejection of the promise. *)
Definition loadImageTexture (url : string) : B Handle :=
  loaded <- gets (fun b => loads (host b) url) ;;
  if loaded : bool then
    tryCatch (createTextureFromElement (GL.ofLoadedImage url))
             (fun error => throw error)
  else
    throw (PhysicsGlassError ("Failed to load image: " ++ url)
             TEXTURE_LOAD_FAILED).

Definition createDefaultTexture : B Handle :=
  createTextureFromElement GL.ofGradientCanvas.

Fixpoint getUniformLocations (program : Handle) (uniforms : list string)
  : B (list string) :=
  match uniforms with
  | [] => ret []
  | uniform :: rest =>
      gl (GL.getUniformLocation program uniform) ;;;
      locations <- getUniformLocations program rest ;;
      ret (uniform :: locations)
  end.

Definition createQuadBuffer : B Handle :=
  buffer <- create createsBuffer GL.createBuffer ;;
  match buffer with
  | None =>
      throw (PhysicsGlassError "Failed to create vertex buffer"
               WEBGL_NOT_SUPPORTED)
  | Some buffer =>
      gl (GL.bindBuffer buffer) ;;;
      gl GL.bufferData ;;;
      ret buffer
  end.

(** Registers the two context listeners; the cleanup function it returns is
    [cleanupContextLossHandling]. *)
Definition setupContextLossHandling : B unit :=
  addEventListener webglcontextlost ;;;
  addEventListener webglcontextrestored.

Definition cleanupContextLossHandling : B unit :=
  removeEventListener webglcontextlost ;;;
  removeEventListener webglcontextrestored.

End WebGL.

(** ** [PhysicsGlass.ts] *)

Module PhysicsGlass.

Import JS Types Browser.
Local Open Scope js_scope.
Local Open Scope string_scope.
Local Open Scope Q_scope.

(** The fields of an instance.  [cleanupContextLoss] records whether the
    cleanup function has been stored. *)
Module Instance.
Record t : Type := mk {
  canvas : Element;
  config : Config.t;
  webglState : option WebGLState.t;
  animationId : option positive;
  isDestroyed : bool;
  time : number;
  mousePos : number * number;
  uniforms : ShaderUniforms.t;
  cleanupContextLoss : bool;
  vertexBuffer : option Handle
}.
Definition set_config (v : Config.t) (i : t) : t :=
  mk (canvas i) v (webglState i) (animationId i) (isDestroyed i) (time i)
     (mousePos i) (uniforms i) (cleanupContextLoss i) (vertexBuffer i).
Definition set_webglState (v : option WebGLState.t) (i : t) : t :=
  mk (canvas i) (config i) v (animationId i) (isDestroyed i) (time i)
     (mousePos i) (uniforms i) (cleanupContextLoss i) (vertexBuffer i).
Definition set_animationId (v : option positive) (i : t) : t :=
  mk (canvas i) (config i) (webglState i) v (isDestroyed i) (time i)
     (mousePos i) (uniforms i) (cleanupContextLoss i) (vertexBuffer i).
Definition set_isDestroyed (v : bool) (i : t) : t :=
  mk (canvas i) (config i) (webglState i) (animationId i) v (time i)
     (mousePos i) (uniforms i) (cleanupContextLoss i) (vertexBuffer i).
Definition set_time (v : number) (i : t) : t :=
  mk (canvas i) (config i) (webglState i) (animationId i) (isDestroyed i) v
     (mousePos i) (uniforms i) (cleanupContextLoss i) (vertexBuffer i).
Definition set_mousePos (v : number * number) (i : t) : t :=
  mk (canvas i) (config i) (webglState i) (animationId i) (isDestroyed i)
     (time i) v (uniforms i) (cleanupContextLoss i) (vertexBuffer i).
Definition set_uniforms (v : ShaderUniforms.t) (i : t) : t :=
  mk (canvas i) (config i) (webglState i) (animationId i) (isDestroyed i)
     (time i) (mousePos i) v (cleanupContextLoss i) (vertexBuffer i).
Definition set_cleanupContextLoss (v : bool) (i : t) : t :=
  mk (canvas i) (config i) (webglState i) (animationId i) (isDestroyed i)
     (time i) (mousePos i) (uniforms i) v (vertexBuffer i).
Definition set_vertexBuffer (v : option Handle) (i : t) : t :=
  mk (canvas i) (config i) (webglState i) (animationId i) (isDestroyed i)
     (time i) (mousePos i) (uniforms i) (cleanupContextLoss i) v.
End Instance.

(** An instance together with the browser it lives in. *)
Record World : Type := mkWorld {
  this : Instance.t;
  browser : Browser.t
}.

Definition js (A : Type) : Type := M Error World A.

(** A call into the browser. *)
Definition dom {A : Type} (c : B A) : js A :=
  lift browser (fun b w => mkWorld (this w) b) c.

(** Read and write the fields of [this]. *)
Definition field {A : Type} (f : Instance.t -> A) : js A :=
  gets (fun w => f (this w)).
Definition assign (f : Instance.t -> Instance.t) : js unit :=
  modify (fun w => mkWorld (f (this w)) (browser w)).

(** [window.devicePixelRatio || 1]: zero is falsy. *)
Definition DEFAULT_CONFIG (h : Host) : Config.t :=
  Config.mk sphere 0.15 1.5 0.03 0.3 stripes (Url "")
    (MouseConfig.mk true true 0.5 0.5)
    (AnimationConfig.mk true 1.0 true)
    (PerformanceConfig.mk
       (if Qeq_bool (devicePixelRatio h) 0 then 1 else devicePixelRatio h)
       true false false).

Definition orDefault {A : Type} (given : option A) (default : A) : A :=
  match given with
  | Some a => a
  | None => default
  end.

(** [{ ...defaults, ...config }]. *)
Definition spread (defaults : Config.t) (config : PhysicsGlassConfig.t)
  : Config.t :=
  Config.mk
    (orDefault (PhysicsGlassConfig.shape config) (Config.shape defaults))
    (orDefault (PhysicsGlassConfig.size config) (Config.size defaults))
    (orDefault (option_map num (PhysicsGlassConfig.refractionIndex config))
       (Config.refractionIndex defaults))
    (orDefault (option_map num (PhysicsGlassConfig.dispersion config))
       (Config.dispersion defaults))
    (orDefault (PhysicsGlassConfig.thickness config)
       (Config.thickness defaults))
    (orDefault (PhysicsGlassConfig.backgroundPattern config)
       (Config.backgroundPattern defaults))
    (orDefault (PhysicsGlassConfig.backgroundTexture config)
       (Config.backgroundTexture defaults))
    (orDefault (PhysicsGlassConfig.mouse config) (Config.mouse defaults))
    (orDefault (PhysicsGlassConfig.animation config)
       (Config.animation defaults))
    (orDefault (PhysicsGlassConfig.performance config)
       (Config.performance defaults)).

(** [Array.prototype.indexOf], counting from [i]. *)
Fixpoint indexOf {A : Type} (eqb : A -> A -> bool) (l : list A) (a : A)
  (i : Z) : Z :=
  match l with
  | [] => (-1)%Z
  | b :: rest => if eqb b a then i else indexOf eqb rest a (i + 1)%Z
  end.

Definition getShapeIndex (shape : GlassShape) : number :=
  let shapes := [sphere; cylinder; lens; prism; flat] in
  inject_Z (indexOf GlassShape_eqb shapes shape 0).

Definition getPatternIndex (pattern : BackgroundPattern) : number :=
  let patterns := [stripes; grid; circles; texture] in
  inject_Z (indexOf BackgroundPattern_eqb patterns pattern 0).

(** [validateConfig], on the configuration just stored in [this.config]. *)
Definition validateConfig {S : Type} (config : Config.t) : M Error S unit :=
  if le (Config.size config) 0 || gt (Config.size config) 1 then
    throw (PhysicsGlassError "Glass size must be between 0 and 1"
             INVALID_CONFIGURATION)
  else if Double.lt (Config.refractionIndex config) 1
          || Double.gt (Config.refractionIndex config) 3 then
    throw (PhysicsGlassError "Refraction index must be between 1 and 3"
             INVALID_CONFIGURATION)
  else ret tt.

(** The first argument of the constructor. *)
Inductive CanvasArgument : Type :=
| selector (s : string)
| element (e : Element).

(** [document.querySelector]: the canvas of the model has identity 0. *)
Definition querySelector (s : string) : B (option Element) :=
  found <- gets (fun b => matches (host b) s) ;;
  ret (if found : bool then Some 0%nat else None).

(** The constructor, up to its last statement.  That statement starts
    [init], which is asynchronous: the constructor does not wait for it and
    its rejection reaches nobody. *)
Definition constructor (canvas : CanvasArgument) (config : PhysicsGlassConfig.t)
  : B Instance.t :=
  canvas <-
    match canvas with
    | selector s =>
        found <- querySelector s ;;
        match found with
        | None =>
            throw (PhysicsGlassError ("Canvas element not found: " ++ s)
                     CANVAS_NOT_FOUND)
        | Some e => ret e
        end
    | element e => ret e
    end ;;
  defaults <- gets (fun b => DEFAULT_CONFIG (host b)) ;;
  let config := spread defaults config in
  validateConfig config ;;;
  width <- gets canvasWidth ;;
  height <- gets canvasHeight ;;
  let uniforms :=
    ShaderUniforms.mk 0 (width, height)
      (MouseConfig.centerX (Config.mouse config),
       MouseConfig.centerY (Config.mouse config))
      (Config.refractionIndex config)
      (Config.dispersion config)
      (Config.thickness config)
      (Config.size config)
      (getShapeIndex (Config.shape config))
      (getPatternIndex (Config.backgroundPattern config)) in
  ret (Instance.mk canvas config None None false 0 (0.5, 0.5) uniforms
         false None).

Definition uniformNames : list string :=
  [ "u_time"; "u_resolution"; "u_mousePos"; "u_refractionIndex";
    "u_dispersion"; "u_thickness"; "u_glassSize"; "u_glassShape";
    "u_backgroundPattern"; "u_backgroundTexture" ].

(** [setupWebGL]; its one [await], on [loadImageTexture], is taken at the
    moment the image has settled. *)
Definition setupWebGL : js unit :=
  dom WebGL.getWebGLContext ;;;
  vertexShader <- dom (WebGL.createShader GL.VERTEX_SHADER) ;;
  fragmentShader <- dom (WebGL.createShader GL.FRAGMENT_SHADER) ;;
  program <- dom (WebGL.createProgram vertexShader fragmentShader) ;;
  dom (gl (GL.useProgram program)) ;;;
  uniformLocations <- dom (WebGL.getUniformLocations program uniformNames) ;;
  buffer <- dom WebGL.createQuadBuffer ;;
  assign (Instance.set_vertexBuffer (Some buffer)) ;;;
  dom (gl (GL.getAttribLocation program "a_position")) ;;;
  dom (gl GL.enableVertexAttribArray) ;;;
  dom (gl GL.vertexAttribPointer) ;;;
  source <- field (fun t => Config.backgroundTexture (Instance.config t)) ;;
  backgroundTexture <-
    (if truthy source then
       match source with
       | Url url => dom (WebGL.loadImageTexture url)
       | Image e => dom (WebGL.createTextureFromElement (GL.ofElement e))
       end
     else dom WebGL.createDefaultTexture) ;;
  width <- dom (gets canvasWidth) ;;
  height <- dom (gets canvasHeight) ;;
  dom (gl (GL.viewport width height)) ;;;
  dom (gl GL.clearColor) ;;;
  dom (gl GL.enable) ;;;
  dom (gl GL.blendFunc) ;;;
  assign (Instance.set_webglState
            (Some (WebGLState.mk program uniformLocations
                     (Some backgroundTexture)))).

(** [setupCanvas]; the CSS size it writes to [canvas.style] is not part of
    the model. *)
Definition setupCanvas : js unit :=
  pixelRatio <-
    field (fun t =>
      PerformanceConfig.pixelRatio (Config.performance (Instance.config t))) ;;
  rectWidth <- dom (gets (fun b => rectWidth (host b))) ;;
  rectHeight <- dom (gets (fun b => rectHeight (host b))) ;;
  dom (setCanvasSize (rectWidth * pixelRatio) (rectHeight * pixelRatio)) ;;;
  width <- dom (gets canvasWidth) ;;
  height <- dom (gets canvasHeight) ;;
  assign (fun t =>
    Instance.set_uniforms
      (ShaderUniforms.set_resolution (width, height) (Instance.uniforms t))
      t) ;;;
  state <- field Instance.webglState ;;
  match state with
  | Some _ => dom (gl (GL.viewport width height))
  | None => ret tt
  end.

Definition setupEventListeners : js unit :=
  mouse <- field (fun t => Config.mouse (Instance.config t)) ;;
  when (MouseConfig.enabled mouse && MouseConfig.followCursor mouse)
    (dom (addEventListener mousemove) ;;;
     dom (addEventListener mouseleave)) ;;;
  dom (addEventListener resize) ;;;
  dom WebGL.setupContextLossHandling ;;;
  assign (Instance.set_cleanupContextLoss true).

Definition setMouse (x y : number) : js unit :=
  assign (Instance.set_mousePos (x, y)) ;;;
  assign (fun t =>
    Instance.set_uniforms
      (ShaderUniforms.set_mousePos (x, y) (Instance.uniforms t)) t).

Definition handleMouseMove (clientX clientY : number) : js unit :=
  followCursor <-
    field (fun t =>
      MouseConfig.followCursor (Config.mouse (Instance.config t))) ;;
  if followCursor : bool then
    h <- dom (gets host) ;;
    setMouse ((clientX - rectLeft h) / rectWidth h)
             (1.0 - (clientY - rectTop h) / rectHeight h)
  else ret tt.

Definition handleMouseLeave : js unit :=
  mouse <- field (fun t => Config.mouse (Instance.config t)) ;;
  setMouse (MouseConfig.centerX mouse) (MouseConfig.centerY mouse).

Definition handleResize : js unit := setupCanvas.

Definition updateUniforms : js unit :=
  state <- field Instance.webglState ;;
  match state with
  | None => ret tt
  | Some state =>
      u <- field Instance.uniforms ;;
      dom (gl (GL.uniform1f "u_time" (ShaderUniforms.time u))) ;;;
      dom (gl (GL.uniform2f "u_resolution" (ShaderUniforms.resolution u))) ;;;
      dom (gl (GL.uniform2f "u_mousePos" (ShaderUniforms.mousePos u))) ;;;
      dom (gl (GL.uniform1f "u_refractionIndex"
                 (ShaderUniforms.refractionIndex u))) ;;;
      dom (gl (GL.uniform1f "u_dispersion" (ShaderUniforms.dispersion u))) ;;;
      dom (gl (GL.uniform1f "u_thickness" (ShaderUniforms.thickness u))) ;;;
      dom (gl (GL.uniform1f "u_glassSize" (ShaderUniforms.glassSize u))) ;;;
      dom (gl (GL.uniform1f "u_glassShape" (ShaderUniforms.glassShape u))) ;;;
      dom (gl (GL.uniform1f "u_backgroundPattern"
                 (ShaderUniforms.backgroundPattern u))) ;;;
      match WebGLState.backgroundTexture state with
      | Some tex =>
          dom (gl GL.activeTexture) ;;;
          dom (gl (GL.bindTexture tex)) ;;;
          dom (gl (GL.uniform1i "u_backgroundTexture" 0))
      | None => ret tt
      end
  end.

(** [render]: one frame.  When animation is enabled it requests the next. *)
Definition render : js unit :=
  isDestroyed <- field Instance.isDestroyed ;;
  state <- field Instance.webglState ;;
  match isDestroyed, state with
  | false, Some _ =>
      assign (fun t =>
        Instance.set_time
          (Instance.time t
           + 0.016 * AnimationConfig.speed
                       (Config.animation (Instance.config t)))
          t) ;;;
      assign (fun t =>
        Instance.set_uniforms
          (ShaderUniforms.set_time (Instance.time t) (Instance.uniforms t))
          t) ;;;
      dom (gl GL.clear) ;;;
      updateUniforms ;;;
      dom (gl GL.drawArrays) ;;;
      enabled <-
        field (fun t =>
          AnimationConfig.enabled (Config.animation (Instance.config t))) ;;
      if enabled : bool then
        id <- dom requestAnimationFrame ;;
        assign (Instance.set_animationId (Some id))
      else ret tt
  | _, _ => ret tt
  end.

(** *** Public API *)

Definition setShape (shape : GlassShape) : js unit :=
  assign (fun t =>
    Instance.set_config (Config.set_shape shape (Instance.config t)) t) ;;;
  assign (fun t =>
    Instance.set_uniforms
      (ShaderUniforms.set_glassShape (getShapeIndex shape)
         (Instance.uniforms t)) t) ;;;
  dom (invoke (onShapeChange shape)).

Definition setSize (size : number) : js unit :=
  assign (fun t =>
    Instance.set_config
      (Config.set_size (Math_max 0.01 (Math_min 1 size)) (Instance.config t))
      t) ;;;
  assign (fun t =>
    Instance.set_uniforms
      (ShaderUniforms.set_glassSize (Config.size (Instance.config t))
         (Instance.uniforms t)) t).

Definition setRefractionIndex (index : double) : js unit :=
  assign (fun t =>
    Instance.set_config
      (Config.set_refractionIndex
         (Double.Math_max 1 (Double.Math_min 3 index))
         (Instance.config t)) t) ;;;
  assign (fun t =>
    Instance.set_uniforms
      (ShaderUniforms.set_refractionIndex
         (Config.refractionIndex (Instance.config t))
         (Instance.uniforms t)) t).

Definition setDispersion (dispersion : double) : js unit :=
  assign (fun t =>
    Instance.set_config
      (Config.set_dispersion
         (Double.Math_max 0 (Double.Math_min 0.2 dispersion))
         (Instance.config t)) t) ;;;
  assign (fun t =>
    Instance.set_uniforms
      (ShaderUniforms.set_dispersion (Config.dispersion (Instance.config t))
         (Instance.uniforms t)) t).

Definition setThickness (thickness : number) : js unit :=
  assign (fun t =>
    Instance.set_config
      (Config.set_thickness (Math_max 0.1 (Math_min 2 thickness))
         (Instance.config t)) t) ;;;
  assign (fun t =>
    Instance.set_uniforms
      (ShaderUniforms.set_thickness (Config.thickness (Instance.config t))
         (Instance.uniforms t)) t).

Definition setBackgroundPattern (pattern : BackgroundPattern) : js unit :=
  assign (fun t =>
    Instance.set_config
      (Config.set_backgroundPattern pattern (Instance.config t)) t) ;;;
  assign (fun t =>
    Instance.set_uniforms
      (ShaderUniforms.set_backgroundPattern (getPatternIndex pattern)
         (Instance.uniforms t)) t).

(** The statements of [setBackgroundTexture] that follow the creation of
    the new texture: release the old one, then store the new one.  Reading
    [this.webglState.backgroundTexture] throws when the state is [null]. *)
Definition swapTexture (source : TextureSource) (newTexture : Handle)
  : js unit :=
  state <- field Instance.webglState ;;
  match state with
  | None => throw (TypeError "Cannot read properties of null")
  | Some state =>
      match WebGLState.backgroundTexture state with
      | Some old => dom (gl (GL.deleteTexture old))
      | None => ret tt
      end ;;;
      assign (Instance.set_webglState
                (Some (WebGLState.set_backgroundTexture (Some newTexture)
                         state))) ;;;
      assign (fun t =>
        Instance.set_config
          (Config.set_backgroundTexture source (Instance.config t)) t)
  end.

(** [setBackgroundTexture], until it returns or suspends.  The result is
    [None] when the promise it returned is already resolved, and [Some url]
    when the method is suspended at [await loadImageTexture(gl, url)].  A
    throw would be the rejection of the promise. *)
Definition setBackgroundTexture (source : TextureSource)
  : js (option string) :=
  state <- field Instance.webglState ;;
  match state with
  | None => ret None
  | Some _ =>
      match source with
      | Url url => ret (Some url)
      | Image e =>
          tryCatch
            (newTexture <-
               dom (WebGL.createTextureFromElement (GL.ofElement e)) ;;
             swapTexture source newTexture)
            (fun error => dom (invoke (onError error))) ;;;
          ret None
      end
  end.

(** The rest of a suspended [setBackgroundTexture], run when the image has
    settled, in the world as it is by then. *)
Definition setBackgroundTexture_resume (url : string) : js unit :=
  tryCatch
    (newTexture <- dom (WebGL.loadImageTexture url) ;;
     swapTexture (Url url) newTexture)
    (fun error => dom (invoke (onError error))).

(** The argument of [setMaterial]: a string or a material. *)
Inductive MaterialArgument : Type :=
| named (name : string)
| material (mat : GlassMaterial.t).

(** The own property [name] of the table. *)
Fixpoint own (name : string) (table : list (string * GlassMaterial.t))
  : option GlassMaterial.t :=
  match table with
  | [] => None
  | (key, mat) :: rest =>
      if String.eqb key name then Some mat else own name rest
  end.

(** [table[name]]: the own property when there is one, otherwise what the
    table inherits under that name from [Object.prototype]; [None] is
    [undefined]. *)
Definition lookup (name : string) (table : list (string * GlassMaterial.t))
  : option MaterialValue.t :=
  match own name table with
  | Some mat => Some (MaterialValue.aMaterial mat)
  | None =>
      if existsb (String.eqb name) ObjectPrototype then
        Some (MaterialValue.prototypeMember name)
      else None
  end.

(** [setMaterial]; every value [lookup] finds is truthy. *)
Definition setMaterial (arg : MaterialArgument) : js unit :=
  let mat :=
    match arg with
    | named name => lookup name GLASS_MATERIALS
    | material m => Some (MaterialValue.aMaterial m)
    end in
  match mat with
  | None => ret tt
  | Some mat =>
      setRefractionIndex (MaterialValue.refractionIndex mat) ;;;
      setDispersion (MaterialValue.dispersion mat) ;;;
      dom (invoke (onMaterialChange mat))
  end.

Definition getMaterials : list GlassMaterial.t := map snd GLASS_MATERIALS.

Definition setMousePosition (x y : number) : js unit :=
  setMouse (Math_max 0 (Math_min 1 x)) (Math_max 0 (Math_min 1 y)).

Definition enableMouseTracking (enabled : bool) : js unit :=
  assign (fun t =>
    let c := Instance.config t in
    let m := Config.mouse c in
    Instance.set_config
      (Config.set_mouse
         (MouseConfig.mk enabled (MouseConfig.followCursor m)
            (MouseConfig.centerX m) (MouseConfig.centerY m)) c) t) ;;;
  if enabled then ret tt
  else
    mouse <- field (fun t => Config.mouse (Instance.config t)) ;;
    setMousePosition (MouseConfig.centerX mouse) (MouseConfig.centerY mouse).

Definition setAnimationEnabled (enabled : bool) : js unit :=
  assign (fun t =>
    let c := Instance.config t in
    Instance.set_config
      (Config.set_animation
         (AnimationConfig.set_enabled enabled (Config.animation c)) c) t).

Definition startAnimation : js unit :=
  setAnimationEnabled true ;;;
  id <- field Instance.animationId ;;
  match id with
  | None => render
  | Some _ => ret tt
  end.

Definition stopAnimation : js unit :=
  setAnimationEnabled false ;;;
  id <- field Instance.animationId ;;
  match id with
  | Some id =>
      dom (cancelAnimationFrame id) ;;;
      assign (Instance.set_animationId None)
  | None => ret tt
  end.

Definition setAnimationSpeed (speed : number) : js unit :=
  assign (fun t =>
    let c := Instance.config t in
    Instance.set_config
      (Config.set_animation
         (AnimationConfig.set_speed (Math_max 0 (Math_min 5 speed))
            (Config.animation c)) c) t).

Definition resize : js unit := handleResize.

Definition destroy : js unit :=
  assign (Instance.set_isDestroyed true) ;;;
  stopAnimation ;;;
  (* remove event listeners *)
  dom (removeEventListener mousemove) ;;;
  dom (removeEventListener mouseleave) ;;;
  dom (removeEventListener Browser.resize) ;;;
  cleanup <- field Instance.cleanupContextLoss ;;
  when cleanup (dom WebGL.cleanupContextLossHandling) ;;;
  (* clean up WebGL resources *)
  state <- field Instance.webglState ;;
  match state with
  | Some state =>
      match WebGLState.backgroundTexture state with
      | Some tex => dom (gl (GL.deleteTexture tex))
      | None => ret tt
      end ;;;
      buffer <- field Instance.vertexBuffer ;;
      match buffer with
      | Some buffer => dom (gl (GL.deleteBuffer buffer))
      | None => ret tt
      end ;;;
      dom (gl (GL.deleteProgram (WebGLState.program state)))
  | None => ret tt
  end ;;;
  assign (Instance.set_webglState None).

Definition getConfig : js Config.t := field Instance.config.

Definition getCanvas : js Element := field Instance.canvas.

Definition isWebGLSupported : js bool := dom WebGL.isWebGLSupported.

(** *** Initialisation and the context handlers *)

(** [init], the asynchronous tail of the constructor, with its awaits taken
    in one piece.  A throw is the rejection of its promise. *)
Definition init : js unit :=
  tryCatch
    (supported <- dom WebGL.isWebGLSupported ;;
     (if supported : bool then ret tt
      else
        throw (PhysicsGlassError "WebGL is not supported"
                 WEBGL_NOT_SUPPORTED)) ;;;
     setupWebGL ;;;
     setupCanvas ;;;
     setupEventListeners ;;;
     enabled <-
       field (fun t =>
         AnimationConfig.enabled (Config.animation (Instance.config t))) ;;
     when enabled startAnimation ;;;
     dom (invoke onReady))
    (fun error => dom (invoke (onError error)) ;;; throw error).

Definition handleContextLoss : js unit := stopAnimation.

(** [setupWebGL().then(...)]: a rejection is handled by nobody. *)
Definition handleContextRestored : js unit :=
  tryCatch
    (setupWebGL ;;;
     enabled <-
       field (fun t =>
         AnimationConfig.enabled (Config.animation (Instance.config t))) ;;
     when enabled startAnimation)
    (fun _ => ret tt).

(** *** The event loop

    Everything that can happen to an instance once it is constructed: a
    call of the public API by the host, the callbacks the browser makes,
    and a change of what the host decides. *)

Inductive Call : Type :=
| callSetShape (shape : GlassShape)
| callSetSize (size : number)
| callSetRefractionIndex (index : number)
| callSetDispersion (dispersion : number)
| callSetThickness (thickness : number)
| callSetBackgroundPattern (pattern : BackgroundPattern)
| callSetBackgroundTexture (source : TextureSource)
| callSetMaterial (arg : MaterialArgument)
| callSetMousePosition (x y : number)
| callEnableMouseTracking (enabled : bool)
| callStartAnimation
| callStopAnimation
| callSetAnimationSpeed (speed : number)
| callResize
| callDestroy.

Inductive Event : Type :=
| hostCalls (c : Call)
| initRuns
| frameFires (id : positive)
| imageSettles (url : string)
| mouseMoves (clientX clientY : number)
| mouseLeaves
| windowResizes
| contextIsLost
| contextIsRestored
| hostChanges (h : Host).

Definition perform (c : Call) : js unit :=
  match c with
  | callSetShape shape => setShape shape
  | callSetSize size => setSize size
  | callSetRefractionIndex index => setRefractionIndex index
  | callSetDispersion dispersion => setDispersion dispersion
  | callSetThickness thickness => setThickness thickness
  | callSetBackgroundPattern pattern => setBackgroundPattern pattern
  | callSetBackgroundTexture source => setBackgroundTexture source ;;; ret tt
  | callSetMaterial arg => setMaterial arg
  | callSetMousePosition x y => setMousePosition x y
  | callEnableMouseTracking enabled => enableMouseTracking enabled
  | callStartAnimation => startAnimation
  | callStopAnimation => stopAnimation
  | callSetAnimationSpeed speed => setAnimationSpeed speed
  | callResize => resize
  | callDestroy => destroy
  end.

(** The browser takes a frame request off its list before it runs it. *)
Definition takeFrame (id : positive) : js bool :=
  pending <- dom (gets (fun b => existsb (Pos.eqb id) (frames b))) ;;
  dom (cancelAnimationFrame id) ;;;
  ret pending.

Definition listening (l : Listener) : js bool :=
  dom (gets (fun b => existsb (Listener_eqb l) (listeners b))).

(** A DOM event runs its handler when the listener is registered. *)
Definition dispatch (l : Listener) (handler : js unit) : js unit :=
  registered <- listening l ;;
  when registered handler.

Definition handle (e : Event) : js unit :=
  match e with
  | hostCalls c => perform c
  | initRuns => init
  | frameFires id =>
      pending <- takeFrame id ;;
      when pending render
  | imageSettles url => setBackgroundTexture_resume url
  | mouseMoves clientX clientY =>
      dispatch mousemove (handleMouseMove clientX clientY)
  | mouseLeaves => dispatch mouseleave handleMouseLeave
  | windowResizes => dispatch Browser.resize handleResize
  | contextIsLost => dispatch webglcontextlost handleContextLoss
  | contextIsRestored => dispatch webglcontextrestored handleContextRestored
  | hostChanges h => dom (setHost h)
  end.

(** The world after an event: an exception that escapes a handler is
    reported by the browser and changes nothing more. *)
Definition step (w : World) (e : Event) : World := exec (handle e) w.

Definition run (events : list Event) (w : World) : World :=
  fold_left step events w.

(** [new PhysicsGlass(canvas, config)] in browser [b]: the world of the new
    instance, or the exception the constructor threw. *)
Definition new (canvas : CanvasArgument) (config : PhysicsGlassConfig.t)
  (b : Browser.t) : Completion Error World :=
  match constructor canvas config b with
  | (Normal instance, b') => Normal (mkWorld instance b')
  | (Throw error, _) => Throw error
  end.

End PhysicsGlass.

(** ** From the instance to the shader

    What the program's uniforms hold once [updateUniforms] has uploaded the
    values kept on the TypeScript side. *)

Module Frame.

Import GLSL Types.

Definition float (x : JS.number) : R := Q2R x.

Definition float2 (p : JS.number * JS.number) : vec2 :=
  Vec2 (float (fst p)) (float (snd p)).

(** The uniforms of the program when [u] is uploaded and its refraction
    index and dispersion are the numbers [refractionIndex] and
    [dispersion]. *)
Definition finite (u : ShaderUniforms.t)
  (refractionIndex dispersion : JS.number) (sampler : vec2 -> vec4)
  : Fragment.Uniforms :=
  {| Fragment.u_time := float (ShaderUniforms.time u);
     Fragment.u_resolution := float2 (ShaderUniforms.resolution u);
     Fragment.u_mousePos := float2 (ShaderUniforms.mousePos u);
     Fragment.u_refractionIndex := float refractionIndex;
     Fragment.u_dispersion := float dispersion;
     Fragment.u_thickness := float (ShaderUniforms.thickness u);
     Fragment.u_glassSize := float (ShaderUniforms.glassSize u);
     Fragment.u_glassShape := float (ShaderUniforms.glassShape u);
     Fragment.u_backgroundPattern :=
       float (ShaderUniforms.backgroundPattern u);
     Fragment.u_backgroundTexture := sampler |}.

(** [None] when a [NaN] is uploaded: the shader is modelled over the real
    numbers, which have no value for it. *)
Definition uniforms (u : ShaderUniforms.t) (sampler : vec2 -> vec4)
  : option Fragment.Uniforms :=
  match ShaderUniforms.refractionIndex u, ShaderUniforms.dispersion u with
  | JS.num refractionIndex, JS.num dispersion =>
      Some (finite u refractionIndex dispersion sampler)
  | _, _ => None
  end.

End Frame.

(** ** Vocabulary of the properties

    The predicates the statements of Part II are written with, the proof
    notions behind them, and the concrete inputs of the examples. *)

Module Laws.

Import JS Types Browser PhysicsGlass.
Local Open Scope Q_scope.
Local Open Scope string_scope.

(** *** Ranges *)

(** The two tests of [validateConfig], read as ranges. *)
Definition sizeInRange (c : Config.t) : Prop := 0 < Config.size c <= 1.

(** [x] is a number, and lies between [lo] and [hi]. *)
Definition between (lo hi : number) (x : double) : Prop :=
  match x with
  | num q => lo <= q <= hi
  | NaN => False
  end.

Definition indexInRange (c : Config.t) : Prop :=
  between 1 3 (Config.refractionIndex c).

(** [x] is [NaN], or lies between [lo] and [hi]. *)
Definition betweenOrNaN (lo hi : number) (x : double) : Prop :=
  match x with
  | num q => lo <= q <= hi
  | NaN => True
  end.

(** The size lies in its declared range and the refraction index is [NaN]
    or lies in its own, in the stored configuration and in the uniforms
    alike. *)
Definition inRangeOrNaN (t : Instance.t) : Prop :=
  (0 < Config.size (Instance.config t) <= 1
   /\ betweenOrNaN 1 3 (Config.refractionIndex (Instance.config t)))
  /\ (0 < ShaderUniforms.glassSize (Instance.uniforms t) <= 1
      /\ betweenOrNaN 1 3
           (ShaderUniforms.refractionIndex (Instance.uniforms t))).

(** Size and refraction index lie in their declared ranges, in the stored
    configuration and in the uniforms the shader is given. *)
Definition inRange (t : Instance.t) : Prop :=
  (0 < Config.size (Instance.config t) <= 1
   /\ between 1 3 (Config.refractionIndex (Instance.config t)))
  /\ (0 < ShaderUniforms.glassSize (Instance.uniforms t) <= 1
      /\ between 1 3 (ShaderUniforms.refractionIndex (Instance.uniforms t))).

(** *** The constructor *)

(** Whether the first argument of the constructor names a canvas. *)
Definition resolves (canvas : CanvasArgument) (b : Browser.t) : bool :=
  match canvas with
  | selector s => matches (host b) s
  | element _ => true
  end.

(** The instance the constructor builds from the merged configuration. *)
Definition built (e : Element) (c : Config.t) (b : Browser.t) : Instance.t :=
  Instance.mk e c None None false 0 (0.5, 0.5)
    (ShaderUniforms.mk 0 (canvasWidth b, canvasHeight b)
       (MouseConfig.centerX (Config.mouse c),
        MouseConfig.centerY (Config.mouse c))
       (Config.refractionIndex c) (Config.dispersion c) (Config.thickness c)
       (Config.size c) (getShapeIndex (Config.shape c))
       (getPatternIndex (Config.backgroundPattern c)))
    false None.

(** [config] with its dispersion and thickness replaced. *)
Definition withDispersionAndThickness (dispersion thickness : number)
  (config : PhysicsGlassConfig.t) : PhysicsGlassConfig.t :=
  PhysicsGlassConfig.mk
    (PhysicsGlassConfig.shape config) (PhysicsGlassConfig.size config)
    (PhysicsGlassConfig.refractionIndex config)
    (Some dispersion) (Some thickness)
    (PhysicsGlassConfig.backgroundPattern config)
    (PhysicsGlassConfig.backgroundTexture config)
    (PhysicsGlassConfig.mouse config) (PhysicsGlassConfig.animation config)
    (PhysicsGlassConfig.performance config).

(** *** Texture changes *)

(** The outcome of a failed texture change: the instance is unchanged, one
    error is reported through [onError], nothing registered or pending in
    the browser changes, and no GPU object is released. *)
Definition onlyReports (error : Error) (w w' : World) : Prop :=
  this w' = this w
  /\ callbacks (browser w') = (callbacks (browser w) ++ [onError error])%list
  /\ filter GL.releases (glLog (browser w'))
     = filter GL.releases (glLog (browser w))
  /\ frames (browser w') = frames (browser w)
  /\ listeners (browser w') = listeners (browser w).

(** *** The animation clock *)

Definition speedOf (t : Instance.t) : number :=
  AnimationConfig.speed (Config.animation (Instance.config t)).

Definition enabledOf (t : Instance.t) : bool :=
  AnimationConfig.enabled (Config.animation (Instance.config t)).

(** Every event but a call of [startAnimation]. *)
Definition leavesStopped (e : Event) : bool :=
  match e with
  | hostCalls callStartAnimation => false
  | _ => true
  end.

(** [ticking t0]: the accumulator has reached [t0] and the speed is not
    negative. *)
Definition ticking (t0 : number) (t : Instance.t) : Prop :=
  t0 <= Instance.time t /\ 0 <= speedOf t.

(** [owned]: every pending frame request is the one recorded in
    [animationId].  [idle]: no frame request is pending. *)
Definition owned (w : World) : Prop :=
  forall id, In id (frames (browser w)) ->
             Instance.animationId (this w) = Some id.

Definition idle (w : World) : Prop := frames (browser w) = [].

(** After [stopAnimation] nothing is pending and animation is disabled. *)
Definition stopped (w : World) : Prop :=
  idle w /\ enabledOf (this w) = false.

(** [paused t0]: animation is disabled, no frame request is pending and the
    time accumulator reads [t0]. *)
Definition paused (t0 : number) (w : World) : Prop :=
  enabledOf (this w) = false /\ idle w /\ Instance.time (this w) = t0.

(** *** Disposal *)

(** [l] is not registered among [ls]. *)
Definition absent (l : Listener) (ls : list Listener) : Prop :=
  forall k, In k ls -> negb (Listener_eqb l k) = true.

(** What [destroy] leaves behind. *)
Definition disposed (w : World) : Prop :=
  Instance.isDestroyed (this w) = true
  /\ enabledOf (this w) = false
  /\ Instance.animationId (this w) = None
  /\ Instance.webglState (this w) = None
  /\ absent mousemove (listeners (browser w))
  /\ absent mouseleave (listeners (browser w))
  /\ absent Browser.resize (listeners (browser w))
  /\ (Instance.cleanupContextLoss (this w) = true ->
      absent webglcontextlost (listeners (browser w))
      /\ absent webglcontextrestored (listeners (browser w))).

(** *** Program logic *)

(** [keeps P c]: the method [c] keeps the property [P] of the instance. *)
Definition keeps (P : Instance.t -> Prop) {A : Type} (c : js A) : Prop :=
  forall w, P (this w) -> P (this (exec c w)).

(** A Hoare triple over the world; the postcondition also covers the world
    an exception leaves. *)
Definition triple {A : Type} (Pre : World -> Prop) (c : js A)
  (Post : World -> Prop) : Prop :=
  forall w, Pre w -> Post (exec c w).

(** A browser call that leaves the frame requests alone. *)
Definition sameFrames {A : Type} (c : B A) : Prop :=
  forall b, frames (snd (c b)) = frames b.

(** The assignments to fields of [this] that the methods make. *)
Inductive Write : Type :=
| writeVertexBuffer (buffer : Handle)
| writeWebglState (state : option WebGLState.t)
| writeResolution (r : number * number)
| writeCleanupContextLoss
| writeMousePos (p : number * number)
| writeUniformMousePos (p : number * number)
| writeTime
| writeUniformTime
| writeAnimationId (id : option positive)
| writeShape (shape : GlassShape)
| writeUniformShape (shape : GlassShape)
| writeSize (size : number)
| writeUniformSize
| writeRefractionIndex (index : double)
| writeUniformRefractionIndex
| writeDispersion (dispersion : double)
| writeUniformDispersion
| writeThickness (thickness : number)
| writeUniformThickness
| writePattern (pattern : BackgroundPattern)
| writeUniformPattern (pattern : BackgroundPattern)
| writeBackgroundTexture (source : TextureSource)
| writeMouseEnabled (enabled : bool)
| writeAnimationEnabled (enabled : bool)
| writeSpeed (speed : number)
| writeIsDestroyed.

Definition write (w : Write) (t : Instance.t) : Instance.t :=
  let c := Instance.config t in
  let u := Instance.uniforms t in
  match w with
  | writeVertexBuffer buffer => Instance.set_vertexBuffer (Some buffer) t
  | writeWebglState state => Instance.set_webglState state t
  | writeResolution r =>
      Instance.set_uniforms (ShaderUniforms.set_resolution r u) t
  | writeCleanupContextLoss => Instance.set_cleanupContextLoss true t
  | writeMousePos p => Instance.set_mousePos p t
  | writeUniformMousePos p =>
      Instance.set_uniforms (ShaderUniforms.set_mousePos p u) t
  | writeTime =>
      Instance.set_time
        (Instance.time t + 0.016 * AnimationConfig.speed (Config.animation c))
        t
  | writeUniformTime =>
      Instance.set_uniforms (ShaderUniforms.set_time (Instance.time t) u) t
  | writeAnimationId id => Instance.set_animationId id t
  | writeShape shape => Instance.set_config (Config.set_shape shape c) t
  | writeUniformShape shape =>
      Instance.set_uniforms
        (ShaderUniforms.set_glassShape (getShapeIndex shape) u) t
  | writeSize size =>
      Instance.set_config
        (Config.set_size (Math_max 0.01 (Math_min 1 size)) c) t
  | writeUniformSize =>
      Instance.set_uniforms
        (ShaderUniforms.set_glassSize (Config.size c) u) t
  | writeRefractionIndex index =>
      Instance.set_config
        (Config.set_refractionIndex
           (Double.Math_max 1 (Double.Math_min 3 index)) c) t
  | writeUniformRefractionIndex =>
      Instance.set_uniforms
        (ShaderUniforms.set_refractionIndex (Config.refractionIndex c) u) t
  | writeDispersion dispersion =>
      Instance.set_config
        (Config.set_dispersion
           (Double.Math_max 0 (Double.Math_min 0.2 dispersion)) c) t
  | writeUniformDispersion =>
      Instance.set_uniforms
        (ShaderUniforms.set_dispersion (Config.dispersion c) u) t
  | writeThickness thickness =>
      Instance.set_config
        (Config.set_thickness (Math_max 0.1 (Math_min 2 thickness)) c) t
  | writeUniformThickness =>
      Instance.set_uniforms
        (ShaderUniforms.set_thickness (Config.thickness c) u) t
  | writePattern pattern =>
      Instance.set_config (Config.set_backgroundPattern pattern c) t
  | writeUniformPattern pattern =>
      Instance.set_uniforms
        (ShaderUniforms.set_backgroundPattern (getPatternIndex pattern) u) t
  | writeBackgroundTexture source =>
      Instance.set_config (Config.set_backgroundTexture source c) t
  | writeMouseEnabled enabled =>
      let m := Config.mouse c in
      Instance.set_config
        (Config.set_mouse
           (MouseConfig.mk enabled (MouseConfig.followCursor m)
              (MouseConfig.centerX m) (MouseConfig.centerY m)) c) t
  | writeAnimationEnabled enabled =>
      Instance.set_config
        (Config.set_animation
           (AnimationConfig.set_enabled enabled (Config.animation c)) c) t
  | writeSpeed speed =>
      Instance.set_config
        (Config.set_animation
           (AnimationConfig.set_speed (Math_max 0 (Math_min 5 speed))
              (Config.animation c)) c) t
  | writeIsDestroyed => Instance.set_isDestroyed true t
  end.

(** A write stores a number, unless it is one of the two that can be given
    [NaN]. *)
Definition numeric (wr : Write) : bool :=
  match wr with
  | writeRefractionIndex NaN | writeDispersion NaN => false
  | _ => true
  end.

(** Every event but a [setMaterial] with a name that the table of presets
    only inherits. *)
Definition ordinary (e : Event) : bool :=
  match e with
  | hostCalls (callSetMaterial (named name)) =>
      match lookup name GLASS_MATERIALS with
      | Some (MaterialValue.prototypeMember _) => false
      | _ => true
      end
  | _ => true
  end.

(** A write is calm when it touches neither the accumulator, nor the frame
    request, nor the enabled flag. *)
Definition calm (wr : Write) : bool :=
  match wr with
  | writeTime | writeAnimationId _ | writeAnimationEnabled _ => false
  | _ => true
  end.

(** Every call of the public API except the three that drive the animation
    and [destroy], which stops it. *)
Definition calmCall (c : Call) : bool :=
  match c with
  | callStartAnimation | callStopAnimation | callDestroy => false
  | _ => true
  end.

(** *** Outcomes *)

(** [returns c]: the computation never throws. *)
Definition returns {S A : Type} (c : M Error S A) : Prop :=
  forall s, exists a, fst (c s) = Normal a.

(** [raises ok c]: whatever [c] throws satisfies [ok]. *)
Definition raises {S A : Type} (ok : Error -> Prop) (c : M Error S A) : Prop :=
  forall s e, fst (c s) = Throw e -> ok e.

(** A Hoare triple with one postcondition for a normal completion and one
    for a throw. *)
Definition hoare {A : Type} (Pre : World -> Prop) (c : js A)
  (Post : A -> World -> Prop) (Exc : Error -> World -> Prop) : Prop :=
  forall w, Pre w ->
    match c w with
    | (Normal a, w') => Post a w'
    | (Throw e, w') => Exc e w'
    end.

(** *** The pointer *)

Definition followsCursor (t : Instance.t) : bool :=
  MouseConfig.followCursor (Config.mouse (Instance.config t)).

Definition centreOf (t : Instance.t) : number * number :=
  (MouseConfig.centerX (Config.mouse (Instance.config t)),
   MouseConfig.centerY (Config.mouse (Instance.config t))).

(** *** Materials *)

(** What [setMaterial] leaves of a material: its index and dispersion,
    clamped, in the configuration and in the uniforms, and one invocation
    of [onMaterialChange] with the material as it was given. *)
Definition applied (mat : GlassMaterial.t) (w w' : World) : Prop :=
  let index := Math_max 1 (Math_min 3 (GlassMaterial.refractionIndex mat)) in
  let dispersion := Math_max 0 (Math_min 0.2 (GlassMaterial.dispersion mat)) in
  Config.refractionIndex (Instance.config (this w')) = index
  /\ ShaderUniforms.refractionIndex (Instance.uniforms (this w')) = index
  /\ Config.dispersion (Instance.config (this w')) = dispersion
  /\ ShaderUniforms.dispersion (Instance.uniforms (this w')) = dispersion
  /\ callbacks (browser w')
     = (callbacks (browser w) ++ [onMaterialChange mat])%list.

(** What [setMaterial] leaves of a member of [Object.prototype]: [NaN] for
    index and dispersion, in the configuration and in the uniforms, and one
    invocation of [onMaterialChange] with the member. *)
Definition poisoned (member : string) (w w' : World) : Prop :=
  Config.refractionIndex (Instance.config (this w')) = NaN
  /\ ShaderUniforms.refractionIndex (Instance.uniforms (this w')) = NaN
  /\ Config.dispersion (Instance.config (this w')) = NaN
  /\ ShaderUniforms.dispersion (Instance.uniforms (this w')) = NaN
  /\ callbacks (browser w')
     = (callbacks (browser w)
        ++ [onMaterialChange (MaterialValue.prototypeMember member)])%list.

(** *** Frames *)

(** [single]: at most one frame request is pending, the one recorded in
    [animationId]. *)
Definition single (w : World) : Prop :=
  idle w
  \/ exists id, frames (browser w) = [id]
                /\ Instance.animationId (this w) = Some id.

(** The calls of the public API that set a parameter of the glass. *)
Definition setter (c : Call) : bool :=
  match c with
  | callSetShape _ | callSetSize _ | callSetRefractionIndex _
  | callSetDispersion _ | callSetThickness _ | callSetBackgroundPattern _
  | callSetMaterial _ | callSetMousePosition _ _
  | callEnableMouseTracking _ | callSetAnimationSpeed _ => true
  | _ => false
  end.

(** What one frame sends to the rendering context. *)
Definition frameCalls (u : ShaderUniforms.t) (texture : option Handle)
  : list GL.Command :=
  [ GL.clear;
    GL.uniform1f "u_time" (ShaderUniforms.time u);
    GL.uniform2f "u_resolution" (ShaderUniforms.resolution u);
    GL.uniform2f "u_mousePos" (ShaderUniforms.mousePos u);
    GL.uniform1f "u_refractionIndex" (ShaderUniforms.refractionIndex u);
    GL.uniform1f "u_dispersion" (ShaderUniforms.dispersion u);
    GL.uniform1f "u_thickness" (ShaderUniforms.thickness u);
    GL.uniform1f "u_glassSize" (ShaderUniforms.glassSize u);
    GL.uniform1f "u_glassShape" (ShaderUniforms.glassShape u);
    GL.uniform1f "u_backgroundPattern" (ShaderUniforms.backgroundPattern u) ]
  ++ match texture with
     | Some tex =>
         [ GL.activeTexture; GL.bindTexture tex;
           GL.uniform1i "u_backgroundTexture" 0 ]
     | None => []
     end
  ++ [ GL.drawArrays ].

(** *** The rendering context *)

(** [unchanged proj c]: the browser call leaves the part [proj] of the
    browser as it was, whether it returns or throws. *)
Definition unchanged {X A : Type} (proj : Browser.t -> X) (c : B A) : Prop :=
  forall b, proj (snd (c b)) = proj b.

Definition draws (c : GL.Command) : bool :=
  match c with
  | GL.drawArrays => true
  | _ => false
  end.

(** The draw calls made so far. *)
Definition drawn (b : Browser.t) : list GL.Command := filter draws (glLog b).

(** What an instance shows of itself: the frames it has drawn and the
    number of frame requests it has made. *)
Definition shown (b : Browser.t) : list GL.Command * positive :=
  (drawn b, nextFrame b).

(** A destroyed instance that has drawn [d] and made [n] frame requests. *)
Definition inert (d : list GL.Command) (n : positive) (w : World) : Prop :=
  Instance.isDestroyed (this w) = true
  /\ drawn (browser w) = d /\ nextFrame (browser w) = n.

(** The GPU objects a log of calls has created and not deleted, oldest
    first. *)
Definition account (live : list Handle) (c : GL.Command) : list Handle :=
  match c with
  | GL.createShader _ (Some h) | GL.createProgram (Some h)
  | GL.createBuffer (Some h) | GL.createTexture (Some h) => live ++ [h]
  | GL.deleteShader h | GL.deleteProgram h
  | GL.deleteBuffer h | GL.deleteTexture h => remove Nat.eq_dec h live
  | _ => live
  end.

Definition allocated (b : Browser.t) : list Handle :=
  fold_left account (glLog b) [].

(** Every live object has a handle below the next one to be given out. *)
Definition wellNumbered (b : Browser.t) : Prop :=
  forall h, In h (allocated b) -> (h < nextHandle b)%nat.

(** *** Initialisation *)

(** What a failed [init] leaves as it was. *)
Definition untouched (w w' : World) : Prop :=
  Instance.webglState (this w') = Instance.webglState (this w)
  /\ listeners (browser w') = listeners (browser w)
  /\ frames (browser w') = frames (browser w)
  /\ canvasWidth (browser w') = canvasWidth (browser w)
  /\ canvasHeight (browser w') = canvasHeight (browser w).

(** The errors [init] can reject with. *)
Definition initError (e : Error) : Prop :=
  match e with
  | PhysicsGlassError _ WEBGL_NOT_SUPPORTED
  | PhysicsGlassError _ SHADER_COMPILATION_FAILED
  | PhysicsGlassError _ TEXTURE_LOAD_FAILED => True
  | _ => False
  end.

(** What [init] does not touch before it reports. *)
Definition quiet (b : Browser.t)
  : list Callback * list Listener * list positive * number * number :=
  (callbacks b, listeners b, frames b, canvasWidth b, canvasHeight b).

(** [init] has reported nothing and changed nothing yet. *)
Definition unready (w0 w : World) : Prop :=
  callbacks (browser w) = callbacks (browser w0) /\ untouched w0 w.

(** [init] has reported nothing yet, and the WebGL state is stored. *)
Definition readied (w0 w : World) : Prop :=
  callbacks (browser w) = callbacks (browser w0)
  /\ Instance.webglState (this w) <> None.

(** *** Texture changes that succeed *)

(** The new texture, the next handle of [w], is the bound one, the source
    is stored, the old texture is released, and nothing else of the
    instance changes. *)
Definition swapped (source : TextureSource) (w w' : World) : Prop :=
  let new := nextHandle (browser w) in
  exists state,
    Instance.webglState (this w) = Some state
    /\ this w'
       = Instance.set_config
           (Config.set_backgroundTexture source (Instance.config (this w)))
           (Instance.set_webglState
              (Some (WebGLState.set_backgroundTexture (Some new) state))
              (this w))
    /\ callbacks (browser w') = callbacks (browser w)
    /\ allocated (browser w')
       = match WebGLState.backgroundTexture state with
         | Some old => remove Nat.eq_dec old (allocated (browser w) ++ [new])
         | None => (allocated (browser w) ++ [new])%list
         end.

(** *** From [init] to [destroy] *)

(** The live objects once [h], if there is one, is deleted. *)
Definition release (h : option Handle) (live : list Handle) : list Handle :=
  match h with
  | Some h => remove Nat.eq_dec h live
  | None => live
  end.

(** An instance without WebGL state, in a browser whose live objects are
    [live] and whose next handle, above them all, is [h]. *)
Definition bare (live : list Handle) (h : Handle) (w : World) : Prop :=
  allocated (browser w) = live /\ nextHandle (browser w) = h
  /\ (forall x, In x live -> (x < h)%nat)
  /\ Instance.webglState (this w) = None.

(** The objects of [setupWebGL] from handle [h] on: two shaders, the
    program, the vertex buffer and the background texture. *)
Definition equipment (h : Handle) : list Handle :=
  [h; S h; S (S h); S (S (S h)); S (S (S (S h)))].

(** An instance that holds the program, the buffer and the texture of
    [equipment h], all five objects being allocated next to [live]. *)
Definition equipped (live : list Handle) (h : Handle) (w : World) : Prop :=
  allocated (browser w) = (live ++ equipment h)%list
  /\ (forall x, In x live -> (x < h)%nat)
  /\ (exists locations,
        Instance.webglState (this w)
        = Some (WebGLState.mk (S (S h)) locations (Some (S (S (S (S h)))))))
  /\ Instance.vertexBuffer (this w) = Some (S (S (S h))).

(** An instance without WebGL state, some objects having been created. *)
Definition aborted (live : list Handle) (w : World) : Prop :=
  (exists created, allocated (browser w) = (live ++ created)%list)
  /\ Instance.webglState (this w) = None.

End Laws.

(** ** Concrete inputs *)

Module Fixtures.

Import GLSL JS Types Browser PhysicsGlass.
Local Open Scope Q_scope.
Local Open Scope string_scope.

(** A texture that is black everywhere. *)
Definition blackTexture (coord : vec2) : vec4 := Vec4 0 0 0 0.

(** Uniforms of a cylinder of thickness 1 centred on the canvas. *)
Definition cylinderUniforms : ShaderUniforms.t :=
  ShaderUniforms.mk 0 (800, 600) (0.5, 0.5) 1.5 0.03 1 0.2
    (getShapeIndex cylinder) (getPatternIndex stripes).

Definition cylinderFrame : Fragment.Uniforms :=
  Frame.finite cylinderUniforms 1.5 0.03 blackTexture.

(** Uniforms of a lens of size 0.2 centred on the canvas, with refraction
    index 1 and no dispersion, and a pixel at distance 0.21 of its centre. *)
Definition lensUniforms : ShaderUniforms.t :=
  ShaderUniforms.mk 0 (800, 600) (0.5, 0.5) 1 0 0.3 0.2
    (getShapeIndex lens) (getPatternIndex stripes).

Definition lensFrame : Fragment.Uniforms :=
  Frame.finite lensUniforms 1 0 blackTexture.

Definition lensPixel : vec2 := Vec2 0.71%R 0.5%R.

(** Uniforms of the default sphere with size 0.2, and the corner pixel. *)
Definition sphereUniforms : ShaderUniforms.t :=
  ShaderUniforms.mk 0 (800, 600) (0.5, 0.5) 1.5 0.03 0.3 0.2
    (getShapeIndex sphere) (getPatternIndex stripes).

Definition sphereFrame : Fragment.Uniforms :=
  Frame.finite sphereUniforms 1.5 0.03 blackTexture.

Definition cornerPixel : vec2 := Vec2 0%R 0%R.

(** The pixel at the centre of the canvas, where the default glass sits. *)
Definition centrePixel : vec2 := Vec2 0.5%R 0.5%R.

(** A surface normal facing the viewer. *)
Definition facingNormal : vec3 := Vec3 0%R 0%R 1%R.

(** A browser in which everything succeeds, with a 300 x 150 canvas shown
    at 800 x 600 CSS pixels on a display of pixel ratio 2. *)
Definition friendlyHost : Host :=
  {| supportsWebGL := true; providesContext := true;
     createsShader := true; createsProgram := true;
     createsBuffer := true; createsTexture := true;
     compiles := fun _ => true; links := true;
     shaderInfoLog := ""; programInfoLog := "";
     loads := fun _ => true; matches := fun _ => true;
     devicePixelRatio := 2;
     rectLeft := 0; rectTop := 0; rectWidth := 800; rectHeight := 600 |}.

Definition freshBrowser : Browser.t :=
  Browser.mk friendlyHost [] 0%nat [] 1%positive [] [] 300 150.

(** The same browser when image loading and texture creation fail. *)
Definition failingHost : Host :=
  {| supportsWebGL := true; providesContext := true;
     createsShader := true; createsProgram := true;
     createsBuffer := true; createsTexture := false;
     compiles := fun _ => true; links := true;
     shaderInfoLog := ""; programInfoLog := "";
     loads := fun _ => false; matches := fun _ => true;
     devicePixelRatio := 2;
     rectLeft := 0; rectTop := 0; rectWidth := 800; rectHeight := 600 |}.

(** A configuration that only sets the animation, with a negative speed. *)
Definition rewindConfig : PhysicsGlassConfig.t :=
  PhysicsGlassConfig.mk None None None None None None None None
    (Some (AnimationConfig.mk true (-1) true)) None.

(** A configuration with a size above the declared range. *)
Definition oversizeConfig : PhysicsGlassConfig.t :=
  PhysicsGlassConfig.mk None (Some 2) None None None None None None None None.

(** A configuration with dispersion and thickness outside their ranges. *)
Definition wildConfig : PhysicsGlassConfig.t :=
  PhysicsGlassConfig.mk None None None (Some 5) (Some (-3)) None None None
    None None.

(** The world of [new PhysicsGlass(canvas)] after [init], or [w] itself when
    the constructor throws. *)
Definition ready (config : PhysicsGlassConfig.t) (b : Browser.t)
  (otherwise : World) : World :=
  match new (element 0%nat) config b with
  | Normal w => step w initRuns
  | Throw _ => otherwise
  end.

Definition blankWorld : World :=
  mkWorld
    (Instance.mk 0%nat (DEFAULT_CONFIG friendlyHost) None None false 0
       (0.5, 0.5) (ShaderUniforms.mk 0 (0, 0) (0, 0) 0 0 0 0 0 0) false None)
    freshBrowser.

Definition readyWorld : World :=
  ready PhysicsGlassConfig.empty freshBrowser blankWorld.

(** The ready instance, in a browser that has stopped loading images and
    creating textures. *)
Definition starvedWorld : World :=
  let b := browser readyWorld in
  mkWorld (this readyWorld)
    (Browser.mk failingHost (glLog b) (nextHandle b) (frames b) (nextFrame b)
       (listeners b) (callbacks b) (canvasWidth b) (canvasHeight b)).

End Fixtures.

(* ================================================================= *)
(** * Part II: properties *)
(* ================================================================= *)

(** ** The fragment shader *)

Module FragmentSpec.

Import GLSL Fragment Fixtures.
Local Open Scope R_scope.

(** *** Lengths and the partial built-ins *)

Lemma dot2_self_nonneg (v : vec2) : 0 <= dot2 v v.
Proof. unfold dot2. nra. Qed.

Lemma dot3_self_nonneg (v : vec3) : 0 <= dot3 v v.
Proof. unfold dot3. nra. Qed.

Lemma length2_sqr (v : vec2) : length2 v * length2 v = dot2 v v.
Proof. unfold length2. apply sqrt_sqrt, dot2_self_nonneg. Qed.

Lemma length2_nonneg (v : vec2) : 0 <= length2 v.
Proof. unfold length2. apply sqrt_pos. Qed.

Lemma glsl_sqrt_defined (a : R) : 0 <= a -> glsl_sqrt a = Some (sqrt a).
Proof.
  intros Ha. unfold glsl_sqrt. destruct (Rlt_dec a 0); [lra | reflexivity].
Qed.

(** C4: when [eta^2 * (1 - cosI^2) >= 1] the result of [refract3D] is the
    mirror reflection; otherwise the argument of the square root is
    positive and the result is [eta * incident + (eta * cosI - cosT) *
    normal]; in no case is the result undefined. *)
Theorem refract3D_snell (incident normal : vec3) (eta : R) :
  let cosI := dot3 (neg3 incident) normal in
  let sinT2 := eta * eta * (1 - cosI * cosI) in
  (sinT2 >= 1 -> refract3D incident normal eta = Some (reflect incident normal))
  /\ (sinT2 < 1 ->
      0 < 1 - sinT2
      /\ refract3D incident normal eta =
         Some (add3 (scale3 eta incident)
                 (scale3 (eta * cosI - sqrt (1 - sinT2)) normal)))
  /\ refract3D incident normal eta <> None.
Proof.
  intros cosI sinT2.
  assert (Htir : sinT2 >= 1 ->
            refract3D incident normal eta = Some (reflect incident normal)).
  { intros H. unfold refract3D. fold cosI. fold sinT2.
    destruct (Rge_dec sinT2 1); [reflexivity | contradiction]. }
  assert (Hsnell : sinT2 < 1 ->
            refract3D incident normal eta =
            Some (add3 (scale3 eta incident)
                    (scale3 (eta * cosI - sqrt (1 - sinT2)) normal))).
  { intros H. unfold refract3D. fold cosI. fold sinT2.
    destruct (Rge_dec sinT2 1); [lra |].
    rewrite glsl_sqrt_defined by lra. reflexivity. }
  split; [exact Htir |]. split.
  - intros H. split; [lra | auto].
  - destruct (Rlt_le_dec sinT2 1) as [H | H].
    + rewrite Hsnell by exact H. discriminate.
    + rewrite Htir by lra. discriminate.
Qed.


(** The shape selector the shader receives for each shape. *)
Lemma float_getShapeIndex (shape : Types.GlassShape) :
  Frame.float (PhysicsGlass.getShapeIndex shape) =
  match shape with
  | Types.sphere => 0
  | Types.cylinder => 1
  | Types.lens => 2
  | Types.prism => 3
  | Types.flat => 4
  end.
Proof. destruct shape; unfold Frame.float, Q2R; simpl; lra. Qed.

Lemma distortionScale_by_shape (u : Uniforms) (uv : vec2)
  (shape : Types.GlassShape) :
  u_glassShape u = Frame.float (PhysicsGlass.getShapeIndex shape) ->
  let d := length2 (sub2 uv (u_mousePos u)) in
  distortionScale u uv =
  match shape with
  | Types.prism | Types.flat => u_thickness u * 0.3
  | _ => u_thickness u * 0.3 * (1 + d * d * 2)
  end.
Proof.
  intros Hshape d. rewrite float_getShapeIndex in Hshape.
  unfold distortionScale. fold d.
  destruct shape; destruct (Rlt_dec (u_glassShape u) 2.5); try lra;
    reflexivity.
Qed.

(** C1 (the code departs from it): the distortion scale is
    [thickness * 0.3], times the curvature factor for sphere and lens only.
    For a cylinder of thickness 1 and a pixel at distance 0.5 of the centre
    the claim gives 0.3; the shader, whose test [u_glassShape < 2.5] also
    lets the cylinder (index 1) through, gives 0.3 * (1 + 0.5 * 0.5 * 2). *)
Theorem distortionScale_cylinder_curved :
  u_glassShape cylinderFrame
  = Frame.float (PhysicsGlass.getShapeIndex Types.cylinder)
  /\ u_thickness cylinderFrame * 0.3 = 0.3
  /\ length2 (sub2 (Vec2 1 0.5) (u_mousePos cylinderFrame)) = 0.5
  /\ distortionScale cylinderFrame (Vec2 1 0.5) = 0.45.
Proof.
  assert (Hshape : u_glassShape cylinderFrame =
                   Frame.float (PhysicsGlass.getShapeIndex Types.cylinder))
    by reflexivity.
  assert (Hthick : u_thickness cylinderFrame = 1)
    by (cbn; unfold Frame.float, Q2R; cbn; lra).
  assert (Hsq : dot2 (sub2 (Vec2 1 0.5) (u_mousePos cylinderFrame))
                  (sub2 (Vec2 1 0.5) (u_mousePos cylinderFrame)) = 0.25)
    by (unfold dot2, sub2; cbn; unfold Frame.float, Q2R; cbn; lra).
  split; [exact Hshape |]. split; [lra |]. split.
  - unfold length2. apply sqrt_lem_1; lra.
  - rewrite (distortionScale_by_shape cylinderFrame (Vec2 1 0.5)
               Types.cylinder Hshape).
    rewrite length2_sqr, Hthick, Hsq. lra.
Qed.

Lemma glsl_div_defined (a b : R) : b <> 0 -> glsl_div a b = Some (a / b).
Proof.
  intros Hb. unfold glsl_div. destruct (Req_dec_T b 0); [contradiction | reflexivity].
Qed.

Lemma refract3D_defined (incident normal : vec3) (eta : R) :
  exists v, refract3D incident normal eta = Some v.
Proof.
  unfold refract3D. cbv zeta.
  match goal with
  | |- context [Rge_dec ?s 1] => destruct (Rge_dec s 1) as [H | H]
  end.
  - eexists. reflexivity.
  - rewrite glsl_sqrt_defined by lra. eexists. reflexivity.
Qed.

Lemma refraction_defined (u : Uniforms) (uv : vec2) (normal : vec3) :
  u_refractionIndex u - u_dispersion u <> 0 ->
  u_refractionIndex u <> 0 ->
  u_refractionIndex u + u_dispersion u <> 0 ->
  exists r, refraction u uv normal = Some r.
Proof.
  intros Hr Hg Hb. unfold refraction, redEta, greenEta, blueEta.
  rewrite !glsl_div_defined by assumption. cbn [bind].
  destruct (refract3D_defined (neg3 (Vec3 0 0 1)) normal
              (1 / (u_refractionIndex u - u_dispersion u))) as [vr ->].
  destruct (refract3D_defined (neg3 (Vec3 0 0 1)) normal
              (1 / u_refractionIndex u)) as [vg ->].
  destruct (refract3D_defined (neg3 (Vec3 0 0 1)) normal
              (1 / (u_refractionIndex u + u_dispersion u))) as [vb ->].
  cbn [bind]. eexists. reflexivity.
Qed.

(** C5: with dispersion 0 the three per-channel ratios coincide, hence the
    three offsets, the three sample coordinates and the three samples do,
    and the recombined colour is the one background sample at that
    coordinate; the refraction is defined whenever the index is not 0. *)
Theorem dispersion_zero_no_fringing (u : Uniforms) (uv : vec2) (normal : vec3) :
  u_dispersion u = 0 ->
  redEta u = greenEta u
  /\ blueEta u = greenEta u
  /\ (forall r, refraction u uv normal = Some r ->
        offsetR r = offsetG r /\ offsetB r = offsetG r
        /\ add2 uv (offsetR r) = add2 uv (offsetG r)
        /\ add2 uv (offsetB r) = add2 uv (offsetG r)
        /\ bgColorR r = bgColorG r /\ bgColorB r = bgColorG r
        /\ refractedColor r =
           getBackgroundPattern u (add2 uv (offsetG r)) (u_backgroundPattern u))
  /\ (u_refractionIndex u <> 0 -> exists r, refraction u uv normal = Some r).
Proof.
  intros Hd.
  assert (Hred : redEta u = greenEta u)
    by (unfold redEta, greenEta; rewrite Hd, Rminus_0_r; reflexivity).
  assert (Hblue : blueEta u = greenEta u)
    by (unfold blueEta, greenEta; rewrite Hd, Rplus_0_r; reflexivity).
  split; [exact Hred |]. split; [exact Hblue |]. split.
  - intros r. unfold refraction. rewrite Hred, Hblue.
    destruct (greenEta u) as [eta |]; cbn [bind]; [| discriminate].
    destruct (refract3D (neg3 (Vec3 0 0 1)) normal eta) as [v |];
      cbn [bind]; [| discriminate].
    intros E. injection E as <-. cbn.
    repeat split; try reflexivity.
    destruct (getBackgroundPattern u _ _); reflexivity.
  - intros Hn. apply refraction_defined; rewrite ?Hd; lra.
Qed.


(** A pixel farther from the centre than [reach] makes the discriminant of
    the ray-sphere equation negative. *)
Lemma intersectSphere_miss (uv mouseUV : vec2) (radius : R) :
  0 <= radius ->
  length2 (sub2 uv mouseUV) > radius ->
  intersectSphere (Vec3 (x2 uv) (y2 uv) 2) (Vec3 0 0 (-1))
    (Vec3 (x2 mouseUV) (y2 mouseUV) 0) radius = Some (splat2 (-1)).
Proof.
  intros Hr Hd. unfold intersectSphere.
  pose proof (length2_sqr (sub2 uv mouseUV)) as Hsq.
  set (d := length2 (sub2 uv mouseUV)) in *.
  unfold dot2, sub2 in Hsq; cbn [x2 y2] in Hsq.
  match goal with |- context [Rlt_dec ?a 0] => destruct (Rlt_dec a 0) as [H | H] end.
  - reflexivity.
  - exfalso. apply H. unfold dot3, sub3; cbn.
    assert (radius * radius < d * d) by nra. nra.
Qed.

(** C2, as amended: for flat, prism and sphere, and a size that is not
    negative, a pixel farther from the centre than the size is a miss of the
    intersector and is written as transparent black; for the lens, whose
    sphere has 1.5 times the size as radius, the same holds beyond 1.5 times
    the size. *)
Theorem miss_outside_reach (u : Uniforms) (uv : vec2)
  (shape : Types.GlassShape) :
  u_glassShape u = Frame.float (PhysicsGlass.getShapeIndex shape) ->
  shape <> Types.cylinder ->
  0 <= u_glassSize u ->
  length2 (sub2 uv (u_mousePos u)) >
    match shape with
    | Types.lens => u_glassSize u * 1.5
    | _ => u_glassSize u
    end ->
  traceGlassShape u uv (u_mousePos u) (u_glassShape u) (u_glassSize u)
    = Some (splat4 0)
  /\ main u uv = Some (Vec4 0 0 0 0).
Proof.
  intros Hshape Hcyl Hsize Hfar. rewrite float_getShapeIndex in Hshape.
  assert (Htrace :
            traceGlassShape u uv (u_mousePos u) (u_glassShape u)
              (u_glassSize u) = Some (splat4 0)).
  { unfold traceGlassShape. cbv zeta. rewrite Hshape.
    destruct shape; try congruence.
    - (* sphere *)
      destruct (Rlt_dec 0 0.5); [| lra].
      rewrite intersectSphere_miss by assumption. cbn.
      destruct (Rlt_dec (-1) 0); [reflexivity | lra].
    - (* lens *)
      destruct (Rlt_dec 2 0.5); [lra |].
      destruct (Rlt_dec 2 1.5); [lra |].
      destruct (Rlt_dec 2 2.5); [| lra].
      rewrite intersectSphere_miss by (lra || exact Hfar). cbn.
      destruct (Rlt_dec (-1) 0); [reflexivity | lra].
    - (* prism *)
      destruct (Rlt_dec 3 0.5); [lra |].
      destruct (Rlt_dec 3 1.5); [lra |].
      destruct (Rlt_dec 3 2.5); [lra |].
      destruct (Rlt_dec 3 3.5); [| lra].
      destruct (Rgt_dec _ (u_glassSize u)); [reflexivity | contradiction].
    - (* flat *)
      destruct (Rlt_dec 4 0.5); [lra |].
      destruct (Rlt_dec 4 1.5); [lra |].
      destruct (Rlt_dec 4 2.5); [lra |].
      destruct (Rlt_dec 4 3.5); [lra |].
      destruct (Rgt_dec _ (u_glassSize u)); [reflexivity | contradiction]. }
  split; [exact Htrace |].
  unfold main. rewrite Htrace. cbn.
  destruct (Rlt_dec 0 0.5); [reflexivity | lra].
Qed.


Lemma length3_pos_z (v : vec3) : 0 < z3 v -> z3 v <= length3 v.
Proof.
  intros Hz. unfold length3.
  rewrite <- (sqrt_square (z3 v)) at 1 by lra.
  apply sqrt_le_1_alt. unfold dot3. nra.
Qed.

(** A vector that points towards the viewer keeps doing so once normalised. *)
Lemma normalize_pos_z (v : vec3) :
  0 < z3 v -> exists n, normalize v = Some n /\ 0 < z3 n <= 1.
Proof.
  intros Hz. pose proof (length3_pos_z v Hz) as Hlen.
  unfold normalize. rewrite !glsl_div_defined by lra. cbn [bind].
  eexists. split; [reflexivity |]. cbn [z3]. split.
  - apply Rdiv_lt_0_compat; lra.
  - replace 1 with (length3 v / length3 v) by (field; lra).
    unfold Rdiv. apply Rmult_le_compat_r; [| lra].
    left. apply Rinv_0_lt_compat. lra.
Qed.

Lemma normalize_neg_z (v : vec3) :
  z3 v < 0 -> exists n, normalize v = Some n /\ z3 n < 0.
Proof.
  intros Hz.
  assert (Hlen : 0 < length3 v).
  { unfold length3. apply sqrt_lt_R0. unfold dot3. nra. }
  unfold normalize. rewrite !glsl_div_defined by lra. cbn [bind].
  eexists. split; [reflexivity |]. cbn [z3].
  assert (Hinv : 0 < / length3 v) by (apply Rinv_0_lt_compat; lra).
  unfold Rdiv. nra.
Qed.

Lemma glsl_pow_defined (a b : R) :
  0 <= a -> 0 < b -> exists p, glsl_pow a b = Some p.
Proof.
  intros Ha Hb. unfold glsl_pow.
  destruct (Rlt_dec a 0); [lra |].
  destruct (Req_dec_T a 0).
  - destruct (Rlt_dec 0 b); [| lra]. eexists; reflexivity.
  - eexists; reflexivity.
Qed.

Lemma intersectSphere_hit (uv mouseUV : vec2) (radius : R) :
  length2 (sub2 uv mouseUV) < radius ->
  exists s, 0 < s <= radius
    /\ intersectSphere (Vec3 (x2 uv) (y2 uv) 2) (Vec3 0 0 (-1))
         (Vec3 (x2 mouseUV) (y2 mouseUV) 0) radius
       = Some (Vec2 (2 - s) (2 + s)).
Proof.
  intros Hd.
  pose proof (length2_sqr (sub2 uv mouseUV)) as Hsq.
  pose proof (length2_nonneg (sub2 uv mouseUV)) as Hpos.
  set (d := length2 (sub2 uv mouseUV)) in *.
  unfold dot2, sub2 in Hsq; cbn [x2 y2] in Hsq.
  unfold intersectSphere. cbv zeta.
  set (b := dot3 _ (Vec3 0 0 (-1))).
  set (disc := b * b - _).
  assert (Hb : b = -2) by (unfold b, dot3, sub3; cbn; lra).
  assert (Hdisc : disc = radius * radius - d * d)
    by (unfold disc; rewrite Hb; unfold dot3, sub3; cbn; lra).
  assert (Hdpos : 0 < disc) by (rewrite Hdisc; nra).
  destruct (Rlt_dec disc 0); [lra |].
  rewrite glsl_sqrt_defined by lra. cbn [bind].
  exists (sqrt disc). split.
  - split; [apply sqrt_lt_R0; lra |].
    rewrite <- (sqrt_square radius) by lra.
    apply sqrt_le_1_alt. rewrite Hdisc. nra.
  - unfold ret. f_equal. rewrite Hb. f_equal; lra.
Qed.

(** The lens is hit up to its own radius, 1.5 times the configured size. *)
Lemma lens_hit_inside_reach (u : Uniforms) (uv : vec2) :
  0 < u_glassSize u <= 1 ->
  length2 (sub2 uv (u_mousePos u)) < u_glassSize u * 1.5 ->
  exists n,
    traceGlassShape u uv (u_mousePos u) 2 (u_glassSize u)
      = Some (Vec4 (x3 n) (y3 n) (z3 n) 1)
    /\ 0 < z3 n <= 1.
Proof.
  intros Hsize Hnear.
  destruct (intersectSphere_hit uv (u_mousePos u) _ Hnear)
    as (s & Hs & Hhit).
  unfold traceGlassShape. cbv zeta.
  destruct (Rlt_dec 2 0.5); [lra |].
  destruct (Rlt_dec 2 1.5); [lra |].
  destruct (Rlt_dec 2 2.5); [| lra].
  rewrite Hhit. cbn [bind x2 y2].
  destruct (Rlt_dec (2 - s) 0); [lra |].
  unfold getSphereNormal.
  destruct (normalize_pos_z
              (sub3 (add3 (Vec3 (x2 uv) (y2 uv) 2)
                          (scale3 (2 - s) (Vec3 0 0 (-1))))
                    (Vec3 (x2 (u_mousePos u)) (y2 (u_mousePos u)) 0)))
    as (e1 & -> & He1); [cbn; lra |].
  cbn [bind].
  set (out := sub3 (add3 _ (scale3 (2 + s) _)) _).
  assert (Hout : z3 out < 0) by (unfold out; cbn; lra).
  destruct (normalize_neg_z out Hout) as (e2 & -> & He2).
  cbn [bind].
  destruct (normalize_pos_z (Vec3 (x3 e1) (y3 e1) (z3 e1 * 0.3)))
    as (f1 & -> & Hf1); [cbn; lra |].
  cbn [bind].
  destruct (normalize_pos_z
              (Vec3 (x3 (neg3 e2)) (y3 (neg3 e2)) (z3 (neg3 e2) * 0.3)))
    as (f2 & -> & Hf2); [cbn; lra |].
  cbn [bind].
  match goal with
  | |- context [normalize (add3 f1 ?p)] =>
      destruct (normalize_pos_z (add3 f1 p)) as (p1 & -> & Hp1);
        [cbn; lra |];
      destruct (normalize_pos_z (add3 f2 p)) as (p2 & -> & Hp2);
        [cbn; lra |]
  end.
  cbn [bind]. exists p1. split; [reflexivity | exact Hp1].
Qed.


Lemma fresnel_defined (cosTheta : R) :
  0 <= cosTheta <= 1 -> exists f, fresnel cosTheta 1 1 = Some f.
Proof.
  intros Hc. unfold fresnel.
  rewrite glsl_div_defined by lra. cbn [bind].
  destruct (glsl_pow_defined ((1 - 1) / (1 + 1)) 2) as [r0 ->]; [lra | lra |].
  cbn [bind].
  destruct (glsl_pow_defined (1 - cosTheta) 5) as [p ->]; [lra | lra |].
  cbn [bind]. eexists; reflexivity.
Qed.

Lemma clamp_inside (a lo hi : R) : lo <= a <= hi -> clamp a lo hi = a.
Proof.
  intros H. unfold clamp. rewrite Rmax_left by lra. apply Rmin_left. lra.
Qed.

Lemma clamp_above (a lo hi : R) : lo <= hi <= a -> clamp a lo hi = hi.
Proof.
  intros H. unfold clamp. rewrite Rmax_left by lra. apply Rmin_right. lra.
Qed.

Lemma smoothstep_value (edge0 edge1 a t : R) :
  edge1 - edge0 <> 0 ->
  clamp ((a - edge0) / (edge1 - edge0)) 0 1 = t ->
  smoothstep edge0 edge1 a = Some (t * t * (3 - 2 * t)).
Proof.
  intros He Ht. unfold smoothstep.
  rewrite glsl_div_defined by exact He. cbn [bind]. rewrite Ht. reflexivity.
Qed.

(** C2 as stated fails for the lens: the pixel at distance 0.21 of the
    centre of a lens of size 0.2 is a hit, and is written with alpha
    0.0625. *)
Lemma lens_hit_outside_size :
  u_glassShape lensFrame = Frame.float (PhysicsGlass.getShapeIndex Types.lens)
  /\ length2 (sub2 lensPixel (u_mousePos lensFrame)) > u_glassSize lensFrame
  /\ (exists n,
        traceGlassShape lensFrame lensPixel (u_mousePos lensFrame)
          (u_glassShape lensFrame) (u_glassSize lensFrame)
        = Some (Vec4 (x3 n) (y3 n) (z3 n) 1))
  /\ (exists c, main lensFrame lensPixel = Some c /\ w4 c = 0.0625).
Proof.
  set (u := lensFrame).
  assert (Hshape : u_glassShape u = 2)
    by (unfold u; cbn; apply (float_getShapeIndex Types.lens)).
  assert (Hsize : u_glassSize u = 0.2)
    by (unfold u; cbn; unfold Frame.float, Q2R; cbn; lra).
  assert (Hindex : u_refractionIndex u = 1)
    by (unfold u; cbn; unfold Frame.float, Q2R; cbn; lra).
  assert (Hdisp : u_dispersion u = 0)
    by (unfold u; cbn; unfold Frame.float, Q2R; cbn; lra).
  assert (Hdist : length2 (sub2 lensPixel (u_mousePos u)) = 0.21).
  { unfold length2. apply sqrt_lem_1; [apply dot2_self_nonneg | lra |].
    unfold dot2, sub2, lensPixel, u; cbn.
    unfold Frame.float, Q2R; cbn. lra. }
  destruct (lens_hit_inside_reach u lensPixel) as (n & Htrace & Hn);
    [rewrite Hsize; lra | rewrite Hdist, Hsize; lra |].
  split; [rewrite Hshape; symmetry; apply (float_getShapeIndex Types.lens) |].
  split; [rewrite Hdist, Hsize; lra |].
  split; [exists n; rewrite Hshape; exact Htrace |].
  unfold main. cbv zeta. rewrite Hshape, Htrace.
  unfold xyz4. cbn [bind w4 x4 y4 z4].
  destruct (Rlt_dec 1 0.5); [lra |].
  assert (Hcos : Rabs (dot3 (Vec3 0 0 1) (Vec3 (x3 n) (y3 n) (z3 n))) = z3 n).
  { unfold dot3; cbn. rewrite Rabs_pos_eq; lra. }
  rewrite Hcos, Hindex.
  destruct (fresnel_defined (z3 n)) as [f ->]; [lra |]. cbn [bind].
  destruct (refraction_defined u lensPixel (Vec3 (x3 n) (y3 n) (z3 n)))
    as [r ->]; [rewrite ?Hindex, ?Hdisp; lra ..|].
  cbn [bind].
  destruct (glsl_pow_defined
              (Rmax 0 (dot3 (Vec3 (x3 n) (y3 n) (z3 n)) (Vec3 0.5 0.5 1))) 3)
    as [caustic ->]; [apply Rmax_l | lra |].
  cbn [bind]. rewrite Hdist, Hsize.
  rewrite (smoothstep_value (0.2 + 0.02) (0.2 - 0.02) 0.21 0.25).
  2: lra.
  2: { replace ((0.21 - (0.2 + 0.02)) / (0.2 - 0.02 - (0.2 + 0.02)))
         with 0.25 by lra.
       apply clamp_inside; lra. }
  cbn [bind].
  rewrite (smoothstep_value (0.2 - 0.005) 0.2 0.21 1).
  2: lra.
  2: { replace ((0.21 - (0.2 - 0.005)) / (0.2 - (0.2 - 0.005)))
         with 3 by lra.
       apply clamp_above; lra. }
  cbn [bind]. eexists. split; [reflexivity |]. cbn [w4]. lra.
Qed.

(** The theorem at the default sphere of size 0.2 and the corner pixel, at
    distance [sqrt 0.5] of the centre. *)
Lemma miss_outside_reach_witness :
  traceGlassShape sphereFrame cornerPixel (u_mousePos sphereFrame)
    (u_glassShape sphereFrame) (u_glassSize sphereFrame) = Some (splat4 0)
  /\ main sphereFrame cornerPixel = Some (Vec4 0 0 0 0).
Proof.
  assert (Hsize : u_glassSize sphereFrame = 0.2)
    by (cbn; unfold Frame.float, Q2R; cbn; lra).
  apply (miss_outside_reach sphereFrame cornerPixel Types.sphere).
  - reflexivity.
  - discriminate.
  - rewrite Hsize. lra.
  - rewrite Hsize. cbv beta iota.
    apply Rlt_gt. rewrite <- (sqrt_square 0.2) by lra.
    unfold length2. apply sqrt_lt_1_alt.
    unfold dot2, sub2, cornerPixel; cbn. unfold Frame.float, Q2R; cbn. lra.
Defined.

(** The theorem at the lens without dispersion. *)
Lemma dispersion_zero_no_fringing_witness :
  redEta lensFrame = greenEta lensFrame
  /\ blueEta lensFrame = greenEta lensFrame
  /\ (forall r, refraction lensFrame lensPixel facingNormal = Some r ->
        offsetR r = offsetG r /\ offsetB r = offsetG r
        /\ add2 lensPixel (offsetR r) = add2 lensPixel (offsetG r)
        /\ add2 lensPixel (offsetB r) = add2 lensPixel (offsetG r)
        /\ bgColorR r = bgColorG r /\ bgColorB r = bgColorG r
        /\ refractedColor r =
           getBackgroundPattern lensFrame (add2 lensPixel (offsetG r))
             (u_backgroundPattern lensFrame))
  /\ (u_refractionIndex lensFrame <> 0 ->
      exists r, refraction lensFrame lensPixel facingNormal = Some r).
Proof.
  apply (dispersion_zero_no_fringing lensFrame lensPixel facingNormal).
  cbn. unfold Frame.float, Q2R; cbn. lra.
Defined.

(** *** Noise *)

Lemma fract_range (a : R) : 0 <= fract a < 1.
Proof.
  unfold fract, glsl_floor. destruct (base_Int_part a) as [H1 H2]. lra.
Qed.

Lemma noise_range (p : vec2) : 0 <= noise p < 1.
Proof. unfold noise. apply fract_range. Qed.

Lemma fbm_bounds (p : vec2) : 0 <= fbm p < 0.9375.
Proof.
  unfold fbm. cbn [fbm_loop].
  pose proof (noise_range (scale2 1 p)).
  pose proof (noise_range (scale2 (1 * 2) p)).
  pose proof (noise_range (scale2 (1 * 2 * 2) p)).
  pose proof (noise_range (scale2 (1 * 2 * 2 * 2) p)).
  lra.
Qed.

(** X1: [noise] takes its values in [0, 1), and [fbm], four octaves of it
    with amplitudes 0.5, 0.25, 0.125 and 0.0625, in [0, 0.9375). *)
Theorem noise_and_fbm_ranges (p : vec2) :
  0 <= noise p < 1 /\ 0 <= fbm p < 0.9375.
Proof. split; [apply noise_range | apply fbm_bounds]. Qed.

(** *** Intersections *)

Lemma sqrt_roots (b disc t : R) :
  0 <= disc ->
  (t * t + 2 * b * t + (b * b - disc) = 0
   <-> t = - b - sqrt disc \/ t = - b + sqrt disc).
Proof.
  intros Hd. pose proof (sqrt_sqrt disc Hd) as Hs.
  set (s := sqrt disc) in *. split.
  - intros H.
    assert (Hp : (t + b - s) * (t + b + s) = 0) by nra.
    apply Rmult_integral in Hp as [Hp | Hp]; [right | left]; lra.
  - intros [-> | ->]; nra.
Qed.

(** The two branches of [intersectSphere], for a ray of unit direction. *)
Lemma intersectSphere_cases (rayOrigin rayDir sphereCenter : vec3)
  (radius : R) :
  dot3 rayDir rayDir = 1 ->
  let onSphere t :=
    let p := sub3 (add3 rayOrigin (scale3 t rayDir)) sphereCenter in
    dot3 p p = radius * radius in
  (intersectSphere rayOrigin rayDir sphereCenter radius = Some (splat2 (-1))
   /\ forall t, ~ onSphere t)
  \/ (exists t1 t2,
        intersectSphere rayOrigin rayDir sphereCenter radius
        = Some (Vec2 t1 t2)
        /\ t1 <= t2
        /\ forall t, onSphere t <-> t = t1 \/ t = t2).
Proof.
  intros Hunit onSphere.
  set (oc := sub3 rayOrigin sphereCenter).
  set (b := dot3 oc rayDir).
  set (disc := b * b - (dot3 oc oc - radius * radius)).
  assert (Heq : forall t,
            onSphere t <-> t * t + 2 * b * t + (b * b - disc) = 0).
  { intros t. unfold onSphere. cbv zeta.
    assert (Hexp :
              dot3 (sub3 (add3 rayOrigin (scale3 t rayDir)) sphereCenter)
                (sub3 (add3 rayOrigin (scale3 t rayDir)) sphereCenter)
              = dot3 oc oc + 2 * t * b + t * t * dot3 rayDir rayDir).
    { unfold b, oc, dot3, sub3, add3, scale3; cbn [x3 y3 z3]. ring. }
    rewrite Hexp, Hunit. unfold disc. split; intros H; lra. }
  unfold intersectSphere. fold oc. fold b. cbv zeta. fold disc.
  destruct (Rlt_dec disc 0) as [Hneg | Hpos].
  - left. split; [reflexivity |]. intros t Ht. apply Heq in Ht.
    pose proof (Rle_0_sqr (t + b)) as Hsq. unfold Rsqr in Hsq. lra.
  - right. rewrite glsl_sqrt_defined by lra. cbn [bind].
    exists (- b - sqrt disc), (- b + sqrt disc).
    split; [reflexivity |]. split.
    + pose proof (sqrt_pos disc). lra.
    + intros t. rewrite Heq. apply sqrt_roots. lra.
Qed.

(** X2: for a ray of unit direction that has no point on the sphere,
    [intersectSphere] returns the sentinel (-1, -1); for one that has a
    point on it, the two parameters, in increasing order, at which the ray
    is on the sphere, and there are no others.  The sentinel does not tell
    a miss from every hit: it is also the pair of roots of a ray that
    touches the sphere at the parameter -1 and nowhere else. *)
Theorem intersectSphere_roots (rayOrigin rayDir sphereCenter : vec3)
  (radius : R) :
  dot3 rayDir rayDir = 1 ->
  let onSphere t :=
    let p := sub3 (add3 rayOrigin (scale3 t rayDir)) sphereCenter in
    dot3 p p = radius * radius in
  let result := intersectSphere rayOrigin rayDir sphereCenter radius in
  ((forall t, ~ onSphere t) -> result = Some (splat2 (-1)))
  /\ ((exists t, onSphere t) ->
      exists t1 t2,
        result = Some (Vec2 t1 t2)
        /\ t1 <= t2
        /\ forall t, onSphere t <-> t = t1 \/ t = t2)
  /\ (result = Some (splat2 (-1)) -> forall t, onSphere t -> t = -1).
Proof.
  intros Hunit onSphere result. subst result.
  destruct (intersectSphere_cases rayOrigin rayDir sphereCenter radius Hunit)
    as [[E Hmiss] | (t1 & t2 & E & Hle & Hon)].
  - split; [intros _; exact E |]. split.
    + intros [t Ht]. destruct (Hmiss t Ht).
    + intros _ t Ht. destruct (Hmiss t Ht).
  - split; [| split].
    + intros Hmiss. exfalso. apply (Hmiss t1). apply Hon. left. reflexivity.
    + intros _. exists t1, t2. repeat split; try assumption; apply Hon.
    + intros E' t Ht. rewrite E in E'. injection E' as -> ->.
      apply Hon in Ht. destruct Ht; assumption.
Qed.

(** A ray along the axis of the cylinder: the quadratic has no leading
    coefficient, its discriminant is 0 and both roots are quotients by 0. *)
Lemma intersectCylinder_axis (rayOrigin rayDir cylinderCenter : vec3)
  (radius : R) :
  dot2 (xy3 rayDir) (xy3 rayDir) = 0 ->
  intersectCylinder rayOrigin rayDir cylinderCenter radius = None.
Proof.
  intros Ha. unfold intersectCylinder. cbv zeta.
  set (ro := sub2 _ _). set (rd := xy3 rayDir) in *.
  assert (Hrd : x2 rd = 0 /\ y2 rd = 0) by (unfold dot2 in Ha; split; nra).
  assert (Hb : 2 * dot2 ro rd = 0)
    by (unfold dot2; destruct Hrd as [-> ->]; lra).
  rewrite Ha, Hb.
  match goal with
  | |- context [Rlt_dec ?d 0] =>
      replace d with 0 by lra; destruct (Rlt_dec 0 0); [lra |]
  end.
  rewrite glsl_sqrt_defined by lra. cbn [bind].
  unfold glsl_div. destruct (Req_dec_T (2 * 0) 0); [reflexivity | lra].
Qed.

(** The two branches of [intersectCylinder], for a ray that is not
    parallel to the axis. *)
Lemma intersectCylinder_cases (rayOrigin rayDir cylinderCenter : vec3)
  (radius : R) :
  let ro := sub2 (xy3 rayOrigin) (xy3 cylinderCenter) in
  let rd := xy3 rayDir in
  let onCylinder t :=
    let p := add2 ro (scale2 t rd) in dot2 p p = radius * radius in
  (dot2 rd rd = 0 ->
   intersectCylinder rayOrigin rayDir cylinderCenter radius = None)
  /\ (dot2 rd rd <> 0 ->
      (intersectCylinder rayOrigin rayDir cylinderCenter radius
       = Some (splat2 (-1))
       /\ forall t, ~ onCylinder t)
      \/ (exists t1 t2,
            intersectCylinder rayOrigin rayDir cylinderCenter radius
            = Some (Vec2 t1 t2)
            /\ t1 <= t2
            /\ forall t, onCylinder t <-> t = t1 \/ t = t2)).
Proof.
  intros ro rd onCylinder. split; [apply intersectCylinder_axis |].
  unfold intersectCylinder. fold ro. fold rd. cbv zeta.
  set (a := dot2 rd rd).
  set (b := 2 * dot2 ro rd).
  set (c := dot2 ro ro - radius * radius).
  set (disc := b * b - 4 * a * c).
  intros Ha.
  assert (Hapos : 0 < a).
  { pose proof (dot2_self_nonneg rd). unfold a in *. lra. }
  assert (Heq : forall t, onCylinder t <-> a * (t * t) + b * t + c = 0).
  { intros t. unfold onCylinder. cbv zeta.
    assert (Hexp :
              dot2 (add2 ro (scale2 t rd)) (add2 ro (scale2 t rd))
              = dot2 ro ro + t * b + t * t * a).
    { unfold a, b, dot2, add2, scale2; cbn [x2 y2]. ring. }
    rewrite Hexp. unfold c. split; intros H; lra. }
  destruct (Rlt_dec disc 0) as [Hneg | Hpos].
  - left. split; [reflexivity |]. intros t Ht. apply Heq in Ht.
    pose proof (Rle_0_sqr (2 * a * t + b)) as Hsq. unfold Rsqr in Hsq.
    assert (Hd : (2 * a * t + b) * (2 * a * t + b) = disc)
      by (unfold disc; nra).
    lra.
  - right. rewrite glsl_sqrt_defined by lra. cbn [bind].
    rewrite !glsl_div_defined by lra. cbn [bind].
    eexists _, _. split; [reflexivity |].
    pose proof (sqrt_pos disc) as Hs.
    pose proof (sqrt_sqrt disc ltac:(lra)) as Hss.
    set (s := sqrt disc) in *.
    assert (Hinv : 0 < / (2 * a)) by (apply Rinv_0_lt_compat; lra).
    split.
    + unfold Rdiv. apply Rmult_le_compat_r; lra.
    + intros t. rewrite Heq. split.
      * intros H.
        assert (Hp : (2 * a * t + b - s) * (2 * a * t + b + s) = 0)
          by (unfold disc in Hss; nra).
        apply Rmult_integral in Hp as [Hp | Hp]; [right | left];
          apply (Rmult_eq_reg_l (2 * a)); try lra; field_simplify; lra.
      * assert (Hd : disc = b * b - 4 * a * c) by reflexivity.
        intros [-> | ->].
        -- assert (E : 2 * a * ((- b - s) / (2 * a)) = - b - s)
             by (field; lra).
           set (t := (- b - s) / (2 * a)) in *.
           assert (4 * a * (a * (t * t) + b * t + c) = 0); nra.
        -- assert (E : 2 * a * ((- b + s) / (2 * a)) = - b + s)
             by (field; lra).
           set (t := (- b + s) / (2 * a)) in *.
           assert (4 * a * (a * (t * t) + b * t + c) = 0); nra.
Qed.

(** X3: [intersectCylinder] works in the plane across the axis.  For a
    ray parallel to the axis its result is undefined, whatever the radius.
    For any other ray: when it has no point on the cylinder the result is
    the sentinel (-1, -1); when it has one, the result is the two
    parameters, in increasing order, at which the ray is on the cylinder,
    and there are no others; and when the result is the sentinel, the ray
    misses the cylinder or touches it at the parameter -1 alone. *)
Theorem intersectCylinder_roots (rayOrigin rayDir cylinderCenter : vec3)
  (radius : R) :
  let ro := sub2 (xy3 rayOrigin) (xy3 cylinderCenter) in
  let rd := xy3 rayDir in
  let onCylinder t :=
    let p := add2 ro (scale2 t rd) in dot2 p p = radius * radius in
  let result := intersectCylinder rayOrigin rayDir cylinderCenter radius in
  (dot2 rd rd = 0 -> result = None)
  /\ (dot2 rd rd <> 0 ->
      ((forall t, ~ onCylinder t) -> result = Some (splat2 (-1)))
      /\ ((exists t, onCylinder t) ->
          exists t1 t2,
            result = Some (Vec2 t1 t2)
            /\ t1 <= t2
            /\ forall t, onCylinder t <-> t = t1 \/ t = t2)
      /\ (result = Some (splat2 (-1)) ->
          forall t, onCylinder t -> t = -1)).
Proof.
  intros ro rd onCylinder result. subst result.
  destruct (intersectCylinder_cases rayOrigin rayDir cylinderCenter radius)
    as [Haxis Hcases].
  split; [exact Haxis |]. intros Hrd.
  destruct (Hcases Hrd) as [[E Hmiss] | (t1 & t2 & E & Hle & Hon)].
  - split; [intros _; exact E |]. split.
    + intros [t Ht]. destruct (Hmiss t Ht).
    + intros _ t Ht. destruct (Hmiss t Ht).
  - split; [| split].
    + intros Hmiss. exfalso. apply (Hmiss t1). apply Hon. left. reflexivity.
    + intros _. exists t1, t2. repeat split; try assumption; apply Hon.
    + intros E' t Ht. rewrite E in E'. injection E' as -> ->.
      apply Hon in Ht. destruct Ht; assumption.
Qed.

(** X4: the tracer looks down the axis of the cylinder, the case in which
    [intersectCylinder] divides by zero: for the cylinder shape the trace,
    and with it the colour [main] writes, is undefined at every pixel. *)
Theorem cylinder_is_undefined (u : Uniforms) (uv : vec2) :
  0.5 <= u_glassShape u < 1.5 ->
  traceGlassShape u uv (u_mousePos u) (u_glassShape u) (u_glassSize u) = None
  /\ main u uv = None.
Proof.
  intros Hshape.
  assert (Htrace :
            traceGlassShape u uv (u_mousePos u) (u_glassShape u)
              (u_glassSize u) = None).
  { unfold traceGlassShape. cbv zeta.
    destruct (Rlt_dec (u_glassShape u) 0.5); [lra |].
    destruct (Rlt_dec (u_glassShape u) 1.5); [| lra].
    rewrite intersectCylinder_axis; [reflexivity |].
    unfold dot2; cbn. lra. }
  split; [exact Htrace |]. unfold main. rewrite Htrace. reflexivity.
Qed.

(** *** Normals *)

Lemma length3_sqr (v : vec3) : length3 v * length3 v = dot3 v v.
Proof. unfold length3. apply sqrt_sqrt, dot3_self_nonneg. Qed.

Lemma length3_zero (v : vec3) : length3 v = 0 <-> v = Vec3 0 0 0.
Proof.
  split.
  - intros H. pose proof (length3_sqr v) as Hs. rewrite H in Hs.
    destruct v as [x y z]. unfold dot3 in Hs; cbn in Hs.
    assert (x = 0) by nra. assert (y = 0) by nra. assert (z = 0) by nra.
    subst. reflexivity.
  - intros ->. unfold length3, dot3; cbn.
    replace (0 * 0 + 0 * 0 + 0 * 0) with 0 by lra. apply sqrt_0.
Qed.

Lemma length2_zero (v : vec2) : length2 v = 0 <-> v = Vec2 0 0.
Proof.
  split.
  - intros H. pose proof (length2_sqr v) as Hs. rewrite H in Hs.
    destruct v as [x y]. unfold dot2 in Hs; cbn in Hs.
    assert (x = 0) by nra. assert (y = 0) by nra. subst. reflexivity.
  - intros ->. unfold length2, dot2; cbn.
    replace (0 * 0 + 0 * 0) with 0 by lra. apply sqrt_0.
Qed.

Lemma normalize_zero : normalize (Vec3 0 0 0) = None.
Proof.
  unfold normalize, glsl_div.
  destruct (Req_dec_T (length3 (Vec3 0 0 0)) 0) as [_ | H]; [reflexivity |].
  exfalso. apply H. apply length3_zero. reflexivity.
Qed.

(** What a defined [normalize] returns. *)
Lemma normalize_inv (v n : vec3) :
  normalize v = Some n ->
  length3 v <> 0 /\ dot3 n n = 1 /\ v = scale3 (length3 v) n.
Proof.
  unfold normalize, glsl_div.
  destruct (Req_dec_T (length3 v) 0) as [| Hlen]; cbn; [discriminate |].
  intros E. injection E as <-. split; [exact Hlen |].
  pose proof (length3_sqr v) as Hs. unfold dot3 in *. cbn [x3 y3 z3]. split.
  - replace (x3 v / length3 v * (x3 v / length3 v)
             + y3 v / length3 v * (y3 v / length3 v)
             + z3 v / length3 v * (z3 v / length3 v))
      with ((x3 v * x3 v + y3 v * y3 v + z3 v * z3 v)
            / (length3 v * length3 v)) by (field; exact Hlen).
    rewrite Hs. field. rewrite <- Hs. nra.
  - destruct v as [x y z]. unfold scale3; cbn [x3 y3 z3].
    f_equal; field; exact Hlen.
Qed.

Lemma normalize_defined (v : vec3) :
  v <> Vec3 0 0 0 ->
  exists n, normalize v = Some n /\ dot3 n n = 1
            /\ v = scale3 (length3 v) n /\ 0 < length3 v.
Proof.
  intros Hv.
  assert (Hlen : length3 v <> 0) by (rewrite length3_zero; exact Hv).
  destruct (normalize v) as [n |] eqn:E.
  - exists n. destruct (normalize_inv v n E) as (_ & H1 & H2).
    repeat split; try assumption.
    pose proof (sqrt_pos (dot3 v v)). unfold length3 in *. lra.
  - exfalso. revert E. unfold normalize.
    rewrite !glsl_div_defined by exact Hlen. discriminate.
Qed.

(** X5: away from the centre [getSphereNormal] is the unit vector from
    the centre to the point, and at the centre it is undefined;
    [getCylinderNormal] is a unit vector across the axis, and on the axis
    it is undefined. *)
Theorem surface_normals (point center : vec3) :
  (point = center -> getSphereNormal point center = None)
  /\ (point <> center ->
      exists n, getSphereNormal point center = Some n /\ dot3 n n = 1
                /\ sub3 point center
                   = scale3 (length3 (sub3 point center)) n)
  /\ (xy3 point = xy3 center -> getCylinderNormal point center = None)
  /\ (xy3 point <> xy3 center ->
      exists n, getCylinderNormal point center = Some n /\ dot3 n n = 1
                /\ z3 n = 0).
Proof.
  unfold getSphereNormal, getCylinderNormal. cbv zeta.
  destruct point as [px py pz], center as [cx cy cz].
  unfold sub3, xy3; cbn [x3 y3 z3].
  split; [| split; [| split]].
  - intros E. injection E as -> -> ->.
    replace (cx - cx) with 0 by lra. replace (cy - cy) with 0 by lra.
    replace (cz - cz) with 0 by lra. apply normalize_zero.
  - intros Hne.
    destruct (normalize_defined (Vec3 (px - cx) (py - cy) (pz - cz)))
      as (n & Hn & Hunit & Hdir & _).
    { intros E. injection E as Hx Hy Hz. apply Hne. f_equal; lra. }
    exists n. auto.
  - intros E. injection E as -> ->.
    replace (cx - cx) with 0 by lra. replace (cy - cy) with 0 by lra.
    apply normalize_zero.
  - intros Hne.
    destruct (normalize_defined (Vec3 (px - cx) (py - cy) 0))
      as (n & Hn & Hunit & Hdir & Hlen).
    { intros E. injection E as Hx Hy. apply Hne. f_equal; lra. }
    exists n. split; [exact Hn |]. split; [exact Hunit |].
    unfold scale3 in Hdir. injection Hdir as _ _ Hz.
    symmetry in Hz. apply Rmult_integral in Hz as [Hz | Hz]; lra.
Qed.

(** *** Refraction *)

Lemma reflect_length (I N : vec3) :
  dot3 N N = 1 -> dot3 (reflect I N) (reflect I N) = dot3 I I.
Proof.
  intros HN. unfold reflect.
  assert (Hexp : forall k,
            dot3 (sub3 I (scale3 k N)) (sub3 I (scale3 k N))
            = dot3 I I - 2 * k * dot3 N I + k * k * dot3 N N).
  { intros k. unfold dot3, sub3, scale3; cbn [x3 y3 z3]. ring. }
  rewrite Hexp, HN. ring.
Qed.

(** X6: [refract3D] of a unit incident direction at a unit normal is a
    unit vector, in the refracting and in the reflecting case alike. *)
Theorem refracted_ray_is_unit (incident normal : vec3) (eta : R) :
  dot3 incident incident = 1 -> dot3 normal normal = 1 ->
  exists r, refract3D incident normal eta = Some r /\ dot3 r r = 1.
Proof.
  intros HI HN. unfold refract3D. cbv zeta.
  set (cosI := dot3 (neg3 incident) normal).
  set (sinT2 := eta * eta * (1 - cosI * cosI)).
  destruct (Rge_dec sinT2 1) as [Htir | Hrefr].
  - eexists. split; [reflexivity |]. rewrite reflect_length; assumption.
  - rewrite glsl_sqrt_defined by lra. cbn [bind].
    eexists. split; [reflexivity |].
    pose proof (sqrt_sqrt (1 - sinT2) ltac:(lra)) as Hs.
    set (cosT := sqrt (1 - sinT2)) in *.
    assert (Hexp : forall k,
              dot3 (add3 (scale3 eta incident) (scale3 k normal))
                (add3 (scale3 eta incident) (scale3 k normal))
              = eta * eta * dot3 incident incident
                - 2 * eta * k * cosI + k * k * dot3 normal normal).
    { intros k. unfold cosI, dot3, add3, scale3, neg3; cbn [x3 y3 z3]. ring. }
    rewrite Hexp, HI, HN. unfold sinT2 in Hs. nra.
Qed.

(** X7: Snell's law.  Below total internal reflection and at a unit
    normal, the refracted ray leaves the surface at the cosine
    [sqrt (1 - sinT2)] on the far side of the normal, and its component
    along the surface is [eta] times that of the incident ray. *)
Theorem refracted_ray_obeys_sine_law (incident normal : vec3) (eta : R) :
  dot3 normal normal = 1 ->
  let cosI := dot3 (neg3 incident) normal in
  let sinT2 := eta * eta * (1 - cosI * cosI) in
  sinT2 < 1 ->
  exists r,
    refract3D incident normal eta = Some r
    /\ dot3 r normal = - sqrt (1 - sinT2)
    /\ sub3 r (scale3 (dot3 r normal) normal)
       = scale3 eta (sub3 incident (scale3 (dot3 incident normal) normal)).
Proof.
  intros HN cosI sinT2 Hlt. unfold refract3D. fold cosI. fold sinT2.
  destruct (Rge_dec sinT2 1); [lra |].
  rewrite glsl_sqrt_defined by lra. cbn [bind].
  set (cosT := sqrt (1 - sinT2)).
  eexists. split; [reflexivity |].
  assert (Hdot : forall k,
            dot3 (add3 (scale3 eta incident) (scale3 k normal)) normal
            = - eta * cosI + k * dot3 normal normal).
  { intros k. unfold cosI, dot3, add3, scale3, neg3; cbn [x3 y3 z3]. ring. }
  assert (HIN : dot3 incident normal = - cosI).
  { unfold cosI, dot3, neg3; cbn [x3 y3 z3]. ring. }
  split.
  - rewrite Hdot, HN. ring.
  - rewrite Hdot, HN, HIN.
    destruct incident as [ix iy iz], normal as [nx ny nz].
    unfold sub3, add3, scale3; cbn [x3 y3 z3]. f_equal; ring.
Qed.

(** *** The Fresnel term *)

Lemma glsl_pow_negative (a b : R) : a < 0 -> glsl_pow a b = None.
Proof.
  intros Ha. unfold glsl_pow. destruct (Rlt_dec a 0); [reflexivity | lra].
Qed.

Lemma Rpower_square (a : R) : 0 < a -> Rpower a 2 = a * a.
Proof.
  intros Ha. replace 2 with (INR 2) by (simpl; lra).
  rewrite Rpower_pow by exact Ha. simpl. ring.
Qed.

Lemma glsl_pow_square (a : R) : 0 <= a -> glsl_pow a 2 = Some (a * a).
Proof.
  intros Ha. unfold glsl_pow.
  destruct (Rlt_dec a 0); [lra |].
  destruct (Req_dec_T a 0) as [-> | Hne].
  - destruct (Rlt_dec 0 2); [| lra]. unfold ret. f_equal. ring.
  - unfold ret. f_equal. apply Rpower_square. lra.
Qed.

Lemma glsl_pow_unit (a b : R) :
  0 <= a <= 1 -> 0 < b ->
  exists p, glsl_pow a b = Some p /\ 0 <= p <= 1
            /\ (a = 0 -> p = 0) /\ (a = 1 -> p = 1).
Proof.
  intros Ha Hb. unfold glsl_pow.
  destruct (Rlt_dec a 0); [lra |].
  destruct (Req_dec_T a 0) as [-> | Hne].
  - destruct (Rlt_dec 0 b); [| lra]. exists 0. repeat split; try lra.
  - exists (Rpower a b). split; [reflexivity |].
    assert (Hpos : 0 < a) by lra.
    split; [| split].
    + split.
      * left. unfold Rpower. apply exp_pos.
      * assert (Hln : ln a <= 0).
        { destruct (Req_dec_T a 1) as [-> | Hne1]; [rewrite ln_1; lra |].
          left. rewrite <- ln_1. apply ln_increasing; lra. }
        unfold Rpower. rewrite <- exp_0.
        destruct (Req_dec_T (b * ln a) 0) as [-> | Hne0]; [lra |].
        left. apply exp_increasing. nra.
    + intros ->. lra.
    + intros ->. unfold Rpower. rewrite ln_1, Rmult_0_r. apply exp_0.
Qed.

(** Entering a denser medium the base of the first [pow] is negative. *)
Lemma fresnel_negative_base (cosTheta n1 n2 : R) :
  0 < n1 + n2 -> n1 < n2 -> fresnel cosTheta n1 n2 = None.
Proof.
  intros Hsum Hlt. unfold fresnel.
  rewrite glsl_div_defined by lra. cbn [bind].
  rewrite glsl_pow_negative; [reflexivity |].
  unfold Rdiv. assert (0 < / (n1 + n2)) by (apply Rinv_0_lt_compat; lra). nra.
Qed.

(** X8: [fresnel] is Schlick's approximation when the ray leaves the
    denser medium ([n2 <= n1]): for a cosine in [0, 1] it lies between the
    reflectance at normal incidence, [((n1 - n2) / (n1 + n2))^2], which it
    takes at cosine 1, and 1, which it takes at cosine 0.  When the ray
    enters the denser medium ([n1 < n2]) it raises a negative number with
    [pow], and its result is undefined. *)
Theorem fresnel_schlick (cosTheta n1 n2 : R) :
  0 <= n2 -> 0 < n1 ->
  (n1 < n2 -> fresnel cosTheta n1 n2 = None)
  /\ (n2 <= n1 -> 0 <= cosTheta <= 1 ->
      let r0 := (n1 - n2) / (n1 + n2) * ((n1 - n2) / (n1 + n2)) in
      exists f,
        fresnel cosTheta n1 n2 = Some f
        /\ r0 <= f <= 1
        /\ (cosTheta = 1 -> f = r0)
        /\ (cosTheta = 0 -> f = 1)).
Proof.
  intros Hn2 Hn1. split.
  - intros Hlt. apply fresnel_negative_base; lra.
  - intros Hle Hc r0. unfold fresnel.
    rewrite glsl_div_defined by lra. cbn [bind].
    set (q := (n1 - n2) / (n1 + n2)) in *.
    assert (Hq : 0 <= q <= 1).
    { unfold q, Rdiv.
      assert (Hinv : 0 < / (n1 + n2)) by (apply Rinv_0_lt_compat; lra).
      split; [nra |].
      replace 1 with ((n1 + n2) * / (n1 + n2)) by (field; lra). nra. }
    rewrite glsl_pow_square by lra. cbn [bind]. fold r0.
    destruct (glsl_pow_unit (1 - cosTheta) 5) as (p & -> & Hp & Hp0 & Hp1);
      [lra | lra |].
    cbn [bind]. eexists. split; [reflexivity |].
    assert (Hr0 : 0 <= r0 <= 1) by (unfold r0; nra).
    split; [nra |]. split.
    + intros ->. rewrite Hp0 by lra. lra.
    + intros ->. rewrite Hp1 by lra. lra.
Qed.

(** X9: [main] calls [fresnel] from air, with [n1 = 1], into the glass.
    For a refraction index above 1 the Fresnel term is therefore
    undefined, and so is the colour of every pixel at which the trace hits
    the glass. *)
Theorem glass_colour_is_undefined (u : Uniforms) (uv : vec2) (info : vec4) :
  1 < u_refractionIndex u ->
  traceGlassShape u uv (u_mousePos u) (u_glassShape u) (u_glassSize u)
  = Some info ->
  0.5 <= w4 info ->
  main u uv = None.
Proof.
  intros Hindex Htrace Hhit. unfold main. cbv zeta. rewrite Htrace.
  cbn [bind]. destruct (Rlt_dec (w4 info) 0.5); [lra |].
  rewrite fresnel_negative_base by lra. reflexivity.
Qed.

(** *** Background patterns *)

Lemma glsl_floor_succ (a : R) : glsl_floor (a + 1) = glsl_floor a + 1.
Proof.
  unfold glsl_floor. rewrite <- plus_IZR. f_equal.
  unfold Int_part.
  destruct (base_Int_part a) as [H1 H2]. unfold Int_part in H1, H2.
  rewrite minus_IZR in H1, H2.
  assert (E : (up a + 1)%Z = up (a + 1)).
  { apply up_tech; [| rewrite plus_IZR]; lra. }
  rewrite <- E. ring.
Qed.

(** [mod(x, 1.0)] has period 1. *)
Lemma glsl_mod_period (a : R) : glsl_mod (a + 1) 1 = glsl_mod a 1.
Proof.
  unfold glsl_mod.
  replace ((a + 1) / 1) with (a / 1 + 1) by lra.
  rewrite glsl_floor_succ. lra.
Qed.

Lemma step_binary (edge a : R) : step edge a = 0 \/ step edge a = 1.
Proof. unfold step. destruct (Rlt_dec a edge); auto. Qed.

(** Below 2.5 the pattern is computed from the coordinate alone. *)
Lemma pattern_ignores_uniforms (u u' : Uniforms) (uv : vec2)
  (patternType : R) :
  patternType < 2.5 ->
  getBackgroundPattern u' uv patternType
  = getBackgroundPattern u uv patternType.
Proof.
  intros H. unfold getBackgroundPattern.
  destruct (Rlt_dec patternType 0.5); [reflexivity |].
  destruct (Rlt_dec patternType 1.5); [reflexivity |].
  destruct (Rlt_dec patternType 2.5); [reflexivity | lra].
Qed.

Lemma pattern_samples_texture (u : Uniforms) (uv : vec2) (patternType : R) :
  2.5 <= patternType ->
  getBackgroundPattern u uv patternType = xyz4 (u_backgroundTexture u uv).
Proof.
  intros H. unfold getBackgroundPattern, texture2D.
  destruct (Rlt_dec patternType 0.5); [lra |].
  destruct (Rlt_dec patternType 1.5); [lra |].
  destruct (Rlt_dec patternType 2.5); [lra | reflexivity].
Qed.

(** X10: the three procedural patterns are grey, with a level in [0, 1],
    and do not depend on the uniforms; stripes and grid take the levels 0
    and 1 only; from 2.5 on the pattern is the texel of the background
    texture at the coordinate. *)
Theorem procedural_patterns (u : Uniforms) (uv : vec2) (patternType : R) :
  (patternType < 2.5 ->
   (exists g, getBackgroundPattern u uv patternType = splat3 g /\ 0 <= g <= 1)
   /\ forall u', getBackgroundPattern u' uv patternType
                 = getBackgroundPattern u uv patternType)
  /\ (patternType < 1.5 ->
      getBackgroundPattern u uv patternType = splat3 0
      \/ getBackgroundPattern u uv patternType = splat3 1)
  /\ (2.5 <= patternType ->
      getBackgroundPattern u uv patternType
      = xyz4 (u_backgroundTexture u uv)).
Proof.
  split; [| split].
  - intros H. split; [| intros u'; apply pattern_ignores_uniforms, H].
    unfold getBackgroundPattern. cbv zeta.
    destruct (Rlt_dec patternType 0.5).
    { eexists. split; [reflexivity |].
      destruct (step_binary 0.5 (glsl_mod (x2 uv / 0.1) 1)) as [-> | ->];
        lra. }
    destruct (Rlt_dec patternType 1.5).
    { eexists. split; [reflexivity |]. cbn [x2 y2].
      destruct (step_binary 0.5 (glsl_mod (x2 uv / 0.05) 1)) as [-> | ->],
               (step_binary 0.5 (glsl_mod (y2 uv / 0.05) 1)) as [-> | ->];
        unfold Rmax; destruct (Rle_dec _ _); lra. }
    destruct (Rlt_dec patternType 2.5); [| lra].
    eexists. split; [reflexivity |].
    pose proof (SIN_bound (length2 (subs2 uv 0.5) * 50)). lra.
  - intros H. unfold getBackgroundPattern. cbv zeta.
    destruct (Rlt_dec patternType 0.5).
    { destruct (step_binary 0.5 (glsl_mod (x2 uv / 0.1) 1)) as [-> | ->];
        auto. }
    destruct (Rlt_dec patternType 1.5); [| lra]. cbn [x2 y2].
    destruct (step_binary 0.5 (glsl_mod (x2 uv / 0.05) 1)) as [-> | ->],
             (step_binary 0.5 (glsl_mod (y2 uv / 0.05) 1)) as [-> | ->];
      unfold Rmax; destruct (Rle_dec _ _); auto; lra.
  - apply pattern_samples_texture.
Qed.

(** X11: the stripes repeat every 0.1 along x and do not depend on y;
    the grid repeats every 0.05 along x and along y. *)
Theorem stripes_and_grid_repeat (u : Uniforms) (uv : vec2) (patternType : R) :
  (patternType < 0.5 ->
   forall dy,
     getBackgroundPattern u (Vec2 (x2 uv + 0.1) (y2 uv + dy)) patternType
     = getBackgroundPattern u uv patternType)
  /\ (0.5 <= patternType < 1.5 ->
      getBackgroundPattern u (Vec2 (x2 uv + 0.05) (y2 uv)) patternType
      = getBackgroundPattern u uv patternType
      /\ getBackgroundPattern u (Vec2 (x2 uv) (y2 uv + 0.05)) patternType
         = getBackgroundPattern u uv patternType).
Proof.
  unfold getBackgroundPattern. cbv zeta. split.
  - intros H dy. destruct (Rlt_dec patternType 0.5); [| lra]. cbn [x2].
    replace ((x2 uv + 0.1) / 0.1) with (x2 uv / 0.1 + 1) by lra.
    rewrite glsl_mod_period. reflexivity.
  - intros H.
    destruct (Rlt_dec patternType 0.5); [lra |].
    destruct (Rlt_dec patternType 1.5); [| lra]. cbn [x2 y2]. split.
    + replace ((x2 uv + 0.05) / 0.05) with (x2 uv / 0.05 + 1) by lra.
      rewrite glsl_mod_period. reflexivity.
    + replace ((y2 uv + 0.05) / 0.05) with (y2 uv / 0.05 + 1) by lra.
      rewrite glsl_mod_period. reflexivity.
Qed.

(** X12: the index [getPatternIndex] uploads selects the branch of
    [getBackgroundPattern] named after the pattern: with [texture] the
    shader returns the texel, with each other pattern it does not read the
    texture. *)
Theorem pattern_index_selects_texture (u : Uniforms) (uv : vec2)
  (pattern : Types.BackgroundPattern) :
  let index := Frame.float (PhysicsGlass.getPatternIndex pattern) in
  match pattern with
  | Types.texture =>
      getBackgroundPattern u uv index = xyz4 (u_backgroundTexture u uv)
  | _ =>
      forall u', getBackgroundPattern u' uv index
                 = getBackgroundPattern u uv index
  end.
Proof.
  intros index.
  assert (Hindex : index = match pattern with
                           | Types.stripes => 0
                           | Types.grid => 1
                           | Types.circles => 2
                           | Types.texture => 3
                           end).
  { unfold index. destruct pattern; unfold Frame.float, Q2R; simpl; lra. }
  destruct pattern; rewrite Hindex;
    try (intros u'; apply pattern_ignores_uniforms; lra).
  apply pattern_samples_texture. lra.
Qed.

(** *** What the trace returns *)

Ltac trace_cases H :=
  repeat
    (cbn [bind ret] in H;
     match type of H with
     | context [if ?c then _ else _] => destruct c
     | context [bind ?c _] =>
         let E := fresh "E" in destruct c eqn:E; try discriminate H
     end).

(** X13: whatever the shape, a defined trace is either the miss
    [vec4(0.0)] or a hit with flag 1 that carries a unit normal. *)
Theorem trace_is_miss_or_unit_normal (u : Uniforms) (uv mouseUV : vec2)
  (shapeType glassSize : R) (v : vec4) :
  traceGlassShape u uv mouseUV shapeType glassSize = Some v ->
  v = splat4 0 \/ (w4 v = 1 /\ dot3 (xyz4 v) (xyz4 v) = 1).
Proof.
  intros H. unfold traceGlassShape in H. cbv zeta in H.
  trace_cases H; injection H as <-; auto; right;
    (split; [reflexivity |]); unfold xyz4; cbn [x4 y4 z4];
    match goal with
    | E : normalize _ = Some ?n |- dot3 (Vec3 (x3 ?n) (y3 ?n) (z3 ?n)) _ = 1 =>
        destruct (normalize_inv _ _ E) as (_ & Hunit & _);
        destruct n; exact Hunit
    end.
Qed.

(** The ripples: what [traceGlassShape] adds to a unit normal before it
    normalises it again leaves a unit vector on the same side. *)
Lemma ripples_keep_normal (u : Uniforms) (uv : vec2) (n : vec3) :
  dot3 n n = 1 ->
  let perturbation :=
    Vec3 (fbm (adds2 (scale2 20 uv) (u_time u * 0.1)) * 0.02)
         (fbm (adds2 (scale2 20 uv) (u_time u * 0.13)) * 0.02) 0 in
  exists m len,
    normalize (add3 n perturbation) = Some m /\ dot3 m m = 1 /\ 0 < len
    /\ z3 m = z3 n / len.
Proof.
  intros Hn perturbation.
  pose proof (fbm_bounds (adds2 (scale2 20 uv) (u_time u * 0.1))) as H1.
  pose proof (fbm_bounds (adds2 (scale2 20 uv) (u_time u * 0.13))) as H2.
  unfold perturbation.
  set (f1 := fbm (adds2 (scale2 20 uv) (u_time u * 0.1))) in *.
  set (f2 := fbm (adds2 (scale2 20 uv) (u_time u * 0.13))) in *.
  destruct (normalize_defined (add3 n (Vec3 (f1 * 0.02) (f2 * 0.02) 0)))
    as (m & Hm & Hunit & Hdir & Hlen).
  { destruct n as [x y z]. unfold add3; cbn [x3 y3 z3].
    unfold dot3 in Hn; cbn [x3 y3 z3] in Hn.
    intros E. injection E as Hx Hy Hz.
    assert (Ex : x = - (f1 * 0.02)) by lra.
    assert (Ey : y = - (f2 * 0.02)) by lra.
    assert (Ez : z = 0) by lra.
    rewrite Ex, Ey, Ez in Hn.
    assert (f1 * f1 < 1) by nra. assert (f2 * f2 < 1) by nra. nra. }
  exists m, (length3 (add3 n (Vec3 (f1 * 0.02) (f2 * 0.02) 0))).
  split; [exact Hm |]. split; [exact Hunit |]. split; [exact Hlen |].
  set (len := length3 _) in *.
  assert (Hz : z3 (add3 n (Vec3 (f1 * 0.02) (f2 * 0.02) 0))
               = z3 (scale3 len m))
    by (rewrite <- Hdir; reflexivity).
  unfold add3, scale3 in Hz; cbn [x3 y3 z3] in Hz.
  field_simplify_eq; lra.
Qed.

Lemma flat_hit (u : Uniforms) (uv mouseUV : vec2) (shapeType glassSize : R) :
  3.5 <= shapeType ->
  length2 (sub2 uv mouseUV) <= glassSize ->
  exists n,
    traceGlassShape u uv mouseUV shapeType glassSize
    = Some (Vec4 (x3 n) (y3 n) (z3 n) 1)
    /\ dot3 n n = 1 /\ 0 < z3 n.
Proof.
  intros Hshape Hd. unfold traceGlassShape. cbv zeta.
  destruct (Rlt_dec shapeType 0.5); [lra |].
  destruct (Rlt_dec shapeType 1.5); [lra |].
  destruct (Rlt_dec shapeType 2.5); [lra |].
  destruct (Rlt_dec shapeType 3.5); [lra |].
  destruct (Rgt_dec (length2 (sub2 uv mouseUV)) glassSize); [lra |].
  destruct (ripples_keep_normal u uv (Vec3 0 0 1))
    as (m1 & l1 & -> & Hu1 & Hl1 & Hz1); [unfold dot3; cbn; lra |].
  destruct (ripples_keep_normal u uv (Vec3 0 0 (-1)))
    as (m2 & l2 & -> & Hu2 & Hl2 & Hz2); [unfold dot3; cbn; lra |].
  cbn [bind]. exists m1. split; [reflexivity |]. split; [exact Hu1 |].
  rewrite Hz1. cbn [z3]. apply Rdiv_lt_0_compat; lra.
Qed.

(** X14: the flat glass is a disc.  Its trace is defined at every pixel:
    a miss beyond the size, and within it a hit whose normal is a unit
    vector facing the viewer. *)
Theorem flat_glass_trace (u : Uniforms) (uv mouseUV : vec2)
  (shapeType glassSize : R) :
  3.5 <= shapeType ->
  (length2 (sub2 uv mouseUV) > glassSize ->
   traceGlassShape u uv mouseUV shapeType glassSize = Some (splat4 0))
  /\ (length2 (sub2 uv mouseUV) <= glassSize ->
      exists n,
        traceGlassShape u uv mouseUV shapeType glassSize
        = Some (Vec4 (x3 n) (y3 n) (z3 n) 1)
        /\ dot3 n n = 1 /\ 0 < z3 n).
Proof.
  intros Hshape. split; [| apply flat_hit, Hshape].
  intros Hd. unfold traceGlassShape. cbv zeta.
  destruct (Rlt_dec shapeType 0.5); [lra |].
  destruct (Rlt_dec shapeType 1.5); [lra |].
  destruct (Rlt_dec shapeType 2.5); [lra |].
  destruct (Rlt_dec shapeType 3.5); [lra |].
  destruct (Rgt_dec (length2 (sub2 uv mouseUV)) glassSize); [| lra].
  reflexivity.
Qed.

Lemma sphere_hit (u : Uniforms) (uv mouseUV : vec2) (shapeType glassSize : R) :
  shapeType < 0.5 -> 0 < glassSize <= 2 ->
  length2 (sub2 uv mouseUV) <= glassSize ->
  exists n,
    traceGlassShape u uv mouseUV shapeType glassSize
    = Some (Vec4 (x3 n) (y3 n) (z3 n) 1)
    /\ dot3 n n = 1 /\ 0 <= z3 n.
Proof.
  intros Hshape Hsize Hd. unfold traceGlassShape. cbv zeta.
  destruct (Rlt_dec shapeType 0.5); [| lra].
  pose proof (length2_sqr (sub2 uv mouseUV)) as Hsq.
  pose proof (length2_nonneg (sub2 uv mouseUV)) as Hpos.
  set (d := length2 (sub2 uv mouseUV)) in *.
  unfold dot2, sub2 in Hsq; cbn [x2 y2] in Hsq.
  unfold intersectSphere. cbv zeta.
  set (b := dot3 _ (Vec3 0 0 (-1))).
  set (disc := b * b - _).
  assert (Hb : b = -2) by (unfold b, dot3, sub3; cbn; lra).
  assert (Hdisc : disc = glassSize * glassSize - d * d)
    by (unfold disc; rewrite Hb; unfold dot3, sub3; cbn; lra).
  assert (Hdpos : 0 <= disc) by (rewrite Hdisc; nra).
  destruct (Rlt_dec disc 0); [lra |].
  rewrite glsl_sqrt_defined by lra. cbn [bind ret x2 y2].
  pose proof (sqrt_pos disc) as Hs0.
  pose proof (sqrt_sqrt disc Hdpos) as Hss.
  set (s := sqrt disc) in *.
  assert (Hs2 : s <= 2) by nra.
  rewrite Hb.
  destruct (Rlt_dec (- -2 - s) 0); [lra |].
  unfold getSphereNormal.
  set (e1 := sub3 (add3 _ (scale3 (- -2 - s) _)) _).
  set (e2 := sub3 (add3 _ (scale3 (- -2 + s) _)) _).
  assert (He1 : e1 = Vec3 (x2 uv - x2 mouseUV) (y2 uv - y2 mouseUV) s)
    by (unfold e1, sub3, add3, scale3; cbn; f_equal; lra).
  assert (He2 : e2 = Vec3 (x2 uv - x2 mouseUV) (y2 uv - y2 mouseUV) (- s))
    by (unfold e2, sub3, add3, scale3; cbn; f_equal; lra).
  assert (Hnz : forall z, z * z = s * s ->
            Vec3 (x2 uv - x2 mouseUV) (y2 uv - y2 mouseUV) z <> Vec3 0 0 0).
  { intros z Hz E. injection E as Hx Hy Hz0.
    rewrite Hx, Hy in Hsq. subst z. nra. }
  destruct (normalize_defined e1) as (n1 & Hn1 & Hu1 & Hdir1 & Hl1).
  { rewrite He1. apply Hnz. reflexivity. }
  destruct (normalize_defined e2) as (n2 & Hn2 & Hu2 & Hdir2 & Hl2).
  { rewrite He2. apply Hnz. lra. }
  rewrite Hn1, Hn2. cbn [bind].
  destruct (ripples_keep_normal u uv n1 Hu1)
    as (m1 & l1 & -> & Hm1 & Hlen1 & Hz1).
  assert (Hneg : dot3 (neg3 n2) (neg3 n2) = 1).
  { unfold dot3, neg3 in *; cbn [x3 y3 z3]. lra. }
  destruct (ripples_keep_normal u uv (neg3 n2) Hneg) as (m2 & l2 & -> & _).
  cbn [bind]. exists m1. split; [reflexivity |]. split; [exact Hm1 |].
  rewrite Hz1.
  assert (Hz : z3 e1 = length3 e1 * z3 n1)
    by (rewrite Hdir1 at 1; reflexivity).
  rewrite He1 in Hz at 1. cbn [z3] in Hz.
  assert (0 <= z3 n1) by nra.
  unfold Rdiv. assert (0 < / l1) by (apply Rinv_0_lt_compat; lra). nra.
Qed.

(** X15: the sphere, for a size in (0, 2].  Its trace is defined at every
    pixel: a miss beyond the size, and within it a hit whose normal is a
    unit vector that does not face away from the viewer. *)
Theorem sphere_trace (u : Uniforms) (uv mouseUV : vec2)
  (shapeType glassSize : R) :
  shapeType < 0.5 -> 0 < glassSize <= 2 ->
  (length2 (sub2 uv mouseUV) > glassSize ->
   traceGlassShape u uv mouseUV shapeType glassSize = Some (splat4 0))
  /\ (length2 (sub2 uv mouseUV) <= glassSize ->
      exists n,
        traceGlassShape u uv mouseUV shapeType glassSize
        = Some (Vec4 (x3 n) (y3 n) (z3 n) 1)
        /\ dot3 n n = 1 /\ 0 <= z3 n).
Proof.
  intros Hshape Hsize. split; [| apply sphere_hit; assumption].
  intros Hd. unfold traceGlassShape. cbv zeta.
  destruct (Rlt_dec shapeType 0.5); [| lra].
  rewrite intersectSphere_miss by lra. cbn.
  destruct (Rlt_dec (-1) 0); [reflexivity | lra].
Qed.

Lemma glsl_atan_origin : glsl_atan 0 0 = None.
Proof. unfold glsl_atan. destruct (Rlt_dec 0 0); [lra |]. reflexivity. Qed.

Lemma glsl_atan_defined (y x : R) :
  Vec2 x y <> Vec2 0 0 -> exists a, glsl_atan y x = Some a.
Proof.
  intros H. unfold glsl_atan.
  destruct (Rlt_dec 0 x); [eexists; reflexivity |].
  destruct (Rlt_dec x 0).
  { destruct (Rle_dec 0 y); eexists; reflexivity. }
  destruct (Rlt_dec 0 y); [eexists; reflexivity |].
  destruct (Rlt_dec y 0); [eexists; reflexivity |].
  exfalso. apply H. f_equal; lra.
Qed.

(** X16: the prism takes the angle of the pixel around the centre with
    [atan(y, x)], which has no value at the centre: for a size that is not
    negative the trace is undefined at the centre pixel, and it is defined
    at every other pixel. *)
Theorem prism_trace (u : Uniforms) (uv mouseUV : vec2)
  (shapeType glassSize : R) :
  2.5 <= shapeType < 3.5 ->
  (uv = mouseUV -> 0 <= glassSize ->
   traceGlassShape u uv mouseUV shapeType glassSize = None)
  /\ (uv <> mouseUV ->
      exists v, traceGlassShape u uv mouseUV shapeType glassSize = Some v).
Proof.
  intros Hshape. unfold traceGlassShape. cbv zeta.
  destruct (Rlt_dec shapeType 0.5); [lra |].
  destruct (Rlt_dec shapeType 1.5); [lra |].
  destruct (Rlt_dec shapeType 2.5); [lra |].
  destruct (Rlt_dec shapeType 3.5); [| lra].
  split.
  - intros -> Hsize.
    assert (Hzero : sub2 mouseUV mouseUV = Vec2 0 0)
      by (unfold sub2; f_equal; lra).
    rewrite Hzero.
    assert (Hlen : length2 (Vec2 0 0) = 0) by (apply length2_zero; reflexivity).
    rewrite Hlen.
    destruct (Rgt_dec 0 glassSize); [lra |].
    cbn [x2 y2]. rewrite glsl_atan_origin. reflexivity.
  - intros Hne.
    destruct (Rgt_dec _ glassSize); [eexists; reflexivity |].
    destruct (glsl_atan_defined (y2 (sub2 uv mouseUV)) (x2 (sub2 uv mouseUV)))
      as [angle ->].
    { intros E. apply Hne. destruct uv, mouseUV. unfold sub2 in E.
      cbn in E. injection E as Hx Hy. f_equal; lra. }
    cbn [bind].
    destruct (Rgt_dec _ _); [eexists; reflexivity |].
    destruct (normalize_pos_z (Vec3 (sin (angle * 3)) (cos (angle * 3)) 1))
      as (pn & Hn & Hz); [cbn; lra |].
    rewrite Hn. cbn [bind].
    destruct (normalize_inv _ _ Hn) as (_ & Hunit & _).
    destruct (ripples_keep_normal u uv pn Hunit) as (m1 & l1 & -> & _).
    assert (Hneg : dot3 (neg3 pn) (neg3 pn) = 1).
    { unfold dot3, neg3 in *; cbn [x3 y3 z3]. lra. }
    destruct (ripples_keep_normal u uv (neg3 pn) Hneg) as (m2 & l2 & -> & _).
    cbn [bind]. eexists. reflexivity.
Qed.

(** *** Transparency *)

Lemma clamp_unit (a : R) : 0 <= clamp a 0 1 <= 1.
Proof.
  unfold clamp, Rmin, Rmax.
  destruct (Rle_dec a 0); destruct (Rle_dec _ 1); lra.
Qed.

Lemma clamp_below (a lo hi : R) : a <= lo <= hi -> clamp a lo hi = lo.
Proof.
  intros H. unfold clamp. rewrite Rmax_right by lra. apply Rmin_left. lra.
Qed.

(** What a defined [smoothstep] returns. *)
Lemma smoothstep_inv (edge0 edge1 a s : R) :
  smoothstep edge0 edge1 a = Some s ->
  edge1 - edge0 <> 0
  /\ let t := clamp ((a - edge0) / (edge1 - edge0)) 0 1 in
     s = t * t * (3 - 2 * t) /\ 0 <= s <= 1.
Proof.
  unfold smoothstep, glsl_div.
  destruct (Req_dec_T (edge1 - edge0) 0) as [| Hne]; cbn; [discriminate |].
  intros E. injection E as <-. split; [exact Hne |]. split; [reflexivity |].
  pose proof (clamp_unit ((a - edge0) / (edge1 - edge0))) as Ht.
  set (t := clamp _ 0 1) in *. split.
  - assert (0 <= t * t) by nra. nra.
  - assert (0 <= (1 - t) * (1 - t) * (1 + 2 * t)).
    { apply Rmult_le_pos; [nra | lra]. }
    nra.
Qed.

Ltac main_cases H :=
  repeat
    (cbn [bind ret] in H;
     match type of H with
     | context [bind ?c _] =>
         let E := fresh "E" in destruct c eqn:E; try discriminate H
     end).


(** *** The theorems at concrete pixels *)

Lemma float_half : Frame.float 0.5%Q = 0.5.
Proof. unfold Frame.float, Q2R; cbn; lra. Qed.

(** The frames of the examples are what their uniforms upload. *)
Lemma frames_uploaded :
  Frame.uniforms cylinderUniforms blackTexture = Some cylinderFrame
  /\ Frame.uniforms lensUniforms blackTexture = Some lensFrame
  /\ Frame.uniforms sphereUniforms blackTexture = Some sphereFrame.
Proof. repeat split. Qed.

(** The centre pixel of the default sphere is at distance 0 of the glass. *)
Lemma centrePixel_dist :
  length2 (sub2 centrePixel (u_mousePos sphereFrame)) = 0.
Proof.
  apply length2_zero. unfold sub2, centrePixel; cbn.
  rewrite float_half. f_equal; lra.
Qed.

Lemma sphereFrame_hit :
  exists n,
    traceGlassShape sphereFrame centrePixel (u_mousePos sphereFrame)
      (u_glassShape sphereFrame) (u_glassSize sphereFrame)
    = Some (Vec4 (x3 n) (y3 n) (z3 n) 1).
Proof.
  assert (Hsize : u_glassSize sphereFrame = 0.2)
    by (cbn; unfold Frame.float, Q2R; cbn; lra).
  assert (Hshape : u_glassShape sphereFrame = 0)
    by (cbn; unfold Frame.float, Q2R; cbn; lra).
  destruct (sphere_hit sphereFrame centrePixel (u_mousePos sphereFrame)
              (u_glassShape sphereFrame) (u_glassSize sphereFrame))
    as (n & Htrace & _).
  - rewrite Hshape. lra.
  - rewrite Hsize. lra.
  - rewrite centrePixel_dist, Hsize. lra.
  - exists n. exact Htrace.
Qed.

(** With refraction index 1 and no dispersion every operation of [main]
    after the trace is defined. *)
Lemma main_defined (u : Uniforms) (uv : vec2) (n : vec3) :
  u_refractionIndex u = 1 -> u_dispersion u = 0 ->
  traceGlassShape u uv (u_mousePos u) (u_glassShape u) (u_glassSize u)
  = Some (Vec4 (x3 n) (y3 n) (z3 n) 1) ->
  0 < z3 n <= 1 ->
  exists c, main u uv = Some c.
Proof.
  intros Hindex Hdisp Htrace Hz. unfold main. cbv zeta. rewrite Htrace.
  unfold xyz4. cbn [bind w4 x4 y4 z4].
  destruct (Rlt_dec 1 0.5); [lra |].
  assert (Hcos : Rabs (dot3 (Vec3 0 0 1) (Vec3 (x3 n) (y3 n) (z3 n))) = z3 n).
  { unfold dot3; cbn. rewrite Rabs_pos_eq; lra. }
  rewrite Hcos, Hindex.
  destruct (fresnel_defined (z3 n)) as [f ->]; [lra |]. cbn [bind].
  destruct (refraction_defined u uv (Vec3 (x3 n) (y3 n) (z3 n)))
    as [r ->]; [rewrite ?Hindex, ?Hdisp; lra ..|].
  cbn [bind].
  destruct (glsl_pow_defined
              (Rmax 0 (dot3 (Vec3 (x3 n) (y3 n) (z3 n)) (Vec3 0.5 0.5 1))) 3)
    as [caustic ->]; [apply Rmax_l | lra |].
  cbn [bind]. unfold smoothstep.
  rewrite !glsl_div_defined by lra. cbn [bind]. eexists. reflexivity.
Qed.

Lemma lensFrame_main_defined : exists c, main lensFrame lensPixel = Some c.
Proof.
  assert (Hshape : u_glassShape lensFrame = 2)
    by (cbn; apply (float_getShapeIndex Types.lens)).
  assert (Hsize : u_glassSize lensFrame = 0.2)
    by (cbn; unfold Frame.float, Q2R; cbn; lra).
  assert (Hdist : length2 (sub2 lensPixel (u_mousePos lensFrame)) = 0.21).
  { unfold length2. apply sqrt_lem_1; [apply dot2_self_nonneg | lra |].
    unfold dot2, sub2, lensPixel; cbn. rewrite float_half. lra. }
  destruct (lens_hit_inside_reach lensFrame lensPixel) as (n & Htrace & Hn);
    [rewrite Hsize; lra | rewrite Hdist, Hsize; lra |].
  apply (main_defined lensFrame lensPixel n).
  - cbn. unfold Frame.float, Q2R; cbn; lra.
  - cbn. unfold Frame.float, Q2R; cbn; lra.
  - rewrite Hshape. exact Htrace.
  - exact Hn.
Qed.

(** A ray that touches the unit sphere at the parameter -1: the result
    is the sentinel, and the ray has a point on the sphere. *)
Lemma intersectSphere_roots_witness :
  let rayOrigin := Vec3 1 0 (-1) in
  let rayDir := Vec3 0 0 (-1) in
  let p := sub3 (add3 rayOrigin (scale3 (-1) rayDir)) (Vec3 0 0 0) in
  dot3 rayDir rayDir = 1
  /\ dot3 p p = 1 * 1
  /\ intersectSphere rayOrigin rayDir (Vec3 0 0 0) 1 = Some (splat2 (-1)).
Proof.
  intros rayOrigin rayDir p.
  assert (Hunit : dot3 rayDir rayDir = 1) by (unfold dot3; cbn; lra).
  assert (Hon : dot3 p p = 1 * 1) by (unfold dot3; cbn; lra).
  split; [exact Hunit |]. split; [exact Hon |].
  destruct (intersectSphere_roots rayOrigin rayDir (Vec3 0 0 0) 1 Hunit)
    as (_ & Hroots & _).
  destruct (Hroots (ex_intro _ (-1) Hon)) as (t1 & t2 & E & _ & Honly).
  assert (H1 : t1 = -1).
  { assert (H : t1 = t1 \/ t1 = t2) by (left; reflexivity).
    apply Honly in H. unfold dot3 in H; cbn in H. nra. }
  assert (H2 : t2 = -1).
  { assert (H : t2 = t1 \/ t2 = t2) by (right; reflexivity).
    apply Honly in H. unfold dot3 in H; cbn in H. nra. }
  rewrite E, H1, H2. reflexivity.
Defined.

(** A ray that touches the unit cylinder at the parameter -1: the result
    is the sentinel, and the ray has a point on the cylinder. *)
Lemma intersectCylinder_roots_witness :
  let rayOrigin := Vec3 1 (-1) 0 in
  let rayDir := Vec3 0 (-1) 0 in
  let p :=
    add2 (sub2 (xy3 rayOrigin) (xy3 (Vec3 0 0 0)))
      (scale2 (-1) (xy3 rayDir)) in
  dot2 p p = 1 * 1
  /\ intersectCylinder rayOrigin rayDir (Vec3 0 0 0) 1 = Some (splat2 (-1)).
Proof.
  intros rayOrigin rayDir p.
  assert (Hon : dot2 p p = 1 * 1) by (unfold dot2; cbn; lra).
  split; [exact Hon |].
  destruct (intersectCylinder_roots rayOrigin rayDir (Vec3 0 0 0) 1)
    as (_ & Hcases).
  destruct Hcases as (_ & Hroots & _); [unfold dot2; cbn; lra |].
  destruct (Hroots (ex_intro _ (-1) Hon)) as (t1 & t2 & E & _ & Honly).
  assert (H1 : t1 = -1).
  { assert (H : t1 = t1 \/ t1 = t2) by (left; reflexivity).
    apply Honly in H. unfold dot2 in H; cbn in H. nra. }
  assert (H2 : t2 = -1).
  { assert (H : t2 = t1 \/ t2 = t2) by (right; reflexivity).
    apply Honly in H. unfold dot2 in H; cbn in H. nra. }
  rewrite E, H1, H2. reflexivity.
Defined.

(** The cylinder of the examples, at the corner pixel. *)
Lemma cylinder_is_undefined_witness :
  traceGlassShape cylinderFrame cornerPixel (u_mousePos cylinderFrame)
    (u_glassShape cylinderFrame) (u_glassSize cylinderFrame) = None
  /\ main cylinderFrame cornerPixel = None.
Proof.
  apply (cylinder_is_undefined cylinderFrame cornerPixel).
  cbn. unfold Frame.float, Q2R; cbn. lra.
Defined.

(** Head-on incidence from air into glass of index 1.5. *)
Lemma refracted_ray_is_unit_witness :
  exists r,
    refract3D (Vec3 0 0 (-1)) facingNormal (1 / 1.5) = Some r
    /\ dot3 r r = 1.
Proof.
  apply (refracted_ray_is_unit (Vec3 0 0 (-1)) facingNormal (1 / 1.5));
    unfold dot3, facingNormal; cbn; lra.
Defined.

Lemma refracted_ray_obeys_sine_law_witness :
  let cosI := dot3 (neg3 (Vec3 0 0 (-1))) facingNormal in
  let sinT2 := 1 / 1.5 * (1 / 1.5) * (1 - cosI * cosI) in
  exists r,
    refract3D (Vec3 0 0 (-1)) facingNormal (1 / 1.5) = Some r
    /\ dot3 r facingNormal = - sqrt (1 - sinT2)
    /\ sub3 r (scale3 (dot3 r facingNormal) facingNormal)
       = scale3 (1 / 1.5)
           (sub3 (Vec3 0 0 (-1))
              (scale3 (dot3 (Vec3 0 0 (-1)) facingNormal) facingNormal)).
Proof.
  apply (refracted_ray_obeys_sine_law (Vec3 0 0 (-1)) facingNormal (1 / 1.5));
    unfold dot3, neg3, facingNormal; cbn; lra.
Defined.

(** From glass of index 1.5 into air, and the other way round. *)
Lemma fresnel_schlick_witness :
  (1.5 < 1 -> fresnel 0.5 1.5 1 = None)
  /\ (1 <= 1.5 -> 0 <= 0.5 <= 1 ->
      let r0 := (1.5 - 1) / (1.5 + 1) * ((1.5 - 1) / (1.5 + 1)) in
      exists f,
        fresnel 0.5 1.5 1 = Some f
        /\ r0 <= f <= 1
        /\ (0.5 = 1 -> f = r0)
        /\ (0.5 = 0 -> f = 1)).
Proof. apply (fresnel_schlick 0.5 1.5 1); lra. Defined.

(** The default sphere, of index 1.5, at its centre pixel. *)
Lemma glass_colour_is_undefined_witness : main sphereFrame centrePixel = None.
Proof.
  destruct sphereFrame_hit as (n & Htrace).
  apply (glass_colour_is_undefined sphereFrame centrePixel _ ltac:(cbn; unfold Frame.float, Q2R; cbn; lra) Htrace).
  cbn. lra.
Defined.

Lemma trace_is_miss_or_unit_normal_witness :
  exists v,
    traceGlassShape sphereFrame centrePixel (u_mousePos sphereFrame)
      (u_glassShape sphereFrame) (u_glassSize sphereFrame) = Some v
    /\ (v = splat4 0 \/ (w4 v = 1 /\ dot3 (xyz4 v) (xyz4 v) = 1)).
Proof.
  destruct sphereFrame_hit as (n & Htrace).
  eexists. split; [exact Htrace |].
  apply (trace_is_miss_or_unit_normal _ _ _ _ _ _ Htrace).
Defined.

(** A flat glass of size 0.2 around the centre pixel. *)
Lemma flat_glass_trace_witness :
  (length2 (sub2 cornerPixel centrePixel) > 0.2 ->
   traceGlassShape sphereFrame cornerPixel centrePixel 4 0.2
   = Some (splat4 0))
  /\ (length2 (sub2 cornerPixel centrePixel) <= 0.2 ->
      exists n,
        traceGlassShape sphereFrame cornerPixel centrePixel 4 0.2
        = Some (Vec4 (x3 n) (y3 n) (z3 n) 1)
        /\ dot3 n n = 1 /\ 0 < z3 n).
Proof. apply (flat_glass_trace sphereFrame cornerPixel centrePixel 4 0.2). lra. Defined.

Lemma sphere_trace_witness :
  (length2 (sub2 cornerPixel centrePixel) > 0.2 ->
   traceGlassShape sphereFrame cornerPixel centrePixel 0 0.2
   = Some (splat4 0))
  /\ (length2 (sub2 cornerPixel centrePixel) <= 0.2 ->
      exists n,
        traceGlassShape sphereFrame cornerPixel centrePixel 0 0.2
        = Some (Vec4 (x3 n) (y3 n) (z3 n) 1)
        /\ dot3 n n = 1 /\ 0 <= z3 n).
Proof.
  apply (sphere_trace sphereFrame cornerPixel centrePixel 0 0.2); lra.
Defined.

Lemma prism_trace_witness :
  (centrePixel = centrePixel -> 0 <= 0.2 ->
   traceGlassShape sphereFrame centrePixel centrePixel 3 0.2 = None)
  /\ (centrePixel <> centrePixel ->
      exists v,
        traceGlassShape sphereFrame centrePixel centrePixel 3 0.2 = Some v).
Proof.
  apply (prism_trace sphereFrame centrePixel centrePixel 3 0.2). lra.
Defined.


End FragmentSpec.

(** ** The [PhysicsGlass] class *)

Module GlassSpec.

Import JS Types Browser PhysicsGlass Laws Fixtures.
Local Open Scope Q_scope.
Local Open Scope string_scope.

(** *** Clamping *)

Lemma clamp_range (lo hi x : number) :
  lo <= hi -> lo <= Math_max lo (Math_min hi x) <= hi.
Proof.
  intros H. unfold Math_max, Math_min. split.
  - apply Q.le_max_l.
  - apply Q.max_lub; [exact H | apply Q.le_min_l].
Qed.

Lemma clamp_fixed (lo hi x : number) :
  lo <= x <= hi -> Math_max lo (Math_min hi x) == x.
Proof.
  intros [H1 H2]. unfold Math_max, Math_min.
  rewrite Q.min_r by exact H2. apply Q.max_r. exact H1.
Qed.

(** *** Preservation of a property of the instance by a method *)

Section Keeps.

Variable P : Instance.t -> Prop.

Lemma keeps_ret {A : Type} (a : A) : keeps P (ret a).
Proof. intros w H. exact H. Qed.

Lemma keeps_throw {A : Type} (e : Error) : keeps P (@throw Error World A e).
Proof. intros w H. exact H. Qed.

Lemma keeps_bind {A B : Type} (c : js A) (k : A -> js B) :
  keeps P c -> (forall a, keeps P (k a)) -> keeps P (bind c k).
Proof.
  intros Hc Hk w H. specialize (Hc w H). unfold exec, bind in *.
  destruct (c w) as [[a | e] w']; cbn in *.
  - apply (Hk a w' Hc).
  - exact Hc.
Qed.

Lemma keeps_tryCatch {A : Type} (c : js A) (h : Error -> js A) :
  keeps P c -> (forall e, keeps P (h e)) -> keeps P (tryCatch c h).
Proof.
  intros Hc Hh w H. specialize (Hc w H). unfold exec, tryCatch in *.
  destruct (c w) as [[a | e] w']; cbn in *.
  - exact Hc.
  - apply (Hh e w' Hc).
Qed.

Lemma keeps_dom {A : Type} (c : B A) : keeps P (dom c).
Proof.
  intros w H. unfold exec, dom, lift. destruct (c (browser w)). exact H.
Qed.

Lemma keeps_field {A : Type} (f : Instance.t -> A) : keeps P (field f).
Proof. intros w H. exact H. Qed.

Lemma keeps_assign (f : Instance.t -> Instance.t) :
  (forall t, P t -> P (f t)) -> keeps P (assign f).
Proof. intros Hf w H. apply Hf, H. Qed.

Lemma keeps_when (b : bool) (c : js unit) : keeps P c -> keeps P (when b c).
Proof. intros Hc. destruct b; [exact Hc | apply keeps_ret]. Qed.

End Keeps.

Ltac keeps_step :=
  first
    [ apply keeps_ret | apply keeps_throw | apply keeps_dom
    | apply keeps_field
    | apply keeps_bind; [| intros ?]
    | apply keeps_tryCatch; [| intros ?]
    | apply keeps_when
    | match goal with
      | |- keeps _ (match ?x with _ => _ end) => destruct x
      end ].

Ltac keeps_auto := repeat keeps_step.


Create HintDb keeps.

(** Every event changes the instance through these assignments only, so a
    property of the instance that each of them keeps is kept by every
    event. *)
Section Writes.

Variable P : Instance.t -> Prop.
Hypothesis P_write : forall wr t, numeric wr = true -> P t -> P (write wr t).

Ltac by_write :=
  apply keeps_assign;
  let t := fresh "t" in
  let Ht := fresh "Ht" in
  intros t Ht;
  first
    [ refine (P_write (writeVertexBuffer _) t _ Ht); reflexivity
    | refine (P_write (writeWebglState _) t _ Ht); reflexivity
    | refine (P_write (writeResolution _) t _ Ht); reflexivity
    | refine (P_write writeCleanupContextLoss t _ Ht); reflexivity
    | refine (P_write (writeMousePos _) t _ Ht); reflexivity
    | refine (P_write (writeUniformMousePos _) t _ Ht); reflexivity
    | refine (P_write writeTime t _ Ht); reflexivity
    | refine (P_write writeUniformTime t _ Ht); reflexivity
    | refine (P_write (writeAnimationId _) t _ Ht); reflexivity
    | refine (P_write (writeShape _) t _ Ht); reflexivity
    | refine (P_write (writeUniformShape _) t _ Ht); reflexivity
    | refine (P_write (writeSize _) t _ Ht); reflexivity
    | refine (P_write writeUniformSize t _ Ht); reflexivity
    | refine (P_write (writeRefractionIndex _) t _ Ht); reflexivity
    | refine (P_write writeUniformRefractionIndex t _ Ht); reflexivity
    | refine (P_write (writeDispersion _) t _ Ht); reflexivity
    | refine (P_write writeUniformDispersion t _ Ht); reflexivity
    | refine (P_write (writeThickness _) t _ Ht); reflexivity
    | refine (P_write writeUniformThickness t _ Ht); reflexivity
    | refine (P_write (writePattern _) t _ Ht); reflexivity
    | refine (P_write (writeUniformPattern _) t _ Ht); reflexivity
    | refine (P_write (writeBackgroundTexture _) t _ Ht); reflexivity
    | refine (P_write (writeMouseEnabled _) t _ Ht); reflexivity
    | refine (P_write (writeAnimationEnabled _) t _ Ht); reflexivity
    | refine (P_write (writeSpeed _) t _ Ht); reflexivity
    | refine (P_write writeIsDestroyed t _ Ht); reflexivity ].

Ltac by_writes :=
  repeat first [ solve [auto 1 with keeps nocore] | keeps_step | by_write ].

Lemma keeps_setupWebGL : keeps P setupWebGL.
Proof. unfold setupWebGL. by_writes. Qed.

Lemma keeps_setupCanvas : keeps P setupCanvas.
Proof. unfold setupCanvas. by_writes. Qed.

Lemma keeps_setupEventListeners : keeps P setupEventListeners.
Proof. unfold setupEventListeners. by_writes. Qed.

Lemma keeps_setMouse (x y : number) : keeps P (setMouse x y).
Proof. unfold setMouse. by_writes. Qed.

Lemma keeps_updateUniforms : keeps P updateUniforms.
Proof. unfold updateUniforms. by_writes. Qed.

#[local] Hint Resolve keeps_setupWebGL keeps_setupCanvas
  keeps_setupEventListeners keeps_setMouse keeps_updateUniforms : keeps.

Lemma keeps_render : keeps P render.
Proof. unfold render. by_writes. Qed.

Lemma keeps_setRefractionIndex (index : number) :
  keeps P (setRefractionIndex index).
Proof. unfold setRefractionIndex. by_writes. Qed.

Lemma keeps_setDispersion (dispersion : number) :
  keeps P (setDispersion dispersion).
Proof. unfold setDispersion. by_writes. Qed.

Lemma keeps_swapTexture (source : TextureSource) (newTexture : Handle) :
  keeps P (swapTexture source newTexture).
Proof. unfold swapTexture. by_writes. Qed.

#[local] Hint Resolve keeps_render keeps_setRefractionIndex
  keeps_setDispersion keeps_swapTexture : keeps.

Lemma keeps_startAnimation : keeps P startAnimation.
Proof. unfold startAnimation, setAnimationEnabled. by_writes. Qed.

Lemma keeps_stopAnimation : keeps P stopAnimation.
Proof. unfold stopAnimation, setAnimationEnabled. by_writes. Qed.

#[local] Hint Resolve keeps_startAnimation keeps_stopAnimation : keeps.

Lemma keeps_setMaterial (arg : MaterialArgument) :
  ordinary (hostCalls (callSetMaterial arg)) = true ->
  keeps P (setMaterial arg).
Proof.
  unfold setMaterial, ordinary. destruct arg as [name | mat].
  - destruct (lookup name GLASS_MATERIALS) as [[mat | member] |];
      [| discriminate |]; intros _; cbn; by_writes.
  - intros _. cbn. by_writes.
Qed.

Lemma keeps_perform (c : Call) :
  ordinary (hostCalls c) = true -> keeps P (perform c).
Proof.
  destruct c; cbn [perform]; try apply keeps_setMaterial; intros _;
    unfold setShape, setSize, setThickness, setBackgroundPattern,
      setBackgroundTexture, setMousePosition,
      enableMouseTracking, setAnimationSpeed, resize, handleResize, destroy;
    by_writes.
Qed.

Lemma keeps_init : keeps P init.
Proof. unfold init. by_writes. Qed.

Lemma handle_ordinary (e : Event) : ordinary e = true -> keeps P (handle e).
Proof.
  pose proof keeps_init.
  destruct e; cbn [handle]; try apply keeps_perform; intros _;
    unfold dispatch, listening, takeFrame, setBackgroundTexture_resume,
      handleMouseMove, handleMouseLeave, handleResize, handleContextLoss,
      handleContextRestored;
    by_writes.
Qed.

End Writes.

(** A property that every assignment keeps, those of [NaN] included, is
    kept by every event. *)
Lemma handle_writes (P : Instance.t -> Prop) :
  (forall wr t, P t -> P (write wr t)) ->
  forall e, keeps P (handle e).
Proof.
  intros H e. destruct (ordinary e) eqn:He.
  - apply (handle_ordinary P (fun wr t _ => H wr t) e He).
  - destruct e as [c | | | | | | | | |]; try discriminate.
    destruct c; try discriminate.
    destruct arg as [name | mat]; [| discriminate].
    cbn [handle perform]. unfold setMaterial. cbn in He.
    destruct (lookup name GLASS_MATERIALS) as [[mat | member] |];
      try discriminate.
    unfold setRefractionIndex, setDispersion.
    repeat first
      [ apply keeps_dom
      | apply keeps_bind; [| intros ?]
      | apply keeps_assign; intros t Ht;
        first
          [ exact (H (writeRefractionIndex NaN) t Ht)
          | exact (H writeUniformRefractionIndex t Ht)
          | exact (H (writeDispersion NaN) t Ht)
          | exact (H writeUniformDispersion t Ht) ] ].
Qed.

Lemma keeps_run (P : Instance.t -> Prop) :
  (forall e, keeps P (handle e)) ->
  forall events w, P (this w) -> P (this (run events w)).
Proof.
  intros H events. induction events as [| e events IH]; intros w Hw.
  - exact Hw.
  - cbn. apply IH. apply (H e w Hw).
Qed.

(** *** The declared ranges of size and refraction index *)

Lemma keeps_ordinary_run (P : Instance.t -> Prop) :
  (forall wr t, numeric wr = true -> P t -> P (write wr t)) ->
  forall events w,
    forallb ordinary events = true -> P (this w) -> P (this (run events w)).
Proof.
  intros H events.
  induction events as [| e events IH]; intros w He Hw; [exact Hw |].
  cbn in He. apply andb_true_iff in He as [He Hrest].
  cbn. apply (IH _ Hrest). apply (handle_ordinary P H e He w Hw).
Qed.

Lemma inRange_write (wr : Write) (t : Instance.t) :
  numeric wr = true -> inRange t -> inRange (write wr t).
Proof.
  destruct t as [? [] ? ? ? ? ? [] ? ?]. unfold inRange.
  pose proof (clamp_range 0.01 1) as Hsize.
  pose proof (clamp_range 1 3) as Hindex.
  destruct wr; cbn; intros Hwr H; try exact H.
  - specialize (Hsize size0 ltac:(discriminate)). intuition lra.
  - intuition lra.
  - destruct index as [index |]; [| discriminate]. cbn.
    specialize (Hindex index ltac:(discriminate)). intuition lra.
  - intuition lra.
Qed.

Lemma inRange_run (events : list Event) (w : World) :
  forallb ordinary events = true ->
  inRange (this w) -> inRange (this (run events w)).
Proof. apply keeps_ordinary_run, inRange_write. Qed.

Lemma inRangeOrNaN_write (wr : Write) (t : Instance.t) :
  inRangeOrNaN t -> inRangeOrNaN (write wr t).
Proof.
  destruct t as [? [] ? ? ? ? ? [] ? ?]. unfold inRangeOrNaN.
  pose proof (clamp_range 0.01 1) as Hsize.
  pose proof (clamp_range 1 3) as Hindex.
  destruct wr; cbn; intros H; try exact H.
  - specialize (Hsize size0 ltac:(discriminate)). intuition lra.
  - intuition lra.
  - destruct index as [index |]; cbn; [| tauto].
    specialize (Hindex index ltac:(discriminate)). intuition lra.
  - intuition lra.
Qed.

Lemma inRangeOrNaN_run (events : list Event) (w : World) :
  inRangeOrNaN (this w) -> inRangeOrNaN (this (run events w)).
Proof. apply keeps_run, handle_writes, inRangeOrNaN_write. Qed.

Lemma inRange_orNaN (t : Instance.t) : inRange t -> inRangeOrNaN t.
Proof.
  unfold inRange, inRangeOrNaN, between, betweenOrNaN.
  destruct (Config.refractionIndex (Instance.config t)),
    (ShaderUniforms.refractionIndex (Instance.uniforms t)); tauto.
Qed.


(** *** Hoare triples over the world *)

Lemma triple_weaken {A : Type} (Pre Pre' Post Post' : World -> Prop)
  (c : js A) :
  triple Pre' c Post' ->
  (forall w, Pre w -> Pre' w) -> (forall w, Post' w -> Post w) ->
  triple Pre c Post.
Proof. intros H H1 H2 w Hw. apply H2, H, H1, Hw. Qed.

Lemma triple_ret {A : Type} (I : World -> Prop) (a : A) : triple I (ret a) I.
Proof. intros w H. exact H. Qed.

Lemma triple_throw {A : Type} (I : World -> Prop) (e : Error) :
  triple I (@throw Error World A e) I.
Proof. intros w H. exact H. Qed.

Lemma triple_bind {A B : Type} (Pre Mid Post : World -> Prop) (c : js A)
  (k : A -> js B) :
  triple Pre c Mid -> (forall w, Mid w -> Post w) ->
  (forall a, triple Mid (k a) Post) ->
  triple Pre (bind c k) Post.
Proof.
  intros Hc Hthrow Hk w Hw. specialize (Hc w Hw). unfold exec, bind in *.
  destruct (c w) as [[a | e] w']; cbn in *.
  - apply (Hk a w' Hc).
  - apply Hthrow, Hc.
Qed.

Lemma triple_seq {A B : Type} (I : World -> Prop) (c : js A) (k : A -> js B) :
  triple I c I -> (forall a, triple I (k a) I) -> triple I (bind c k) I.
Proof. intros Hc Hk. apply (triple_bind I I I); auto. Qed.

(** Reading a field tells the continuation what was read. *)
Lemma triple_read {A B : Type} (Pre Post : World -> Prop)
  (f : Instance.t -> A) (k : A -> js B) :
  (forall v, triple (fun w => Pre w /\ f (this w) = v) (k v) Post) ->
  triple Pre (bind (field f) k) Post.
Proof.
  intros Hk w Hw. unfold exec, bind, field, gets. cbn.
  apply (Hk (f (this w)) w). split; [exact Hw | reflexivity].
Qed.

Lemma triple_tryCatch {A : Type} (Pre Mid Post : World -> Prop) (c : js A)
  (h : Error -> js A) :
  triple Pre c Mid -> (forall w, Mid w -> Post w) ->
  (forall e, triple Mid (h e) Post) ->
  triple Pre (tryCatch c h) Post.
Proof.
  intros Hc Hok Hh w Hw. specialize (Hc w Hw). unfold exec, tryCatch in *.
  destruct (c w) as [[a | e] w']; cbn in *.
  - apply Hok, Hc.
  - apply (Hh e w' Hc).
Qed.

Lemma triple_field {A : Type} (I : World -> Prop) (f : Instance.t -> A) :
  triple I (field f) I.
Proof. intros w H. exact H. Qed.

Lemma triple_when (I : World -> Prop) (b : bool) (c : js unit) :
  triple I c I -> triple I (when b c) I.
Proof. intros H. destruct b; [exact H | apply triple_ret]. Qed.

Lemma triple_false {A : Type} (Pre Post : World -> Prop) (c : js A) :
  (forall w, ~ Pre w) -> triple Pre c Post.
Proof. intros H w Hw. destruct (H w Hw). Qed.

(** *** Browser calls that leave the frame requests alone *)

Lemma sameFrames_ret {A : Type} (a : A) : sameFrames (@ret Error Browser.t A a).
Proof. intros b. reflexivity. Qed.

Lemma sameFrames_throw {A : Type} (e : Error) :
  sameFrames (@throw Error Browser.t A e).
Proof. intros b. reflexivity. Qed.

Lemma sameFrames_bind {A C : Type} (c : B A) (k : A -> B C) :
  sameFrames c -> (forall a, sameFrames (k a)) -> sameFrames (bind c k).
Proof.
  intros Hc Hk b. specialize (Hc b). unfold bind.
  destruct (c b) as [[a | e] b']; cbn in *.
  - rewrite (Hk a b'). exact Hc.
  - exact Hc.
Qed.

Lemma sameFrames_tryCatch {A : Type} (c : B A) (h : Error -> B A) :
  sameFrames c -> (forall e, sameFrames (h e)) -> sameFrames (tryCatch c h).
Proof.
  intros Hc Hh b. specialize (Hc b). unfold tryCatch.
  destruct (c b) as [[a | e] b']; cbn in *.
  - exact Hc.
  - rewrite (Hh e b'). exact Hc.
Qed.

Lemma sameFrames_gets {A : Type} (f : Browser.t -> A) :
  sameFrames (@gets Error Browser.t A f).
Proof. intros b. reflexivity. Qed.

Lemma sameFrames_gl (c : GL.Command) : sameFrames (gl c).
Proof. intros b. reflexivity. Qed.

Lemma sameFrames_fresh : sameFrames fresh.
Proof. intros b. reflexivity. Qed.

Lemma sameFrames_invoke (c : Callback) : sameFrames (invoke c).
Proof. intros b. reflexivity. Qed.

Lemma sameFrames_addEventListener (l : Listener) :
  sameFrames (addEventListener l).
Proof. intros b. reflexivity. Qed.

Lemma sameFrames_removeEventListener (l : Listener) :
  sameFrames (removeEventListener l).
Proof. intros b. reflexivity. Qed.

Lemma sameFrames_setCanvasSize (w h : number) : sameFrames (setCanvasSize w h).
Proof. intros b. reflexivity. Qed.

Lemma sameFrames_setHost (h : Host) : sameFrames (setHost h).
Proof. intros b. reflexivity. Qed.

Create HintDb frames.
#[export] Hint Resolve sameFrames_ret sameFrames_throw sameFrames_gets
  sameFrames_gl sameFrames_fresh sameFrames_invoke sameFrames_addEventListener
  sameFrames_removeEventListener sameFrames_setCanvasSize sameFrames_setHost
  : frames.

Ltac sameFrames_step :=
  first
    [ solve [auto 1 with frames nocore]
    | apply sameFrames_bind; [| intros ?]
    | apply sameFrames_tryCatch; [| intros ?]
    | match goal with
      | |- sameFrames (match ?x with _ => _ end) => destruct x
      end ].

Ltac sameFrames_auto := repeat sameFrames_step.

Lemma sameFrames_create (allowed : Host -> bool)
  (call : option Handle -> GL.Command) : sameFrames (create allowed call).
Proof. unfold create. sameFrames_auto. Qed.
#[export] Hint Resolve sameFrames_create : frames.

Lemma sameFrames_getWebGLContext : sameFrames WebGL.getWebGLContext.
Proof. unfold WebGL.getWebGLContext. sameFrames_auto. Qed.

Lemma sameFrames_isWebGLSupported : sameFrames WebGL.isWebGLSupported.
Proof. unfold WebGL.isWebGLSupported. sameFrames_auto. Qed.

Lemma sameFrames_createShader (type : GL.ShaderType) :
  sameFrames (WebGL.createShader type).
Proof. unfold WebGL.createShader. sameFrames_auto. Qed.

Lemma sameFrames_createProgram (v f : Handle) :
  sameFrames (WebGL.createProgram v f).
Proof. unfold WebGL.createProgram. sameFrames_auto. Qed.

Lemma sameFrames_createTextureFromElement (p : GL.Pixels) :
  sameFrames (WebGL.createTextureFromElement p).
Proof. unfold WebGL.createTextureFromElement. sameFrames_auto. Qed.
#[export] Hint Resolve sameFrames_getWebGLContext sameFrames_isWebGLSupported
  sameFrames_createShader sameFrames_createProgram
  sameFrames_createTextureFromElement : frames.

Lemma sameFrames_loadImageTexture (url : string) :
  sameFrames (WebGL.loadImageTexture url).
Proof. unfold WebGL.loadImageTexture. sameFrames_auto. Qed.

Lemma sameFrames_createDefaultTexture : sameFrames WebGL.createDefaultTexture.
Proof. unfold WebGL.createDefaultTexture. sameFrames_auto. Qed.

Lemma sameFrames_getUniformLocations (program : Handle) (names : list string) :
  sameFrames (WebGL.getUniformLocations program names).
Proof.
  induction names as [| name names IH]; cbn [WebGL.getUniformLocations].
  - sameFrames_auto.
  - apply sameFrames_bind; [sameFrames_auto | intros _].
    apply sameFrames_bind; [exact IH | intros ?]. sameFrames_auto.
Qed.

Lemma sameFrames_createQuadBuffer : sameFrames WebGL.createQuadBuffer.
Proof. unfold WebGL.createQuadBuffer. sameFrames_auto. Qed.

Lemma sameFrames_setupContextLossHandling :
  sameFrames WebGL.setupContextLossHandling.
Proof. unfold WebGL.setupContextLossHandling. sameFrames_auto. Qed.

Lemma sameFrames_cleanupContextLossHandling :
  sameFrames WebGL.cleanupContextLossHandling.
Proof. unfold WebGL.cleanupContextLossHandling. sameFrames_auto. Qed.
#[export] Hint Resolve sameFrames_loadImageTexture
  sameFrames_createDefaultTexture sameFrames_getUniformLocations
  sameFrames_createQuadBuffer sameFrames_setupContextLossHandling
  sameFrames_cleanupContextLossHandling : frames.


Lemma triple_try {A : Type} (I : World -> Prop) (c : js A)
  (h : Error -> js A) :
  triple I c I -> (forall e, triple I (h e) I) -> triple I (tryCatch c h) I.
Proof. intros Hc Hh. apply (triple_tryCatch I I I); auto. Qed.

Lemma triple_assign (Pre Post : World -> Prop) (f : Instance.t -> Instance.t) :
  (forall t b, Pre (mkWorld t b) -> Post (mkWorld (f t) b)) ->
  triple Pre (assign f) Post.
Proof. intros H [t b] Hw. apply H, Hw. Qed.

Lemma triple_dom_with {A : Type} (Pre Post : World -> Prop) (c : B A) :
  (forall t b, Pre (mkWorld t b) -> Post (mkWorld t (snd (c b)))) ->
  triple Pre (dom c) Post.
Proof.
  intros H [t b] Hw. unfold exec, dom, lift. cbn.
  specialize (H t b Hw). destruct (c b). exact H.
Qed.

(** *** The animation clock

    The fields and browser state that decide when frames are drawn: a write
    is calm when it touches none of them. *)

Create HintDb triples.

Ltac triple_step :=
  first
    [ solve [auto 1 with triples nocore]
    | apply triple_ret | apply triple_throw | apply triple_field
    | apply triple_seq; [| intros ?]
    | apply triple_try; [| intros ?]
    | apply triple_when
    | match goal with
      | |- triple _ (match ?x with _ => _ end) _ => destruct x
      end ].

Section ClockFree.

Variable I : World -> Prop.
Hypothesis I_browser :
  forall t b b', frames b' = frames b -> I (mkWorld t b) -> I (mkWorld t b').
Hypothesis I_write :
  forall wr t b, calm wr = true -> I (mkWorld t b) -> I (mkWorld (write wr t) b).

Lemma triple_dom {A : Type} (c : B A) : sameFrames c -> triple I (dom c) I.
Proof.
  intros Hc. apply triple_dom_with. intros t b H.
  apply (I_browser t b); [apply Hc | exact H].
Qed.

Ltac by_calm :=
  apply triple_assign;
  let t := fresh "t" in
  let b := fresh "b" in
  let Ht := fresh "Ht" in
  intros t b Ht;
  first
    [ exact (I_write (writeVertexBuffer _) t b eq_refl Ht)
    | exact (I_write (writeWebglState _) t b eq_refl Ht)
    | exact (I_write (writeResolution _) t b eq_refl Ht)
    | exact (I_write writeCleanupContextLoss t b eq_refl Ht)
    | exact (I_write (writeMousePos _) t b eq_refl Ht)
    | exact (I_write (writeUniformMousePos _) t b eq_refl Ht)
    | exact (I_write writeUniformTime t b eq_refl Ht)
    | exact (I_write (writeShape _) t b eq_refl Ht)
    | exact (I_write (writeUniformShape _) t b eq_refl Ht)
    | exact (I_write (writeSize _) t b eq_refl Ht)
    | exact (I_write writeUniformSize t b eq_refl Ht)
    | exact (I_write (writeRefractionIndex _) t b eq_refl Ht)
    | exact (I_write writeUniformRefractionIndex t b eq_refl Ht)
    | exact (I_write (writeDispersion _) t b eq_refl Ht)
    | exact (I_write writeUniformDispersion t b eq_refl Ht)
    | exact (I_write (writeThickness _) t b eq_refl Ht)
    | exact (I_write writeUniformThickness t b eq_refl Ht)
    | exact (I_write (writePattern _) t b eq_refl Ht)
    | exact (I_write (writeUniformPattern _) t b eq_refl Ht)
    | exact (I_write (writeBackgroundTexture _) t b eq_refl Ht)
    | exact (I_write (writeMouseEnabled _) t b eq_refl Ht)
    | exact (I_write (writeSpeed _) t b eq_refl Ht)
    | exact (I_write writeIsDestroyed t b eq_refl Ht) ].

Ltac calmly :=
  repeat first
    [ triple_step
    | apply triple_dom; solve [sameFrames_auto]
    | by_calm ].

Lemma calm_setupWebGL : triple I setupWebGL I.
Proof. unfold setupWebGL. calmly. Qed.

Lemma calm_setupCanvas : triple I setupCanvas I.
Proof. unfold setupCanvas. calmly. Qed.

Lemma calm_setupEventListeners : triple I setupEventListeners I.
Proof. unfold setupEventListeners. calmly. Qed.

Lemma calm_setMouse (x y : number) : triple I (setMouse x y) I.
Proof. unfold setMouse. calmly. Qed.

Lemma calm_updateUniforms : triple I updateUniforms I.
Proof. unfold updateUniforms. calmly. Qed.

Lemma calm_setRefractionIndex (x : number) : triple I (setRefractionIndex x) I.
Proof. unfold setRefractionIndex. calmly. Qed.

Lemma calm_setDispersion (x : number) : triple I (setDispersion x) I.
Proof. unfold setDispersion. calmly. Qed.

Lemma calm_swapTexture (source : TextureSource) (newTexture : Handle) :
  triple I (swapTexture source newTexture) I.
Proof. unfold swapTexture. calmly. Qed.

#[local] Hint Resolve calm_setupWebGL calm_setupCanvas
  calm_setupEventListeners calm_setMouse calm_updateUniforms
  calm_setRefractionIndex calm_setDispersion calm_swapTexture : triples.

Lemma calm_perform (c : Call) : calmCall c = true -> triple I (perform c) I.
Proof.
  destruct c; cbn [calmCall perform]; intros Hc; try discriminate;
    unfold setShape, setSize, setThickness, setBackgroundPattern,
      setBackgroundTexture, setMaterial, setMousePosition,
      enableMouseTracking, setAnimationSpeed, resize, handleResize;
    calmly.
Qed.

Lemma calm_setBackgroundTexture_resume (url : string) :
  triple I (setBackgroundTexture_resume url) I.
Proof. unfold setBackgroundTexture_resume. calmly. Qed.

Lemma calm_dispatch (l : Listener) (handler : js unit) :
  triple I handler I -> triple I (dispatch l handler) I.
Proof. intros H. unfold dispatch, listening. calmly. Qed.

Lemma calm_handleMouseMove (x y : number) : triple I (handleMouseMove x y) I.
Proof. unfold handleMouseMove. calmly. Qed.

Lemma calm_handleMouseLeave : triple I handleMouseLeave I.
Proof. unfold handleMouseLeave. calmly. Qed.

End ClockFree.


(** *** Frame requests belong to the instance

    [owned]: every pending frame request is the one recorded in
    [animationId].  [idle]: no frame request is pending. *)

Lemma idle_owned (w : World) : idle w -> owned w.
Proof. intros H id Hin. rewrite H in Hin. destruct Hin. Qed.

Lemma owned_browser (t : Instance.t) (b b' : Browser.t) :
  frames b' = frames b -> owned (mkWorld t b) -> owned (mkWorld t b').
Proof. intros Hf H id Hin. cbn in *. rewrite Hf in Hin. apply H, Hin. Qed.

Lemma owned_write (wr : Write) (t : Instance.t) (b : Browser.t) :
  (forall id, wr <> writeAnimationId id) ->
  owned (mkWorld t b) -> owned (mkWorld (write wr t) b).
Proof.
  intros Hwr H id Hin. specialize (H id Hin). cbn in *.
  destruct wr; try exact H. destruct (Hwr id0 eq_refl).
Qed.

Lemma owned_calm (wr : Write) (t : Instance.t) (b : Browser.t) :
  calm wr = true -> owned (mkWorld t b) -> owned (mkWorld (write wr t) b).
Proof.
  intros Hc. apply owned_write. intros id ->. discriminate.
Qed.

Lemma idle_browser (t : Instance.t) (b b' : Browser.t) :
  frames b' = frames b -> idle (mkWorld t b) -> idle (mkWorld t b').
Proof. unfold idle. cbn. congruence. Qed.

Lemma idle_assign (f : Instance.t -> Instance.t) : triple idle (assign f) idle.
Proof. apply triple_assign. intros t b H. exact H. Qed.

Lemma filter_out_all (id : positive) (l : list positive) :
  (forall f, In f l -> f = id) ->
  filter (fun f => negb (Pos.eqb f id)) l = [].
Proof.
  induction l as [| f fs IH]; intros H; [reflexivity |].
  cbn. rewrite (H f (or_introl eq_refl)), Pos.eqb_refl. cbn.
  apply IH. intros g Hg. apply H. right. exact Hg.
Qed.

(** Removing the recorded request leaves none pending. *)
Lemma owned_cancel (t : Instance.t) (b : Browser.t) (id : positive) :
  owned (mkWorld t b) -> Instance.animationId t = Some id ->
  filter (fun f => negb (Pos.eqb f id)) (frames b) = [].
Proof.
  intros H Hid. apply filter_out_all. intros f Hin.
  specialize (H f Hin). cbn in H. congruence.
Qed.

Lemma owned_none (w : World) :
  owned w -> Instance.animationId (this w) = None -> idle w.
Proof.
  intros H Hid. unfold idle, owned in *.
  destruct (frames (browser w)) as [| f fs]; [reflexivity |].
  specialize (H f (or_introl eq_refl)). congruence.
Qed.

Lemma schedule_owned :
  triple idle
    (bind (dom requestAnimationFrame)
       (fun id => assign (Instance.set_animationId (Some id)))) owned.
Proof.
  intros [t b] H. unfold idle in H. cbn in H.
  unfold exec, bind, dom, lift, requestAnimationFrame, assign, modify; cbn.
  intros id Hin. cbn in *. rewrite H in Hin. cbn in Hin.
  destruct Hin as [<- | []]. reflexivity.
Qed.

Lemma render_owned : triple idle render owned.
Proof.
  unfold render.
  apply (triple_bind idle idle); [apply triple_field | apply idle_owned |].
  intros isDestroyed.
  apply (triple_bind idle idle); [apply triple_field | apply idle_owned |].
  intros state.
  destruct isDestroyed, state;
    try (apply (triple_weaken idle idle owned idle);
         [apply triple_ret | auto | apply idle_owned]).
  apply (triple_bind idle idle); [apply idle_assign | apply idle_owned |].
  intros _.
  apply (triple_bind idle idle); [apply idle_assign | apply idle_owned |].
  intros _.
  apply (triple_bind idle idle);
    [apply (triple_dom idle idle_browser); sameFrames_auto
    | apply idle_owned |].
  intros _.
  apply (triple_bind idle idle);
    [apply (calm_updateUniforms idle idle_browser); intros; assumption
    | apply idle_owned |].
  intros _.
  apply (triple_bind idle idle);
    [apply (triple_dom idle idle_browser); sameFrames_auto
    | apply idle_owned |].
  intros _.
  apply (triple_bind idle idle); [apply triple_field | apply idle_owned |].
  intros enabled. destruct enabled.
  - apply schedule_owned.
  - apply (triple_weaken idle idle owned idle);
      [apply triple_ret | auto | apply idle_owned].
Qed.

Lemma setAnimationEnabled_owned (enabled : bool) :
  triple owned (setAnimationEnabled enabled) owned.
Proof.
  apply triple_assign. intros t b H.
  apply (owned_write (writeAnimationEnabled enabled)); [discriminate | exact H].
Qed.

Lemma startAnimation_owned : triple owned startAnimation owned.
Proof.
  unfold startAnimation.
  apply triple_seq; [apply setAnimationEnabled_owned | intros _].
  apply triple_read. intros [id |].
  - apply (triple_weaken _ owned owned owned);
      [apply triple_ret | tauto | auto].
  - apply (triple_weaken _ idle owned owned); [apply render_owned | | auto].
    intros w [H Hid]. apply (owned_none w H Hid).
Qed.

Lemma stopAnimation_stopped : triple owned stopAnimation stopped.
Proof.
  intros [t b] H.
  unfold stopAnimation, setAnimationEnabled, exec, bind, field, gets, assign,
    modify, dom, lift, cancelAnimationFrame; cbn.
  destruct (Instance.animationId t) as [id |] eqn:Hid; cbn.
  - split; [| reflexivity]. unfold idle; cbn.
    apply (owned_cancel t b id H Hid).
  - split; [| reflexivity]. apply (owned_none (mkWorld t b) H Hid).
Qed.

Lemma stopAnimation_owned : triple owned stopAnimation owned.
Proof.
  apply (triple_weaken owned owned owned stopped);
    [apply stopAnimation_stopped | auto |].
  intros w [H _]. apply idle_owned, H.
Qed.

Section Owned.

Ltac by_owned := first [exact owned_browser | exact owned_calm].

Ltac ownedly :=
  repeat first
    [ triple_step
    | apply (triple_dom owned owned_browser); solve [sameFrames_auto] ].

#[local] Hint Resolve startAnimation_owned stopAnimation_owned : triples.
Lemma setupWebGL_owned : triple owned setupWebGL owned.
Proof. apply calm_setupWebGL; [apply owned_browser | apply owned_calm]. Qed.

Lemma setupCanvas_owned : triple owned setupCanvas owned.
Proof. apply calm_setupCanvas; [apply owned_browser | apply owned_calm]. Qed.

Lemma setupEventListeners_owned : triple owned setupEventListeners owned.
Proof.
  apply calm_setupEventListeners; [apply owned_browser | apply owned_calm].
Qed.

#[local] Hint Resolve setupWebGL_owned setupCanvas_owned
  setupEventListeners_owned : triples.

Lemma init_owned : triple owned init owned.
Proof. unfold init. ownedly. Qed.

Lemma handleContextRestored_owned : triple owned handleContextRestored owned.
Proof. unfold handleContextRestored. ownedly. Qed.

Lemma destroy_owned : triple owned destroy owned.
Proof.
  unfold destroy.
  apply triple_seq.
  { apply triple_assign. intros t b H.
    apply (owned_calm writeIsDestroyed); [reflexivity | exact H]. }
  intros _. apply triple_seq; [apply stopAnimation_owned | intros _].
  ownedly.
  apply triple_assign. intros t b H.
  apply (owned_calm (writeWebglState None)); [reflexivity | exact H].
Qed.

Lemma frameFires_owned (id : positive) :
  triple owned (handle (frameFires id)) owned.
Proof.
  intros [t b] H.
  unfold handle, takeFrame, exec, bind, dom, lift, gets, cancelAnimationFrame,
    modify, ret; cbn.
  destruct (existsb (Pos.eqb id) (frames b)) eqn:Hpending; cbn.
  - apply existsb_exists in Hpending as (f & Hin & Heq).
    apply Pos.eqb_eq in Heq. subst f.
    apply (render_owned (mkWorld t _)). unfold idle; cbn.
    apply (owned_cancel t b id H). apply (H id Hin).
  - intros f Hin. cbn in *. apply filter_In in Hin as [Hin _].
    apply (H f Hin).
Qed.

Lemma handle_owned (e : Event) : triple owned (handle e) owned.
Proof.
  destruct e as [c | | id | url | x y | | | | | h].
  - destruct (calmCall c) eqn:Hc.
    + apply calm_perform; solve [by_owned | exact Hc].
    + destruct c; try discriminate; cbn [handle perform].
      * apply startAnimation_owned.
      * apply stopAnimation_owned.
      * apply destroy_owned.
  - apply init_owned.
  - apply frameFires_owned.
  - apply calm_setBackgroundTexture_resume; by_owned.
  - apply calm_dispatch; try by_owned. apply calm_handleMouseMove; by_owned.
  - apply calm_dispatch; try by_owned. apply calm_handleMouseLeave; by_owned.
  - apply calm_dispatch; try by_owned. apply setupCanvas_owned.
  - apply calm_dispatch; try by_owned. apply stopAnimation_owned.
  - apply calm_dispatch; try by_owned. apply handleContextRestored_owned.
  - apply (triple_dom owned owned_browser). apply sameFrames_setHost.
Qed.

End Owned.

Lemma run_owned (events : list Event) (w : World) :
  owned w -> owned (run events w).
Proof.
  revert w. induction events as [| e events IH]; intros w H; [exact H |].
  cbn. apply IH. apply (handle_owned e w H).
Qed.


(** *** A stopped animation stays stopped

    [paused t0]: animation is disabled, no frame request is pending and the
    time accumulator reads [t0]. *)

Lemma paused_browser (t0 : number) (t : Instance.t) (b b' : Browser.t) :
  frames b' = frames b -> paused t0 (mkWorld t b) -> paused t0 (mkWorld t b').
Proof.
  intros Hf (He & Hi & Ht). repeat split; try assumption.
  apply (idle_browser t b b' Hf Hi).
Qed.

Lemma paused_write (t0 : number) (wr : Write) (t : Instance.t) (b : Browser.t) :
  wr <> writeTime -> wr <> writeAnimationEnabled true ->
  paused t0 (mkWorld t b) -> paused t0 (mkWorld (write wr t) b).
Proof.
  intros H1 H2 (He & Hi & Ht). unfold paused, enabledOf in *. cbn in *.
  destruct wr as [| | | | | | | | | | | | | | | | | | | | | | | [] | |];
    cbn; try congruence; repeat split; assumption.
Qed.

Lemma paused_calm (t0 : number) (wr : Write) (t : Instance.t) (b : Browser.t) :
  calm wr = true ->
  paused t0 (mkWorld t b) -> paused t0 (mkWorld (write wr t) b).
Proof.
  intros Hc. apply paused_write; intros ->; discriminate.
Qed.

Section Paused.

Variable t0 : number.

Ltac by_paused := first [exact (paused_browser t0) | exact (paused_calm t0)].

Ltac pausedly :=
  repeat first
    [ triple_step
    | apply (triple_dom (paused t0) (paused_browser t0));
      solve [sameFrames_auto] ].

Lemma stopAnimation_paused : triple (paused t0) stopAnimation (paused t0).
Proof.
  intros [t b] (He & Hi & Ht). unfold idle in Hi. cbn in Hi.
  unfold stopAnimation, setAnimationEnabled, exec, bind, field, gets, assign,
    modify, dom, lift, cancelAnimationFrame; cbn.
  destruct (Instance.animationId t) as [id |]; cbn;
    unfold paused, idle, enabledOf; cbn; rewrite ?Hi; cbn; auto.
Qed.

Lemma setupWebGL_paused : triple (paused t0) setupWebGL (paused t0).
Proof. apply calm_setupWebGL; by_paused. Qed.

Lemma setupCanvas_paused : triple (paused t0) setupCanvas (paused t0).
Proof. apply calm_setupCanvas; by_paused. Qed.

Lemma setupEventListeners_paused :
  triple (paused t0) setupEventListeners (paused t0).
Proof. apply calm_setupEventListeners; by_paused. Qed.

#[local] Hint Resolve stopAnimation_paused setupWebGL_paused
  setupCanvas_paused setupEventListeners_paused : triples.

(** A disabled animation is not started by [if (enabled) startAnimation()]. *)
Lemma startIfEnabled_paused (k : js unit) :
  triple (paused t0) k (paused t0) ->
  triple (paused t0)
    (bind
       (field (fun t =>
          AnimationConfig.enabled (Config.animation (Instance.config t))))
       (fun enabled => bind (when enabled startAnimation) (fun _ => k)))
    (paused t0).
Proof.
  intros Hk. apply triple_read. intros [|].
  - apply triple_false. intros w [(He & _) Hv].
    unfold enabledOf in He. congruence.
  - apply (triple_weaken _ (paused t0) (paused t0) (paused t0));
      [| tauto | auto].
    apply triple_seq; [apply triple_ret | intros _; exact Hk].
Qed.

Lemma init_paused : triple (paused t0) init (paused t0).
Proof.
  unfold init. apply triple_try; [| intros e; pausedly].
  apply triple_seq; [pausedly | intros supported].
  apply triple_seq; [pausedly | intros _].
  apply triple_seq; [pausedly | intros _].
  apply triple_seq; [pausedly | intros _].
  apply triple_seq; [pausedly | intros _].
  apply startIfEnabled_paused. pausedly.
Qed.

Lemma handleContextRestored_paused :
  triple (paused t0) handleContextRestored (paused t0).
Proof.
  unfold handleContextRestored. apply triple_try; [| intros e; pausedly].
  apply triple_seq; [pausedly | intros _].
  apply triple_read. intros [|].
  - apply triple_false. intros w [(He & _) Hv].
    unfold enabledOf in He. congruence.
  - apply (triple_weaken _ (paused t0) (paused t0) (paused t0));
      [apply triple_ret | tauto | auto].
Qed.

Lemma destroy_paused : triple (paused t0) destroy (paused t0).
Proof.
  unfold destroy.
  apply triple_seq.
  { apply triple_assign. intros t b H.
    apply (paused_calm t0 writeIsDestroyed); [reflexivity | exact H]. }
  intros _. apply triple_seq; [apply stopAnimation_paused | intros _].
  pausedly.
  apply triple_assign. intros t b H.
  apply (paused_calm t0 (writeWebglState None)); [reflexivity | exact H].
Qed.

(** No frame request is pending, so none can fire. *)
Lemma frameFires_paused (id : positive) :
  triple (paused t0) (handle (frameFires id)) (paused t0).
Proof.
  intros [t b] (He & Hi & Ht). unfold idle in Hi. cbn in Hi.
  unfold handle, takeFrame, exec, bind, dom, lift, gets, cancelAnimationFrame,
    modify, ret; cbn.
  rewrite Hi. cbn. unfold paused, idle; cbn. auto.
Qed.

Lemma handle_paused (e : Event) :
  leavesStopped e = true -> triple (paused t0) (handle e) (paused t0).
Proof.
  intros He. destruct e as [c | | id | url | x y | | | | | h].
  - destruct (calmCall c) eqn:Hc.
    + apply calm_perform; solve [by_paused | exact Hc].
    + destruct c; try discriminate; cbn [handle perform].
      * apply stopAnimation_paused.
      * apply destroy_paused.
  - apply init_paused.
  - apply frameFires_paused.
  - apply calm_setBackgroundTexture_resume; by_paused.
  - apply calm_dispatch; try by_paused. apply calm_handleMouseMove; by_paused.
  - apply calm_dispatch; try by_paused. apply calm_handleMouseLeave; by_paused.
  - apply calm_dispatch; try by_paused. apply setupCanvas_paused.
  - apply calm_dispatch; try by_paused. apply stopAnimation_paused.
  - apply calm_dispatch; try by_paused. apply handleContextRestored_paused.
  - apply (triple_dom (paused t0) (paused_browser t0)).
    apply sameFrames_setHost.
Qed.

Lemma run_paused (events : list Event) (w : World) :
  forallb leavesStopped events = true ->
  paused t0 w -> paused t0 (run events w).
Proof.
  revert w. induction events as [| e events IH]; intros w He H; [exact H |].
  cbn in He. apply andb_prop in He as [He Hes].
  cbn. apply (IH _ Hes). apply (handle_paused e He w H).
Qed.

End Paused.

(** *** The accumulator never runs backwards under a non-negative speed *)

Lemma ticking_write (t0 : number) (wr : Write) (t : Instance.t) :
  ticking t0 t -> ticking t0 (write wr t).
Proof.
  unfold ticking, speedOf. intros [Ht Hs].
  destruct wr; cbn; try (split; assumption).
  - split; [lra | assumption].
  - split; [assumption |]. apply Q.le_max_l.
Qed.

Lemma run_ticking (t0 : number) (events : list Event) (w : World) :
  ticking t0 (this w) -> ticking t0 (this (run events w)).
Proof. apply keeps_run, handle_writes, ticking_write. Qed.

Lemma new_idle (canvas : CanvasArgument) (config : PhysicsGlassConfig.t)
  (b : Browser.t) (w : World) :
  frames b = [] -> new canvas config b = Normal w ->
  idle w /\ Instance.animationId (this w) = None
  /\ Instance.time (this w) = 0.
Proof.
  intros Hb. unfold new, constructor, querySelector, validateConfig.
  unfold bind, gets, ret, throw.
  destruct canvas as [s | e]; cbn;
    try destruct (matches (host b) s); cbn;
    repeat match goal with
           | |- context [if ?c then _ else _] => destruct c; cbn
           end;
    intros E; try discriminate; injection E as <-; cbn; auto.
Qed.


(** The clock of an instance constructed in a browser with no frame
    request pending, after any history of events: if the speed is not
    negative, the time accumulator never decreases along any further events
    and the speed stays non-negative; [setAnimationSpeed] leaves the speed
    in [0, 5]; and once [stopAnimation] has returned, animation is
    disabled, no frame request is pending, and along events other than a
    call of [startAnimation] the accumulator keeps its value and no frame
    request appears. *)
Lemma clock_runs_forward_and_freezes (canvas : CanvasArgument)
  (config : PhysicsGlassConfig.t) (b : Browser.t)
  (history events : list Event) :
  frames b = [] ->
  match new canvas config b with
  | Throw _ => True
  | Normal w0 =>
      let w := run history w0 in
      (0 <= speedOf (this w) ->
       Instance.time (this w) <= Instance.time (this (run events w))
       /\ 0 <= speedOf (this (run events w)))
      /\ (forall speed,
            0 <= speedOf (this (exec (setAnimationSpeed speed) w)) <= 5)
      /\ (let w' := exec stopAnimation w in
          enabledOf (this w') = false
          /\ frames (browser w') = []
          /\ (forallb leavesStopped events = true ->
              Instance.time (this (run events w')) = Instance.time (this w')
              /\ frames (browser (run events w')) = []))
  end.
Proof.
  intros Hb. destruct (new canvas config b) as [w0 |] eqn:Hnew; [| exact I].
  destruct (new_idle canvas config b w0 Hb Hnew) as (Hidle & _).
  intros w.
  assert (Howned : owned w) by (apply run_owned, idle_owned, Hidle).
  split; [| split].
  - intros Hspeed.
    apply (run_ticking (Instance.time (this w)) events w).
    split; [apply Qle_refl | exact Hspeed].
  - intros speed. unfold speedOf. cbn.
    apply (clamp_range 0 5). discriminate.
  - intros w'.
    destruct (stopAnimation_stopped w Howned) as [Hi He]. fold w' in Hi, He.
    split; [exact He |]. split; [exact Hi |].
    intros Hevents.
    destruct (run_paused (Instance.time (this w')) events w' Hevents)
      as (_ & Hi' & Ht'); [repeat split; assumption |].
    split; [exact Ht' | exact Hi'].
Qed.

(** C7: the time accumulator can decrease.  [setAnimationSpeed] clamps
    the speed into [0, 5], but the constructor stores the speed of its
    configuration as given: an instance constructed with animation speed -1
    keeps -1 where the setter would have stored 0, is running after
    [init], and its accumulator goes from 0 to -0.016 with the frame of
    [init] and to -0.032 with the next. *)
Theorem negative_speed_rewinds_clock :
  exists w0,
    new (element 0%nat) rewindConfig freshBrowser = Normal w0
    /\ speedOf (this w0) = -1
    /\ speedOf (this (exec (setAnimationSpeed (-1)) w0)) = 0
    /\ Instance.time (this w0) = 0
    /\ enabledOf (this (run [initRuns] w0)) = true
    /\ frames (browser (run [initRuns] w0)) = [1%positive]
    /\ Instance.time (this (run [initRuns] w0)) == -0.016
    /\ Instance.time (this (run [initRuns; frameFires 1] w0)) == -0.032
    /\ Instance.time (this (run [initRuns; frameFires 1] w0))
       < Instance.time (this (run [initRuns] w0))
       < Instance.time (this w0).
Proof.
  eexists. split; [reflexivity |]. vm_compute. repeat split; reflexivity.
Qed.

(** *** Clamping setters *)

(** C8: [setSize(-1)] and [setSize(0.01)] are the same state transformer,
    both leaving 0.01 in the configuration and in the uniforms, and so are
    [setRefractionIndex(10)] and [setRefractionIndex(3)], both leaving 3. *)
Theorem clamped_setters_agree (w : World) :
  (setSize (-1) w = setSize 0.01 w
   /\ Config.size (Instance.config (this (exec (setSize (-1)) w))) = 0.01
   /\ ShaderUniforms.glassSize (Instance.uniforms (this (exec (setSize (-1)) w)))
      = 0.01)
  /\ (setRefractionIndex 10 w = setRefractionIndex 3 w
      /\ Config.refractionIndex
           (Instance.config (this (exec (setRefractionIndex 10) w))) = 3
      /\ ShaderUniforms.refractionIndex
           (Instance.uniforms (this (exec (setRefractionIndex 10) w))) = 3).
Proof. repeat split. Qed.


(** *** Disposal *)

Lemma filter_fixed {A : Type} (p : A -> bool) (l : list A) :
  (forall x, In x l -> p x = true) -> filter p l = l.
Proof.
  induction l as [| a l IH]; intros H; [reflexivity |].
  cbn. rewrite (H a (or_introl eq_refl)). f_equal.
  apply IH. intros x Hx. apply H. right. exact Hx.
Qed.

Lemma absent_filter (l : Listener) (ls : list Listener) :
  absent l (filter (fun k => negb (Listener_eqb l k)) ls).
Proof. intros k Hin. apply filter_In in Hin. apply Hin. Qed.

Lemma absent_filter_other (l m : Listener) (ls : list Listener) :
  absent l ls -> absent l (filter (fun k => negb (Listener_eqb m k)) ls).
Proof. intros H k Hin. apply filter_In in Hin. apply H, Hin. Qed.

Lemma destroy_disposed (w : World) :
  completion destroy w = Normal tt /\ disposed (exec destroy w).
Proof.
  destruct w as [[canvas config state id destroyed time mouse uniforms
                   cleanup buffer] b].
  unfold destroy, stopAnimation, setAnimationEnabled,
    WebGL.cleanupContextLossHandling, completion, exec, bind, when, field,
    gets, assign, modify, dom, lift, cancelAnimationFrame,
    removeEventListener, gl, ret, disposed, enabledOf.
  destruct id as [id |], cleanup, state as [[program locations [tex |]] |],
    buffer as [buffer |]; cbn -[Listener_eqb];
    repeat split; try discriminate;
    repeat first [ apply absent_filter | apply absent_filter_other ].
Qed.

Lemma destroy_again (w : World) :
  disposed w -> destroy w = (Normal tt, w).
Proof.
  destruct w as [[canvas [shape size index dispersion thickness pattern source
                          mouseConfig [enabled speed ripples] performance]
                   state id destroyed time mouse uniforms cleanup buffer]
                 [host log next pending nextId ls calls width height]].
  unfold disposed, enabledOf. cbn -[Listener_eqb].
  intros (-> & -> & -> & -> & Hmove & Hleave & Hresize & Hcontext).
  unfold destroy, stopAnimation, setAnimationEnabled,
    WebGL.cleanupContextLossHandling, bind, when, field,
    gets, assign, modify, dom, lift, cancelAnimationFrame,
    removeEventListener, gl, ret.
  cbn -[Listener_eqb].
  rewrite (filter_fixed _ ls Hmove), (filter_fixed _ ls Hleave),
    (filter_fixed _ ls Hresize).
  destruct cleanup; cbn -[Listener_eqb]; [| reflexivity].
  destruct (Hcontext eq_refl) as [Hlost Hrestored].
  rewrite (filter_fixed _ ls Hlost), (filter_fixed _ ls Hrestored).
  reflexivity.
Qed.



(** *** A texture change that fails *)

(** C6: on an instance that has its WebGL state, a texture change that
    fails only reports.  For an element, when the texture cannot be
    created, the promise is resolved at once.  For a URL the method suspends
    with nothing changed, and when the image later fails to load, or loads
    but the texture cannot be created, the rest of the method resolves the
    promise.  In each case [onError] is invoked once with the error, the
    instance (its bound texture and its stored [backgroundTexture] among
    the rest) is as it was, and no GPU object is released. *)
Theorem failed_texture_change_keeps_state (w : World) (source : TextureSource) :
  Instance.webglState (this w) <> None ->
  match source with
  | Image e =>
      createsTexture (host (browser w)) = false ->
      exists w',
        setBackgroundTexture source w = (Normal None, w')
        /\ onlyReports
             (PhysicsGlassError "Failed to create texture" TEXTURE_LOAD_FAILED)
             w w'
  | Url url =>
      setBackgroundTexture source w = (Normal (Some url), w)
      /\ forall later : World,
           (loads (host (browser later)) url = false ->
            exists w',
              setBackgroundTexture_resume url later = (Normal tt, w')
              /\ onlyReports
                   (PhysicsGlassError ("Failed to load image: " ++ url)
                      TEXTURE_LOAD_FAILED) later w')
           /\ (loads (host (browser later)) url = true ->
               createsTexture (host (browser later)) = false ->
               exists w',
                 setBackgroundTexture_resume url later = (Normal tt, w')
                 /\ onlyReports
                      (PhysicsGlassError "Failed to create texture"
                         TEXTURE_LOAD_FAILED) later w')
  end.
Proof.
  intros Hstate. destruct w as [t b].
  destruct source as [url | e].
  - split.
    + unfold setBackgroundTexture, bind, field, gets, ret. cbn in *.
      destruct (Instance.webglState t); [reflexivity | contradiction].
    + intros [t' b']. split.
      * intros Hload. cbn [browser] in Hload. eexists.
        unfold setBackgroundTexture_resume, WebGL.loadImageTexture,
          tryCatch, bind, dom, lift, gets, throw, invoke, modify. cbn.
        rewrite Hload. cbn. split; [reflexivity |].
        unfold onlyReports. cbn. repeat split; reflexivity.
      * intros Hload Hcreate. cbn [browser] in Hload, Hcreate. eexists.
        unfold setBackgroundTexture_resume, WebGL.loadImageTexture,
          WebGL.createTextureFromElement, create, gl, invoke,
          tryCatch, bind, dom, lift, gets, throw, modify. cbn.
        rewrite Hload. cbn. rewrite Hcreate. cbn. split; [reflexivity |].
        unfold onlyReports. cbn. repeat split; try reflexivity.
        rewrite filter_app. cbn. apply app_nil_r.
  - intros Hcreate. cbn in *. eexists.
    unfold setBackgroundTexture, WebGL.createTextureFromElement, create,
      gl, invoke, field, tryCatch, bind, dom, lift, gets, throw, modify,
      ret. cbn.
    destruct (Instance.webglState t); [| contradiction]. cbn.
    rewrite Hcreate. cbn. split; [reflexivity |].
    unfold onlyReports. cbn. repeat split; try reflexivity.
    rewrite filter_app. cbn. apply app_nil_r.
Qed.

(** The theorem at the ready instance and a URL. *)
Lemma failed_texture_change_keeps_state_witness :
  setBackgroundTexture (Url "missing.png") starvedWorld
  = (Normal (Some "missing.png"), starvedWorld)
  /\ forall later : World,
       (loads (host (browser later)) "missing.png" = false ->
        exists w',
          setBackgroundTexture_resume "missing.png" later = (Normal tt, w')
          /\ onlyReports
               (PhysicsGlassError ("Failed to load image: " ++ "missing.png")
                  TEXTURE_LOAD_FAILED) later w')
       /\ (loads (host (browser later)) "missing.png" = true ->
           createsTexture (host (browser later)) = false ->
           exists w',
             setBackgroundTexture_resume "missing.png" later = (Normal tt, w')
             /\ onlyReports
                  (PhysicsGlassError "Failed to create texture"
                     TEXTURE_LOAD_FAILED) later w').
Proof.
  apply (failed_texture_change_keeps_state starvedWorld (Url "missing.png")).
  vm_compute. discriminate.
Defined.


(** *** The constructor *)

Lemma le_true (a b : number) : le a b = true <-> a <= b.
Proof. apply Qle_bool_iff. Qed.

Lemma lt_true (a b : number) : lt a b = true <-> a < b.
Proof.
  unfold lt. rewrite negb_true_iff. split.
  - intros H. apply Qnot_le_lt. intros Hle.
    apply Qle_bool_iff in Hle. congruence.
  - intros H. destruct (Qle_bool b a) eqn:E; [| reflexivity].
    apply Qle_bool_iff in E. exfalso. apply (Qlt_not_le _ _ H E).
Qed.

Lemma size_test (c : Config.t) :
  le (Config.size c) 0 || gt (Config.size c) 1 = false <-> sizeInRange c.
Proof.
  unfold sizeInRange, gt. rewrite orb_false_iff. split.
  - intros [H1 H2]. split.
    + apply Qnot_le_lt. intros H. apply le_true in H. congruence.
    + apply Qnot_lt_le. intros H. apply lt_true in H. congruence.
  - intros [H1 H2]. split.
    + destruct (le (Config.size c) 0) eqn:E; [| reflexivity].
      apply le_true in E. exfalso. apply (Qlt_not_le _ _ H1 E).
    + destruct (lt 1 (Config.size c)) eqn:E; [| reflexivity].
      apply lt_true in E. exfalso. apply (Qlt_not_le _ _ E H2).
Qed.

(** The test of the refraction index lets [NaN] through. *)
Lemma index_test (c : Config.t) :
  Double.lt (Config.refractionIndex c) 1
  || Double.gt (Config.refractionIndex c) 3 = false
  <-> betweenOrNaN 1 3 (Config.refractionIndex c).
Proof.
  destruct (Config.refractionIndex c) as [x |]; cbn; [| tauto].
  unfold gt. rewrite orb_false_iff. split.
  - intros [H1 H2]. split.
    + apply Qnot_lt_le. intros H. apply lt_true in H. congruence.
    + apply Qnot_lt_le. intros H. apply lt_true in H. congruence.
  - intros [H1 H2]. split.
    + destruct (lt x 1) eqn:E; [| reflexivity].
      apply lt_true in E. exfalso. apply (Qlt_not_le _ _ E H1).
    + destruct (lt 3 x) eqn:E; [| reflexivity].
      apply lt_true in E. exfalso. apply (Qlt_not_le _ _ E H2).
Qed.

Lemma validateConfig_cases {S : Type} (c : Config.t) (s : S) :
  (~ (sizeInRange c /\ betweenOrNaN 1 3 (Config.refractionIndex c))
   /\ exists message,
        validateConfig c s
        = (Throw (PhysicsGlassError message INVALID_CONFIGURATION), s))
  \/ (sizeInRange c /\ betweenOrNaN 1 3 (Config.refractionIndex c)
      /\ validateConfig c s = (Normal tt, s)).
Proof.
  pose proof (size_test c) as Hsize. pose proof (index_test c) as Hindex.
  unfold validateConfig, throw, ret.
  destruct (le _ 0 || gt _ 1).
  { left. split; [| eexists; reflexivity].
    intros [H _]. apply Hsize in H. discriminate. }
  destruct (Double.lt _ 1 || Double.gt _ 3).
  { left. split; [| eexists; reflexivity].
    intros [_ H]. apply Hindex in H. discriminate. }
  right. split; [tauto |]. split; [tauto | reflexivity].
Qed.

(** The merged refraction index is a number: the one given, or 1.5. *)
Lemma spread_index (h : Host) (config : PhysicsGlassConfig.t) :
  let c := spread (DEFAULT_CONFIG h) config in
  betweenOrNaN 1 3 (Config.refractionIndex c) <-> indexInRange c.
Proof.
  unfold indexInRange. cbn.
  destruct (PhysicsGlassConfig.refractionIndex config); cbn; tauto.
Qed.

(** The three ways the constructor ends. *)
Lemma constructor_cases (canvas : CanvasArgument)
  (config : PhysicsGlassConfig.t) (b : Browser.t) :
  let c := spread (DEFAULT_CONFIG (host b)) config in
  (resolves canvas b = false
   /\ exists message,
        constructor canvas config b
        = (Throw (PhysicsGlassError message CANVAS_NOT_FOUND), b))
  \/ (resolves canvas b = true /\ ~ (sizeInRange c /\ indexInRange c)
      /\ exists message,
           constructor canvas config b
           = (Throw (PhysicsGlassError message INVALID_CONFIGURATION), b))
  \/ (resolves canvas b = true /\ sizeInRange c /\ indexInRange c
      /\ exists e, constructor canvas config b = (Normal (built e c b), b)).
Proof.
  intros c. subst c.
  pose proof (spread_index (host b) config) as Hindex. cbv zeta in Hindex.
  destruct (validateConfig_cases (spread (DEFAULT_CONFIG (host b)) config) b)
    as [(Hno & message & E) | (H1 & H2 & E)];
    rewrite Hindex in *;
    unfold constructor, querySelector, bind, gets, ret, throw;
    destruct canvas as [s | e]; cbn [resolves]; cbv beta iota zeta;
    try (destruct (matches (host b) s) eqn:Hmatch; cbv beta iota zeta);
    rewrite ?E;
    try (left; split; [reflexivity | eexists; reflexivity]);
    right.
  - left. split; [reflexivity |]. split; [exact Hno |]. eexists; reflexivity.
  - left. split; [reflexivity |]. split; [exact Hno |]. eexists; reflexivity.
  - right. repeat (split; [assumption || reflexivity |]).
    eexists; reflexivity.
  - right. repeat (split; [assumption || reflexivity |]).
    eexists; reflexivity.
Qed.


Lemma new_cases (canvas : CanvasArgument) (config : PhysicsGlassConfig.t)
  (b : Browser.t) :
  let c := spread (DEFAULT_CONFIG (host b)) config in
  match new canvas config b with
  | Normal w0 =>
      sizeInRange c /\ indexInRange c
      /\ exists e, w0 = mkWorld (built e c b) b
  | Throw error =>
      (resolves canvas b = false
       /\ exists message, error = PhysicsGlassError message CANVAS_NOT_FOUND)
      \/ (resolves canvas b = true /\ ~ (sizeInRange c /\ indexInRange c)
          /\ exists message,
               error = PhysicsGlassError message INVALID_CONFIGURATION)
  end.
Proof.
  intros c. unfold new.
  destruct (constructor_cases canvas config b)
    as [(Hr & m & E) | [(Hr & Hno & m & E) | (Hr & H1 & H2 & e & E)]];
    rewrite E.
  - left. eauto.
  - right. eauto.
  - eauto.
Qed.


(** A size of 2 is not clamped at construction: the constructor throws. *)
Lemma oversize_is_rejected :
  Config.size (spread (DEFAULT_CONFIG (host freshBrowser)) oversizeConfig) = 2
  /\ new (element 0%nat) oversizeConfig freshBrowser
     = Throw
         (PhysicsGlassError "Glass size must be between 0 and 1"
            INVALID_CONFIGURATION).
Proof. split; reflexivity. Qed.

(** *** Names that the table of presets inherits *)

Lemma lookup_inherited :
  Forall (fun name =>
            lookup name GLASS_MATERIALS
            = Some (MaterialValue.prototypeMember name))
    ObjectPrototype.
Proof. repeat constructor. Qed.

Lemma setMaterial_poisoned (name member : string) (w : World) :
  lookup name GLASS_MATERIALS = Some (MaterialValue.prototypeMember member) ->
  completion (setMaterial (named name)) w = Normal tt
  /\ poisoned member w (exec (setMaterial (named name)) w).
Proof.
  intros H. destruct w as [t b]. unfold setMaterial. rewrite H.
  repeat split.
Qed.

Lemma poisoned_outside (member : string) (w w' : World) :
  poisoned member w w' -> ~ inRange (this w').
Proof.
  intros (H & _) ((_ & Hindex) & _). rewrite H in Hindex. exact Hindex.
Qed.

(** C3: the refraction index does not always stay in its range.  The table
    of presets is a plain object, so [setMaterial] with one of the names it
    inherits from [Object.prototype], [toString] among them, finds a value
    that is no material, reads [undefined] for its index and dispersion,
    and stores [NaN] for both, in the configuration and in the uniforms: no
    exception is thrown, [onMaterialChange] is invoked, and the index is
    outside [1, 3].  On the ready instance the frame that follows uploads
    [NaN] as [u_refractionIndex]. *)
Theorem inherited_name_stores_NaN :
  (forall w : World,
     Forall (fun name =>
               let w' := exec (setMaterial (named name)) w in
               completion (setMaterial (named name)) w = Normal tt
               /\ poisoned name w w' /\ ~ inRange (this w'))
       ObjectPrototype)
  /\ (let w :=
        step readyWorld (hostCalls (callSetMaterial (named "toString"))) in
      inRange (this readyWorld)
      /\ Config.refractionIndex (Instance.config (this w)) = NaN
      /\ In (GL.uniform1f "u_refractionIndex" NaN)
           (glLog (browser (step w (frameFires 1))))).
Proof.
  split.
  - intros w. pose proof lookup_inherited as H.
    rewrite Forall_forall in *. intros name Hin.
    destruct (setMaterial_poisoned name name w (H name Hin)) as [Hc Hp].
    split; [exact Hc |]. split; [exact Hp |].
    apply (poisoned_outside name w _ Hp).
  - cbv zeta. split; [| split].
    + vm_compute. repeat split; discriminate.
    + reflexivity.
    + vm_compute.
      repeat first [left; reflexivity | right].
Qed.

(** C10: the constructor stores dispersion and thickness as merged from
    the configuration, in [this.config] and in the uniforms alike; giving
    any two values for them changes neither whether the constructor throws
    nor what it throws, and when it returns the uniforms hold exactly those
    values.  The ranges [0, 0.2] and [0.1, 2] are those of [setDispersion]
    and [setThickness]. *)
Theorem constructor_takes_dispersion_and_thickness_as_given
  (canvas : CanvasArgument) (config : PhysicsGlassConfig.t) (b : Browser.t)
  (dispersion thickness x : number) (w : World) :
  (let given := spread (DEFAULT_CONFIG (host b)) config in
   match constructor canvas config b with
   | (Normal t, _) =>
       Instance.config t = given
       /\ ShaderUniforms.dispersion (Instance.uniforms t)
          = Config.dispersion given
       /\ ShaderUniforms.thickness (Instance.uniforms t)
          = Config.thickness given
   | (Throw _, _) => True
   end)
  /\ (match
        constructor canvas
          (withDispersionAndThickness dispersion thickness config) b
      with
      | (Normal t, _) =>
          ShaderUniforms.dispersion (Instance.uniforms t) = dispersion
          /\ ShaderUniforms.thickness (Instance.uniforms t) = thickness
          /\ exists t0, constructor canvas config b = (Normal t0, b)
      | (Throw error, _) => constructor canvas config b = (Throw error, b)
      end)
  /\ (let t := this (exec (setDispersion x) w) in
      between 0 0.2 (Config.dispersion (Instance.config t))
      /\ ShaderUniforms.dispersion (Instance.uniforms t)
         = Config.dispersion (Instance.config t))
  /\ (let t := this (exec (setThickness x) w) in
      0.1 <= Config.thickness (Instance.config t) <= 2
      /\ ShaderUniforms.thickness (Instance.uniforms t)
         = Config.thickness (Instance.config t)).
Proof.
  split; [| split; [| split]].
  - intros given.
    destruct (constructor_cases canvas config b)
      as [(Hr & m & E) | [(Hr & Hno & m & E) | (Hr & H1 & H2 & e & E)]];
      rewrite E; [exact I | exact I |].
    repeat split.
  - unfold constructor, querySelector, validateConfig, bind, gets, ret, throw.
    destruct canvas as [s | e]; cbv beta iota zeta;
      try (destruct (matches (host b) s); cbv beta iota zeta);
      try reflexivity;
      cbn [spread Config.size Config.refractionIndex
           withDispersionAndThickness PhysicsGlassConfig.size
           PhysicsGlassConfig.refractionIndex];
      destruct (le _ 0 || gt _ 1); try reflexivity;
      destruct (Double.lt _ 1 || Double.gt _ 3); try reflexivity;
      cbn; repeat split; eexists; reflexivity.
  - cbn. split; [| reflexivity]. apply (clamp_range 0 0.2). discriminate.
  - cbn. split; [| reflexivity]. apply (clamp_range 0.1 2). discriminate.
Qed.

(** A dispersion of 5 and a thickness of -3 are accepted and uploaded as
    they are; the setters would have stored 0.2 and 0.1. *)
Example wild_dispersion_and_thickness_accepted :
  exists w0,
    new (element 0%nat) wildConfig freshBrowser = Normal w0
    /\ ShaderUniforms.dispersion (Instance.uniforms (this w0)) = 5
    /\ ShaderUniforms.thickness (Instance.uniforms (this w0)) = -3
    /\ Config.dispersion
         (Instance.config (this (exec (setDispersion 5) w0))) = 0.2
    /\ Config.thickness
         (Instance.config (this (exec (setThickness (-3)) w0))) = 0.1.
Proof. eexists. repeat split. Qed.

(** *** Methods that never throw *)

Lemma returns_ret {S A : Type} (a : A) : returns (@ret Error S A a).
Proof. intros s. exists a. reflexivity. Qed.

Lemma returns_bind {S A C : Type} (c : M Error S A) (k : A -> M Error S C) :
  returns c -> (forall a, returns (k a)) -> returns (bind c k).
Proof.
  intros Hc Hk s. destruct (Hc s) as [a Ha]. unfold bind.
  destruct (c s) as [[a' | e] s']; cbn in Ha; [| discriminate].
  apply Hk.
Qed.

(** A [try] whose [catch] clause returns does. *)
Lemma returns_tryCatch {S A : Type} (c : M Error S A)
  (h : Error -> M Error S A) :
  (forall e, returns (h e)) -> returns (tryCatch c h).
Proof.
  intros Hh s. unfold tryCatch.
  destruct (c s) as [[a | e] s']; [exists a; reflexivity | apply Hh].
Qed.

Lemma returns_when {S : Type} (b : bool) (c : M Error S unit) :
  returns c -> returns (when b c).
Proof. intros Hc. destruct b; [exact Hc | apply returns_ret]. Qed.

Lemma returns_dom {A : Type} (c : B A) : returns c -> returns (dom c).
Proof.
  intros Hc w. destruct (Hc (browser w)) as [a Ha]. exists a.
  unfold dom, lift. destruct (c (browser w)). exact Ha.
Qed.

Ltac returns_step :=
  first
    [ apply returns_ret
    | apply returns_tryCatch; intros ?
    | apply returns_bind; [| intros ?]
    | apply returns_when
    | apply returns_dom
    | match goal with
      | |- returns (match ?x with _ => _ end) => destruct x
      | |- returns (if ?x then _ else _) => destruct x
      end
    | intros ?; eexists; reflexivity ].

Ltac returns_auto := repeat first [assumption | returns_step].

Lemma returns_updateUniforms : returns updateUniforms.
Proof. unfold updateUniforms. returns_auto. Qed.

Lemma returns_render : returns render.
Proof. pose proof returns_updateUniforms. unfold render. returns_auto. Qed.

Lemma returns_setupCanvas : returns setupCanvas.
Proof. unfold setupCanvas. returns_auto. Qed.

Lemma returns_setupEventListeners : returns setupEventListeners.
Proof.
  unfold setupEventListeners, WebGL.setupContextLossHandling. returns_auto.
Qed.

Lemma returns_startAnimation : returns startAnimation.
Proof.
  pose proof returns_render.
  unfold startAnimation, setAnimationEnabled. returns_auto.
Qed.

Lemma returns_stopAnimation : returns stopAnimation.
Proof. unfold stopAnimation, setAnimationEnabled. returns_auto. Qed.

Lemma returns_destroy : returns destroy.
Proof.
  pose proof returns_stopAnimation.
  unfold destroy, WebGL.cleanupContextLossHandling. returns_auto.
Qed.

Lemma returns_perform (c : Call) : returns (perform c).
Proof.
  pose proof returns_startAnimation. pose proof returns_stopAnimation.
  pose proof returns_destroy. pose proof returns_setupCanvas.
  destruct c; cbn [perform];
    unfold setShape, setSize, setRefractionIndex, setDispersion, setThickness,
      setBackgroundPattern, setBackgroundTexture, setMaterial,
      setRefractionIndex, setDispersion, setMousePosition,
      enableMouseTracking, setMousePosition, setMouse, setAnimationSpeed,
      resize, handleResize;
    returns_auto.
Qed.

Lemma returns_handle (e : Event) : e <> initRuns -> returns (handle e).
Proof.
  pose proof returns_perform. pose proof returns_render.
  pose proof returns_stopAnimation. pose proof returns_setupCanvas.
  pose proof returns_startAnimation.
  intros He. destruct e; try contradiction; cbn [handle];
    unfold takeFrame, setBackgroundTexture_resume, dispatch, listening,
      handleMouseMove, handleMouseLeave, setMouse, handleResize,
      handleContextLoss, handleContextRestored;
    repeat first [solve [auto] | returns_step].
Qed.

(** X18: nothing that happens to an instance after its construction
    throws, except [init]: every call of the public API, every frame,
    every DOM event and the rest of a suspended [setBackgroundTexture]
    return normally, the configured callbacks being taken to return. *)
Theorem only_init_can_fail (e : Event) (w : World) :
  e <> initRuns -> completion (handle e) w = Normal tt.
Proof.
  intros He. destruct (returns_handle e He w) as [[] H]. exact H.
Qed.

(** *** The pointer *)

Lemma ratio_in_unit (x lo size : number) :
  0 < size -> lo <= x <= lo + size ->
  0 <= (x - lo) / size <= 1.
Proof.
  intros Hsize [H1 H2]. split.
  - apply Qle_shift_div_l; [exact Hsize | lra].
  - apply Qle_shift_div_r; [exact Hsize | lra].
Qed.

(** X19: [handleMouseMove] does nothing when [followCursor] is off.  When
    it is on and the canvas rectangle has a positive size, it stores the
    pointer's position relative to the rectangle, with y pointing up, in
    [mousePos] and in the uniforms, and touches nothing of the browser; for
    a pointer inside the rectangle both coordinates lie in [0, 1], the left
    edge maps to 0 and the top edge to 1. *)
Theorem pointer_maps_into_unit_square (w : World) (clientX clientY : number) :
  let h := host (browser w) in
  let x := (clientX - rectLeft h) / rectWidth h in
  let y := 1.0 - (clientY - rectTop h) / rectHeight h in
  let w' := exec (handleMouseMove clientX clientY) w in
  0 < rectWidth h -> 0 < rectHeight h ->
  if followsCursor (this w) then
    Instance.mousePos (this w') = (x, y)
    /\ ShaderUniforms.mousePos (Instance.uniforms (this w')) = (x, y)
    /\ browser w' = browser w
    /\ (rectLeft h <= clientX <= rectLeft h + rectWidth h ->
        0 <= x <= 1 /\ (clientX == rectLeft h -> x == 0))
    /\ (rectTop h <= clientY <= rectTop h + rectHeight h ->
        0 <= y <= 1 /\ (clientY == rectTop h -> y == 1))
  else handleMouseMove clientX clientY w = (Normal tt, w).
Proof.
  intros h x y w' Hw Hh. destruct w as [t b].
  unfold followsCursor. cbn [this browser] in *.
  destruct (MouseConfig.followCursor (Config.mouse (Instance.config t)))
    eqn:Hfollow.
  - unfold w', handleMouseMove, setMouse, exec, bind, field, gets, dom, lift,
      assign, modify, ret. cbn. rewrite Hfollow. cbn.
    split; [reflexivity |]. split; [reflexivity |].
    split; [destruct b; reflexivity |]. split.
    + intros Hx. split.
      * apply (ratio_in_unit clientX (rectLeft h) (rectWidth h) Hw Hx).
      * intros E. unfold x. rewrite E. unfold Qdiv. ring.
    + intros Hy.
      pose proof (ratio_in_unit clientY (rectTop h) (rectHeight h) Hh Hy)
        as Ry.
      unfold y. set (q := (clientY - rectTop h) / rectHeight h) in *.
      split; [lra |].
      intros E. unfold q. rewrite E. unfold Qdiv. ring.
  - unfold handleMouseMove, bind, field, gets, ret. cbn. rewrite Hfollow.
    reflexivity.
Qed.

(** X20: [enableMouseTracking] returns normally, stores the flag, and
    neither adds nor removes a listener, nor changes anything else of the
    browser.  Enabling moves nothing; disabling puts the glass at the
    configured centre, clamped into the unit square.  Since
    [handleMouseMove] reads [followCursor] only, the next pointer move puts
    the glass where it would have put it without the call, whatever the
    flag. *)
Theorem tracking_flag_moves_no_listener (w : World) (enabled : bool)
  (clientX clientY : number) :
  let w1 := exec (enableMouseTracking enabled) w in
  completion (enableMouseTracking enabled) w = Normal tt
  /\ MouseConfig.enabled (Config.mouse (Instance.config (this w1))) = enabled
  /\ followsCursor (this w1) = followsCursor (this w)
  /\ browser w1 = browser w
  /\ (enabled = true ->
      Instance.mousePos (this w1) = Instance.mousePos (this w)
      /\ Instance.uniforms (this w1) = Instance.uniforms (this w))
  /\ (enabled = false ->
      let centre :=
        (Math_max 0 (Math_min 1 (fst (centreOf (this w)))),
         Math_max 0 (Math_min 1 (snd (centreOf (this w))))) in
      Instance.mousePos (this w1) = centre
      /\ ShaderUniforms.mousePos (Instance.uniforms (this w1)) = centre)
  /\ (existsb (Listener_eqb mousemove) (listeners (browser w)) = true ->
      followsCursor (this w) = true ->
      let moved := step w (mouseMoves clientX clientY) in
      let moved1 := step w1 (mouseMoves clientX clientY) in
      Instance.mousePos (this moved1) = Instance.mousePos (this moved)
      /\ ShaderUniforms.mousePos (Instance.uniforms (this moved1))
         = ShaderUniforms.mousePos (Instance.uniforms (this moved))).
Proof.
  destruct w as [t b]. intros w1.
  split; [destruct enabled; reflexivity |].
  split; [destruct enabled; reflexivity |].
  split; [destruct enabled; reflexivity |].
  split; [destruct enabled; reflexivity |].
  split; [intros ->; split; reflexivity |].
  split; [intros ->; split; reflexivity |].
  intros Hl Hf. unfold followsCursor in Hf. cbn in Hl, Hf.
  unfold w1, step, handle, dispatch, listening, handleMouseMove,
    enableMouseTracking, setMousePosition, setMouse,
    exec, bind, when, field, gets, dom, lift, assign, modify, ret.
  destruct enabled; cbn; rewrite Hl; cbn; rewrite Hf; cbn;
    split; reflexivity.
Qed.

(** *** Materials *)

Lemma own_absent (name : string) (table : list (string * GlassMaterial.t)) :
  ~ In name (map fst table) -> own name table = None.
Proof.
  induction table as [| [key mat] table IH]; intros H; [reflexivity |].
  cbn in *. destruct (String.eqb key name) eqn:E.
  - apply String.eqb_eq in E. tauto.
  - apply IH. tauto.
Qed.

Lemma lookup_undefined (name : string) :
  ~ In name (map fst GLASS_MATERIALS) -> ~ In name ObjectPrototype ->
  lookup name GLASS_MATERIALS = None.
Proof.
  intros Hown Hproto. unfold lookup. rewrite (own_absent _ _ Hown).
  destruct (existsb (String.eqb name) ObjectPrototype) eqn:E; [| reflexivity].
  apply existsb_exists in E as (key & Hin & Heq).
  apply String.eqb_eq in Heq. subst key. contradiction.
Qed.

Lemma lookup_preset (name : string) (mat : GlassMaterial.t) :
  In (name, mat) GLASS_MATERIALS ->
  lookup name GLASS_MATERIALS = Some (MaterialValue.aMaterial mat).
Proof.
  intros H. cbn in H.
  destruct H as [H | [H | [H | [H | [H | []]]]]];
    injection H as <- <-; reflexivity.
Qed.

Lemma setMaterial_applied (mat : GlassMaterial.t) (w : World) :
  completion (setMaterial (material mat)) w = Normal tt
  /\ applied mat w (exec (setMaterial (material mat)) w).
Proof. destruct w as [t b]. repeat split. Qed.

(** X21: what [setMaterial] does with each kind of argument.  A name that
    is neither a preset nor a name of [Object.prototype] changes nothing
    and invokes no callback.  The name of a preset stores the preset's
    refraction index and dispersion as they are, none of the five being
    altered by the clamping, and invokes [onMaterialChange] with it.  A
    name of [Object.prototype], which the table of presets inherits,
    stores [NaN] for both and invokes [onMaterialChange] with the inherited
    member.  A material object has both stored clamped, into [1, 3] and
    [0, 0.2], and is handed to [onMaterialChange] as given. *)
Theorem material_presets (w : World) :
  (forall name,
     ~ In name (map fst GLASS_MATERIALS) -> ~ In name ObjectPrototype ->
     setMaterial (named name) w = (Normal tt, w))
  /\ (forall name mat,
        In (name, mat) GLASS_MATERIALS ->
        let w' := exec (setMaterial (named name)) w in
        applied mat w w'
        /\ Config.refractionIndex (Instance.config (this w'))
           = GlassMaterial.refractionIndex mat
        /\ Config.dispersion (Instance.config (this w'))
           = GlassMaterial.dispersion mat)
  /\ Forall (fun name =>
               completion (setMaterial (named name)) w = Normal tt
               /\ poisoned name w (exec (setMaterial (named name)) w))
       ObjectPrototype
  /\ (forall mat,
        completion (setMaterial (material mat)) w = Normal tt
        /\ applied mat w (exec (setMaterial (material mat)) w)).
Proof.
  split; [| split; [| split]].
  - intros name Hown Hproto. unfold setMaterial.
    rewrite (lookup_undefined name Hown Hproto). reflexivity.
  - intros name mat H w'.
    assert (E : w' = exec (setMaterial (material mat)) w).
    { unfold w', setMaterial. rewrite (lookup_preset name mat H).
      reflexivity. }
    rewrite E. split; [apply setMaterial_applied |].
    cbn in H.
    destruct H as [H | [H | [H | [H | [H | []]]]]];
      injection H as <- <-; split; reflexivity.
  - pose proof lookup_inherited as H. rewrite Forall_forall in *.
    intros name Hin. apply (setMaterial_poisoned name name w (H name Hin)).
  - intros mat. apply setMaterial_applied.
Qed.

(** *** One frame request at a time *)

Lemma idle_single (w : World) : idle w -> single w.
Proof. intros H. left. exact H. Qed.

Lemma single_owned (w : World) : single w -> owned w.
Proof.
  intros [H | (id & Hf & Hid)]; [apply idle_owned, H |].
  intros f Hin. rewrite Hf in Hin. destruct Hin as [<- | []]. exact Hid.
Qed.

Lemma single_browser (t : Instance.t) (b b' : Browser.t) :
  frames b' = frames b -> single (mkWorld t b) -> single (mkWorld t b').
Proof.
  intros Hf [H | (id & Hfr & Hid)].
  - left. apply (idle_browser t b b' Hf H).
  - right. exists id. cbn in *. split; [congruence | exact Hid].
Qed.

Lemma single_calm (wr : Write) (t : Instance.t) (b : Browser.t) :
  calm wr = true -> single (mkWorld t b) -> single (mkWorld (write wr t) b).
Proof.
  intros Hc [H | (id & Hfr & Hid)]; [left; exact H |].
  right. exists id. split; [exact Hfr |]. cbn in *.
  destruct wr; try discriminate; exact Hid.
Qed.

Lemma schedule_single :
  triple idle
    (bind (dom requestAnimationFrame)
       (fun id => assign (Instance.set_animationId (Some id)))) single.
Proof.
  intros [t b] H. unfold idle in H. cbn in H.
  unfold exec, bind, dom, lift, requestAnimationFrame, assign, modify; cbn.
  right. exists (nextFrame b). cbn. rewrite H. split; reflexivity.
Qed.

Lemma render_single : triple idle render single.
Proof.
  unfold render.
  apply (triple_bind idle idle); [apply triple_field | apply idle_single |].
  intros isDestroyed.
  apply (triple_bind idle idle); [apply triple_field | apply idle_single |].
  intros state.
  destruct isDestroyed, state;
    try (apply (triple_weaken idle idle single idle);
         [apply triple_ret | auto | apply idle_single]).
  apply (triple_bind idle idle); [apply idle_assign | apply idle_single |].
  intros _.
  apply (triple_bind idle idle); [apply idle_assign | apply idle_single |].
  intros _.
  apply (triple_bind idle idle);
    [apply (triple_dom idle idle_browser); sameFrames_auto
    | apply idle_single |].
  intros _.
  apply (triple_bind idle idle);
    [apply (calm_updateUniforms idle idle_browser); intros; assumption
    | apply idle_single |].
  intros _.
  apply (triple_bind idle idle);
    [apply (triple_dom idle idle_browser); sameFrames_auto
    | apply idle_single |].
  intros _.
  apply (triple_bind idle idle); [apply triple_field | apply idle_single |].
  intros enabled. destruct enabled.
  - apply schedule_single.
  - apply (triple_weaken idle idle single idle);
      [apply triple_ret | auto | apply idle_single].
Qed.

Lemma setAnimationEnabled_single (enabled : bool) :
  triple single (setAnimationEnabled enabled) single.
Proof.
  apply triple_assign. intros t b [H | (id & Hf & Hid)].
  - left. exact H.
  - right. exists id. split; [exact Hf | exact Hid].
Qed.

Lemma startAnimation_single : triple single startAnimation single.
Proof.
  unfold startAnimation.
  apply triple_seq; [apply setAnimationEnabled_single | intros _].
  apply triple_read. intros [id |].
  - apply (triple_weaken _ single single single);
      [apply triple_ret | tauto | auto].
  - apply (triple_weaken _ idle single single); [apply render_single | | auto].
    intros w [H Hid]. apply (owned_none w (single_owned w H) Hid).
Qed.

Lemma stopAnimation_single : triple single stopAnimation single.
Proof.
  intros w H. apply idle_single.
  apply (stopAnimation_stopped w (single_owned w H)).
Qed.

Ltac by_single := first [exact single_browser | exact single_calm].

Ltac singly :=
  repeat first
    [ triple_step
    | apply (triple_dom single single_browser); solve [sameFrames_auto] ].

Lemma setupWebGL_single : triple single setupWebGL single.
Proof. apply calm_setupWebGL; by_single. Qed.

Lemma setupCanvas_single : triple single setupCanvas single.
Proof. apply calm_setupCanvas; by_single. Qed.

Lemma setupEventListeners_single : triple single setupEventListeners single.
Proof. apply calm_setupEventListeners; by_single. Qed.

Section Single.

#[local] Hint Resolve startAnimation_single stopAnimation_single
  setupWebGL_single setupCanvas_single setupEventListeners_single : triples.

Lemma init_single : triple single init single.
Proof. unfold init. singly. Qed.

Lemma handleContextRestored_single :
  triple single handleContextRestored single.
Proof. unfold handleContextRestored. singly. Qed.

Lemma destroy_single : triple single destroy single.
Proof.
  unfold destroy.
  apply triple_seq.
  { apply triple_assign. intros t b H.
    apply (single_calm writeIsDestroyed); [reflexivity | exact H]. }
  intros _. apply triple_seq; [apply stopAnimation_single | intros _].
  singly.
  apply triple_assign. intros t b H.
  apply (single_calm (writeWebglState None)); [reflexivity | exact H].
Qed.

End Single.

Lemma frameFires_single (id : positive) :
  triple single (handle (frameFires id)) single.
Proof.
  intros [t b] H.
  unfold handle, takeFrame, exec, bind, dom, lift, gets, cancelAnimationFrame,
    modify, ret; cbn.
  destruct (existsb (Pos.eqb id) (frames b)) eqn:Hpending; cbn.
  - apply existsb_exists in Hpending as (f & Hin & Heq).
    apply Pos.eqb_eq in Heq. subst f.
    apply (render_single (mkWorld t _)). unfold idle; cbn.
    apply (owned_cancel t b id (single_owned _ H)).
    apply (single_owned _ H id Hin).
  - destruct H as [H | (f & Hf & Hid)].
    + left. unfold idle in *. cbn in *. rewrite H. reflexivity.
    + right. exists f. cbn in *. split; [| exact Hid].
      rewrite Hf in *. cbn in *.
      destruct (Pos.eqb id f) eqn:E; [discriminate |].
      rewrite Pos.eqb_sym, E. reflexivity.
Qed.

Lemma handle_single (e : Event) : triple single (handle e) single.
Proof.
  destruct e as [c | | id | url | x y | | | | | h].
  - destruct (calmCall c) eqn:Hc.
    + apply calm_perform; solve [by_single | exact Hc].
    + destruct c; try discriminate; cbn [handle perform].
      * apply startAnimation_single.
      * apply stopAnimation_single.
      * apply destroy_single.
  - apply init_single.
  - apply frameFires_single.
  - apply calm_setBackgroundTexture_resume; by_single.
  - apply calm_dispatch; try by_single. apply calm_handleMouseMove; by_single.
  - apply calm_dispatch; try by_single. apply calm_handleMouseLeave; by_single.
  - apply calm_dispatch; try by_single. apply setupCanvas_single.
  - apply calm_dispatch; try by_single. apply stopAnimation_single.
  - apply calm_dispatch; try by_single. apply handleContextRestored_single.
  - apply (triple_dom single single_browser). apply sameFrames_setHost.
Qed.

Lemma run_single (events : list Event) (w : World) :
  single w -> single (run events w).
Proof.
  revert w. induction events as [| e events IH]; intros w H; [exact H |].
  cbn. apply IH. apply (handle_single e w H).
Qed.

(** X22: for an instance constructed in a browser with no frame request
    pending, after any history of events at most one frame request is
    pending, and it is the one recorded in [animationId]: the render loop
    never runs twice over. *)
Theorem one_frame_request_at_a_time (canvas : CanvasArgument)
  (config : PhysicsGlassConfig.t) (b : Browser.t) (events : list Event) :
  frames b = [] ->
  match new canvas config b with
  | Throw _ => True
  | Normal w0 =>
      let w := run events w0 in
      frames (browser w) = []
      \/ exists id, frames (browser w) = [id]
                    /\ Instance.animationId (this w) = Some id
  end.
Proof.
  intros Hb. destruct (new canvas config b) as [w0 |] eqn:Hnew; [| exact I].
  destruct (new_idle canvas config b w0 Hb Hnew) as (Hidle & _).
  apply (run_single events w0 (idle_single w0 Hidle)).
Qed.

(** *** What the handlers leave of the browser *)

Section Footprint.

Context {X : Type} (proj : Browser.t -> X).

Lemma unchanged_ret {A : Type} (a : A) :
  unchanged proj (@ret Error Browser.t A a).
Proof. intros b. reflexivity. Qed.

Lemma unchanged_throw {A : Type} (e : Error) :
  unchanged proj (@throw Error Browser.t A e).
Proof. intros b. reflexivity. Qed.

Lemma unchanged_gets {A : Type} (f : Browser.t -> A) :
  unchanged proj (@gets Error Browser.t A f).
Proof. intros b. reflexivity. Qed.

Lemma unchanged_bind {A C : Type} (c : B A) (k : A -> B C) :
  unchanged proj c -> (forall a, unchanged proj (k a)) ->
  unchanged proj (bind c k).
Proof.
  intros Hc Hk b. specialize (Hc b). unfold bind.
  destruct (c b) as [[a | e] b']; cbn in *.
  - rewrite (Hk a b'). exact Hc.
  - exact Hc.
Qed.

Lemma unchanged_tryCatch {A : Type} (c : B A) (h : Error -> B A) :
  unchanged proj c -> (forall e, unchanged proj (h e)) ->
  unchanged proj (tryCatch c h).
Proof.
  intros Hc Hh b. specialize (Hc b). unfold tryCatch.
  destruct (c b) as [[a | e] b']; cbn in *.
  - exact Hc.
  - rewrite (Hh e b'). exact Hc.
Qed.

Hypothesis proj_gl : forall c, draws c = false -> unchanged proj (gl c).
Hypothesis proj_fresh : unchanged proj fresh.
Hypothesis proj_listen : forall l, unchanged proj (addEventListener l).
Hypothesis proj_unlisten : forall l, unchanged proj (removeEventListener l).
Hypothesis proj_invoke : forall c, unchanged proj (invoke c).
Hypothesis proj_cancel : forall id, unchanged proj (cancelAnimationFrame id).
Hypothesis proj_host : forall h, unchanged proj (setHost h).

Ltac unchanged_step :=
  first
    [ apply unchanged_ret | apply unchanged_throw | apply unchanged_gets
    | apply proj_fresh | apply proj_listen | apply proj_unlisten
    | apply proj_invoke | apply proj_cancel | apply proj_host
    | apply proj_gl; reflexivity
    | apply unchanged_bind; [| intros ?]
    | apply unchanged_tryCatch; [| intros ?]
    | match goal with
      | |- unchanged _ (match ?x with _ => _ end) => destruct x
      end ].

Ltac unchanged_auto := repeat first [assumption | unchanged_step].

Lemma unchanged_createShader (type : GL.ShaderType) :
  unchanged proj (WebGL.createShader type).
Proof. unfold WebGL.createShader, create. unchanged_auto. Qed.

Lemma unchanged_createProgram (v f : Handle) :
  unchanged proj (WebGL.createProgram v f).
Proof. unfold WebGL.createProgram, create. unchanged_auto. Qed.

Lemma unchanged_createTextureFromElement (p : GL.Pixels) :
  unchanged proj (WebGL.createTextureFromElement p).
Proof. unfold WebGL.createTextureFromElement, create. unchanged_auto. Qed.

Lemma unchanged_loadImageTexture (url : string) :
  unchanged proj (WebGL.loadImageTexture url).
Proof.
  pose proof unchanged_createTextureFromElement.
  unfold WebGL.loadImageTexture. unchanged_auto.
Qed.

Lemma unchanged_getUniformLocations (program : Handle) (names : list string) :
  unchanged proj (WebGL.getUniformLocations program names).
Proof.
  induction names as [| name names IH]; cbn [WebGL.getUniformLocations];
    unchanged_auto.
Qed.

Lemma unchanged_createQuadBuffer : unchanged proj WebGL.createQuadBuffer.
Proof. unfold WebGL.createQuadBuffer, create. unchanged_auto. Qed.

Variable I : World -> Prop.
Hypothesis I_browser :
  forall t b b', proj b' = proj b -> I (mkWorld t b) -> I (mkWorld t b').
Hypothesis I_write :
  forall wr t b, I (mkWorld t b) -> I (mkWorld (write wr t) b).

Lemma steady_dom {A : Type} (c : B A) : unchanged proj c -> triple I (dom c) I.
Proof.
  intros Hc. apply triple_dom_with. intros t b H.
  apply (I_browser t b); [apply Hc | exact H].
Qed.

Ltac by_any_write :=
  apply triple_assign;
  let t := fresh "t" in
  let b := fresh "b" in
  let Ht := fresh "Ht" in
  intros t b Ht;
  first
    [ exact (I_write (writeVertexBuffer _) t b Ht)
    | exact (I_write (writeWebglState _) t b Ht)
    | exact (I_write (writeResolution _) t b Ht)
    | exact (I_write writeCleanupContextLoss t b Ht)
    | exact (I_write (writeMousePos _) t b Ht)
    | exact (I_write (writeUniformMousePos _) t b Ht)
    | exact (I_write writeTime t b Ht)
    | exact (I_write writeUniformTime t b Ht)
    | exact (I_write (writeAnimationId _) t b Ht)
    | exact (I_write (writeShape _) t b Ht)
    | exact (I_write (writeUniformShape _) t b Ht)
    | exact (I_write (writeSize _) t b Ht)
    | exact (I_write writeUniformSize t b Ht)
    | exact (I_write (writeRefractionIndex _) t b Ht)
    | exact (I_write writeUniformRefractionIndex t b Ht)
    | exact (I_write (writeDispersion _) t b Ht)
    | exact (I_write writeUniformDispersion t b Ht)
    | exact (I_write (writeThickness _) t b Ht)
    | exact (I_write writeUniformThickness t b Ht)
    | exact (I_write (writePattern _) t b Ht)
    | exact (I_write (writeUniformPattern _) t b Ht)
    | exact (I_write (writeBackgroundTexture _) t b Ht)
    | exact (I_write (writeMouseEnabled _) t b Ht)
    | exact (I_write (writeAnimationEnabled _) t b Ht)
    | exact (I_write (writeSpeed _) t b Ht)
    | exact (I_write writeIsDestroyed t b Ht) ].

Ltac steadily :=
  pose proof unchanged_createShader; pose proof unchanged_createProgram;
  pose proof unchanged_createTextureFromElement;
  pose proof unchanged_loadImageTexture;
  pose proof unchanged_getUniformLocations;
  pose proof unchanged_createQuadBuffer;
  repeat first
    [ assumption
    | triple_step
    | apply steady_dom; solve [unchanged_auto]
    | by_any_write ].

Lemma steady_setupWebGL : triple I setupWebGL I.
Proof.
  unfold setupWebGL, WebGL.getWebGLContext, WebGL.createDefaultTexture.
  steadily.
Qed.

Lemma steady_setupEventListeners : triple I setupEventListeners I.
Proof.
  unfold setupEventListeners, WebGL.setupContextLossHandling. steadily.
Qed.

Lemma steady_stopAnimation : triple I stopAnimation I.
Proof. unfold stopAnimation, setAnimationEnabled. steadily. Qed.

Hypothesis proj_canvas : forall w h, unchanged proj (setCanvasSize w h).

Lemma steady_setupCanvas : triple I setupCanvas I.
Proof. unfold setupCanvas. steadily. apply steady_dom, proj_canvas. Qed.

Hypothesis proj_request : unchanged proj requestAnimationFrame.
Hypothesis proj_draw : unchanged proj (gl GL.drawArrays).

Lemma steady_render : triple I render I.
Proof.
  unfold render, updateUniforms. steadily.
Qed.

Hypothesis I_render : triple I render I.
Hypothesis I_setupCanvas : triple I setupCanvas I.

Lemma steady_startAnimation : triple I startAnimation I.
Proof. unfold startAnimation, setAnimationEnabled. steadily. Qed.

Lemma steady_destroy : triple I destroy I.
Proof.
  pose proof steady_stopAnimation.
  unfold destroy, WebGL.cleanupContextLossHandling. steadily.
Qed.

Lemma steady_perform (c : Call) : triple I (perform c) I.
Proof.
  pose proof steady_startAnimation. pose proof steady_stopAnimation.
  pose proof steady_destroy.
  destruct c; cbn [perform];
    unfold setShape, setSize, setRefractionIndex, setDispersion, setThickness,
      setBackgroundPattern, setBackgroundTexture, swapTexture, setMaterial,
      setRefractionIndex, setDispersion, setMousePosition,
      enableMouseTracking, setMousePosition, setMouse, setAnimationSpeed,
      resize, handleResize;
    steadily.
Qed.

Lemma steady_init : triple I init I.
Proof.
  pose proof steady_setupWebGL. pose proof steady_setupEventListeners.
  pose proof steady_startAnimation.
  unfold init, WebGL.isWebGLSupported. steadily.
Qed.

Lemma steady_handle (e : Event) : triple I (handle e) I.
Proof.
  pose proof steady_perform. pose proof steady_init.
  pose proof steady_setupWebGL. pose proof steady_startAnimation.
  pose proof steady_stopAnimation.
  destruct e; cbn [handle];
    unfold takeFrame, setBackgroundTexture_resume, swapTexture, dispatch,
      listening, handleMouseMove, handleMouseLeave, setMouse, handleResize,
      handleContextLoss, handleContextRestored;
    steadily.
Qed.

Lemma steady_run (events : list Event) (w : World) : I w -> I (run events w).
Proof.
  revert w. induction events as [| e events IH]; intros w H; [exact H |].
  cbn. apply IH. apply (steady_handle e w H).
Qed.

End Footprint.

(** *** A destroyed instance *)

Lemma shown_gl (c : GL.Command) : draws c = false -> unchanged shown (gl c).
Proof.
  intros Hc b. unfold shown, drawn, gl, modify. cbn.
  rewrite filter_app. cbn. rewrite Hc, app_nil_r. reflexivity.
Qed.

Lemma inert_browser (d : list GL.Command) (n : positive) (t : Instance.t)
  (b b' : Browser.t) :
  shown b' = shown b -> inert d n (mkWorld t b) -> inert d n (mkWorld t b').
Proof.
  unfold shown, inert. cbn. intros E (H1 & H2 & H3).
  injection E as E1 E2. repeat split; congruence.
Qed.

Lemma inert_write (d : list GL.Command) (n : positive) (wr : Write)
  (t : Instance.t) (b : Browser.t) :
  inert d n (mkWorld t b) -> inert d n (mkWorld (write wr t) b).
Proof.
  unfold inert. cbn. intros (H1 & H2 & H3).
  split; [| split; assumption].
  destruct wr; cbn; first [exact H1 | reflexivity].
Qed.

Lemma inert_render (d : list GL.Command) (n : positive) :
  triple (inert d n) render (inert d n).
Proof.
  intros [t b] (H1 & H2 & H3). cbn in H1.
  unfold render, exec, bind, field, gets. cbn. rewrite H1. cbn.
  repeat split; assumption.
Qed.

Lemma inert_setupCanvas (d : list GL.Command) (n : positive) :
  triple (inert d n) setupCanvas (inert d n).
Proof.
  unfold setupCanvas.
  repeat first
    [ triple_step
    | apply triple_dom_with; intros t b H;
      apply (inert_browser d n t b); [| exact H];
      first [reflexivity | apply shown_gl; reflexivity]
    | apply triple_assign; intros t b H;
      apply (inert_write d n (writeResolution _) t b H) ].
Qed.

Lemma inert_run (d : list GL.Command) (n : positive) (events : list Event)
  (w : World) :
  inert d n w -> inert d n (run events w).
Proof.
  apply (steady_run shown).
  - apply shown_gl.
  - intros b. reflexivity.
  - intros l b. reflexivity.
  - intros l b. reflexivity.
  - intros c b. reflexivity.
  - intros id b. reflexivity.
  - intros h b. reflexivity.
  - apply inert_browser.
  - apply inert_write.
  - apply inert_render.
  - apply inert_setupCanvas.
Qed.

(** X23: once [destroy] has run, whatever happens next, calls of the
    public API, frames that fire, DOM events or another [init], the
    instance stays destroyed, makes no draw call and requests no frame. *)
Theorem destroyed_instance_never_draws (w : World) (events : list Event) :
  let w1 := exec destroy w in
  let w2 := run events w1 in
  Instance.isDestroyed (this w2) = true
  /\ filter draws (glLog (browser w2)) = filter draws (glLog (browser w1))
  /\ nextFrame (browser w2) = nextFrame (browser w1).
Proof.
  intros w1 w2.
  apply (inert_run (drawn (browser w1)) (nextFrame (browser w1)) events w1).
  split; [| split; reflexivity].
  apply (destroy_disposed w).
Qed.


(** *** The errors of [init] *)

Section Raises.

Variable ok : Error -> Prop.

Lemma raises_returns {S A : Type} (c : M Error S A) :
  returns c -> raises ok c.
Proof. intros H s e E. destruct (H s) as [a Ha]. congruence. Qed.

Lemma raises_throw {S A : Type} (e : Error) :
  ok e -> raises ok (@throw Error S A e).
Proof. intros H s e' E. injection E as <-. exact H. Qed.

Lemma raises_bind {S A C : Type} (c : M Error S A) (k : A -> M Error S C) :
  raises ok c -> (forall a, raises ok (k a)) -> raises ok (bind c k).
Proof.
  intros Hc Hk s e. specialize (Hc s). unfold bind.
  destruct (c s) as [[a | e'] s']; cbn in *; [apply Hk |].
  intros E. injection E as <-. apply Hc. reflexivity.
Qed.

Lemma raises_tryCatch {S A : Type} (c : M Error S A)
  (h : Error -> M Error S A) :
  (forall e, raises ok (h e)) -> raises ok (tryCatch c h).
Proof.
  intros Hh s e. unfold tryCatch.
  destruct (c s) as [[a | e'] s']; cbn; [discriminate | apply Hh].
Qed.

Lemma raises_dom {A : Type} (c : B A) : raises ok c -> raises ok (dom c).
Proof.
  intros Hc w e. specialize (Hc (browser w) e). unfold dom, lift.
  destruct (c (browser w)). exact Hc.
Qed.

End Raises.

Ltac raises_step :=
  first
    [ apply raises_throw; exact I
    | apply raises_bind; [| intros ?]
    | apply raises_tryCatch; intros ?
    | apply raises_dom
    | match goal with
      | |- raises _ (match ?x with _ => _ end) => destruct x
      | |- raises _ (if ?x then _ else _) => destruct x
      end
    | apply raises_returns; intros ?; eexists; reflexivity ].

Ltac raises_auto := repeat first [assumption | raises_step].

Lemma raises_createShader (type : GL.ShaderType) :
  raises initError (WebGL.createShader type).
Proof. unfold WebGL.createShader, create. raises_auto. Qed.

Lemma raises_createProgram (v f : Handle) :
  raises initError (WebGL.createProgram v f).
Proof. unfold WebGL.createProgram, create. raises_auto. Qed.

Lemma raises_createTextureFromElement (p : GL.Pixels) :
  raises initError (WebGL.createTextureFromElement p).
Proof. unfold WebGL.createTextureFromElement, create. raises_auto. Qed.

Lemma raises_loadImageTexture (url : string) :
  raises initError (WebGL.loadImageTexture url).
Proof.
  unfold WebGL.loadImageTexture.
  apply raises_bind; [raises_auto | intros loaded]. destruct loaded.
  - intros b e. unfold tryCatch.
    pose proof (raises_createTextureFromElement (GL.ofLoadedImage url) b)
      as H.
    destruct (WebGL.createTextureFromElement _ b) as [[a | e'] b'];
      cbn in *; [discriminate |].
    intros E. injection E as <-. apply H. reflexivity.
  - raises_auto.
Qed.

Lemma raises_getUniformLocations (program : Handle) (names : list string) :
  raises initError (WebGL.getUniformLocations program names).
Proof.
  induction names as [| name names IH]; cbn [WebGL.getUniformLocations];
    raises_auto.
Qed.

Lemma raises_createQuadBuffer : raises initError WebGL.createQuadBuffer.
Proof. unfold WebGL.createQuadBuffer, create. raises_auto. Qed.

Lemma raises_setupWebGL : raises initError setupWebGL.
Proof.
  pose proof raises_createShader. pose proof raises_createProgram.
  pose proof raises_createTextureFromElement.
  pose proof raises_loadImageTexture.
  pose proof raises_getUniformLocations.
  pose proof raises_createQuadBuffer.
  unfold setupWebGL, WebGL.getWebGLContext, WebGL.createDefaultTexture.
  raises_auto.
Qed.

Lemma hoare_bind {A C : Type} (Pre : World -> Prop) (Mid : A -> World -> Prop)
  (Post : C -> World -> Prop) (Exc : Error -> World -> Prop)
  (c : js A) (k : A -> js C) :
  hoare Pre c Mid Exc -> (forall a, hoare (Mid a) (k a) Post Exc) ->
  hoare Pre (bind c k) Post Exc.
Proof.
  intros Hc Hk w Hw. specialize (Hc w Hw). unfold bind.
  destruct (c w) as [[a | e] w']; [apply (Hk a w' Hc) | exact Hc].
Qed.

Lemma hoare_tryCatch {A : Type} (Pre : World -> Prop)
  (Post : A -> World -> Prop) (Mid Exc : Error -> World -> Prop)
  (c : js A) (h : Error -> js A) :
  hoare Pre c Post Mid -> (forall e, hoare (Mid e) (h e) Post Exc) ->
  hoare Pre (tryCatch c h) Post Exc.
Proof.
  intros Hc Hh w Hw. specialize (Hc w Hw). unfold tryCatch.
  destruct (c w) as [[a | e] w']; [exact Hc | apply (Hh e w' Hc)].
Qed.

(** A step that keeps [I] whether it returns or throws. *)
Lemma hoare_steady {A : Type} (I : World -> Prop) (c : js A) :
  triple I c I -> hoare I c (fun _ => I) (fun _ => I).
Proof.
  intros H w Hw. specialize (H w Hw). unfold exec in H.
  destruct (c w) as [[a | e] w']; exact H.
Qed.

(** A step that keeps [I] and never throws. *)
Lemma hoare_returns {A : Type} (I : World -> Prop)
  (Exc : Error -> World -> Prop) (c : js A) :
  triple I c I -> returns c -> hoare I c (fun _ => I) Exc.
Proof.
  intros H Hr w Hw. specialize (H w Hw). destruct (Hr w) as [a Ha].
  unfold exec in H. destruct (c w) as [[a' | e] w']; [exact H | discriminate].
Qed.

(** *** [init] reports once *)

Lemma unready_browser (w0 : World) (t : Instance.t) (b b' : Browser.t) :
  quiet b' = quiet b -> unready w0 (mkWorld t b) -> unready w0 (mkWorld t b').
Proof.
  unfold quiet, unready, untouched. cbn. intros E H.
  injection E as -> -> -> -> ->. exact H.
Qed.

Lemma quiet_gl (c : GL.Command) : unchanged quiet (gl c).
Proof. intros b. reflexivity. Qed.

Lemma quiet_fresh : unchanged quiet fresh.
Proof. intros b. reflexivity. Qed.

Ltac unready_step :=
  first
    [ apply triple_field
    | apply triple_ret
    | apply triple_throw
    | apply (steady_dom quiet (unready _) (unready_browser _));
      first
        [ apply unchanged_gets
        | apply quiet_gl
        | apply (unchanged_createShader quiet (fun c _ => quiet_gl c)
                   quiet_fresh)
        | apply (unchanged_createProgram quiet (fun c _ => quiet_gl c)
                   quiet_fresh)
        | apply (unchanged_createTextureFromElement quiet
                   (fun c _ => quiet_gl c) quiet_fresh)
        | apply (unchanged_loadImageTexture quiet (fun c _ => quiet_gl c)
                   quiet_fresh)
        | apply (unchanged_getUniformLocations quiet (fun c _ => quiet_gl c))
        | apply (unchanged_createQuadBuffer quiet (fun c _ => quiet_gl c)
                   quiet_fresh)
        | unfold WebGL.getWebGLContext, WebGL.isWebGLSupported;
          repeat first
            [ apply unchanged_gets | apply unchanged_ret
            | apply unchanged_throw
            | apply unchanged_bind; [| intros ?]
            | match goal with
              | |- unchanged _ (if ?x then _ else _) => destruct x
              end ] ]
    | apply triple_assign;
      let K := fresh "K" in intros ? ? K; exact K ].

(** [setupWebGL] stores the WebGL state when it returns, and has changed
    nothing but the rendering context when it throws. *)
Lemma setupWebGL_outcome (w0 : World) :
  hoare (unready w0) setupWebGL (fun _ => readied w0) (fun _ => unready w0).
Proof.
  unfold setupWebGL, WebGL.createDefaultTexture.
  repeat
    (apply (hoare_bind (unready w0) (fun _ => unready w0));
     [ apply hoare_steady;
       repeat first
         [ unready_step
         | match goal with
           | |- triple _ (if ?x then _ else _) _ => destruct x
           | |- triple _ (match ?x with _ => _ end) _ => destruct x
           end ]
     | intros ? ]).
  intros [t b] [Hc _]. cbn. split; [exact Hc | discriminate].
Qed.

Lemma readied_browser (w0 : World) (t : Instance.t) (b b' : Browser.t) :
  callbacks b' = callbacks b ->
  readied w0 (mkWorld t b) -> readied w0 (mkWorld t b').
Proof. unfold readied. cbn. intros -> H. exact H. Qed.

Ltac readied_step :=
  first
    [ triple_step
    | apply (steady_dom callbacks (readied _) (readied_browser _));
      intros b; reflexivity
    | apply triple_assign;
      let K := fresh "K" in intros ? ? K; exact K ].

Lemma readied_setupCanvas (w0 : World) :
  triple (readied w0) setupCanvas (readied w0).
Proof. unfold setupCanvas. repeat readied_step. Qed.

Lemma readied_setupEventListeners (w0 : World) :
  triple (readied w0) setupEventListeners (readied w0).
Proof.
  unfold setupEventListeners, WebGL.setupContextLossHandling.
  repeat readied_step.
Qed.

Lemma readied_render (w0 : World) : triple (readied w0) render (readied w0).
Proof. unfold render, updateUniforms. repeat readied_step. Qed.

Lemma readied_startAnimation (w0 : World) :
  triple (readied w0) startAnimation (readied w0).
Proof.
  pose proof (readied_render w0).
  unfold startAnimation, setAnimationEnabled.
  repeat first [assumption | readied_step].
Qed.

Lemma raises_init : raises initError init.
Proof.
  pose proof raises_setupWebGL.
  unfold init, tryCatch. intros w e.
  match goal with
  | |- context [bind ?c ?k w] =>
      assert (Hbody : raises initError (bind c k))
  end.
  { pose proof returns_setupCanvas. pose proof returns_setupEventListeners.
    pose proof returns_startAnimation.
    repeat first
      [ assumption
      | apply raises_returns; assumption
      | apply raises_returns, returns_when; assumption
      | raises_step ]. }
  specialize (Hbody w).
  match goal with
  | |- context [bind ?c ?k w] => destruct (bind c k w) as [[a | e'] w']
  end; cbn in *; [discriminate |].
  intros E. injection E as <-. apply Hbody. reflexivity.
Qed.

Lemma init_outcome (w0 : World) :
  hoare (unready w0) init
    (fun _ w =>
       callbacks (browser w) = (callbacks (browser w0) ++ [onReady])%list
       /\ Instance.webglState (this w) <> None)
    (fun e w =>
       callbacks (browser w) = (callbacks (browser w0) ++ [onError e])%list
       /\ untouched w0 w).
Proof.
  unfold init.
  apply (hoare_tryCatch _ _ (fun _ => unready w0)).
  - apply (hoare_bind (unready w0) (fun _ => unready w0));
      [apply hoare_steady; unready_step | intros supported].
    apply (hoare_bind (unready w0) (fun _ => unready w0)).
    { apply hoare_steady. destruct supported; unready_step. }
    intros _.
    apply (hoare_bind (unready w0) (fun _ => readied w0));
      [apply setupWebGL_outcome | intros _].
    apply (hoare_bind (readied w0) (fun _ => readied w0)).
    { apply hoare_returns;
        [apply readied_setupCanvas | apply returns_setupCanvas]. }
    intros _.
    apply (hoare_bind (readied w0) (fun _ => readied w0)).
    { apply hoare_returns;
        [ apply readied_setupEventListeners
        | apply returns_setupEventListeners ]. }
    intros _.
    apply (hoare_bind (readied w0) (fun _ => readied w0)).
    { apply hoare_returns; [apply triple_field |].
      intros w. eexists. reflexivity. }
    intros enabled.
    apply (hoare_bind (readied w0) (fun _ => readied w0)).
    { apply hoare_returns.
      - apply triple_when, readied_startAnimation.
      - apply returns_when, returns_startAnimation. }
    intros _.
    intros [t b] [Hc Hs]. cbn in *. rewrite Hc.
    split; [reflexivity | exact Hs].
  - intros e [t b] [Hc Hu]. cbn in *. rewrite Hc.
    split; [reflexivity | exact Hu].
Qed.

(** X24: [init] reports exactly once.  When it returns it has invoked
    [onReady] last and nothing else, and the WebGL state is stored.  When
    it throws it has invoked [onError] with the error it throws and nothing
    else, the error is a [PhysicsGlassError] with one of the codes
    WEBGL_NOT_SUPPORTED, SHADER_COMPILATION_FAILED and TEXTURE_LOAD_FAILED,
    and the instance has no new WebGL state, listener, frame request or
    canvas size. *)
Theorem init_reports_once (w0 : World) :
  match init w0 with
  | (Normal _, w) =>
      callbacks (browser w) = (callbacks (browser w0) ++ [onReady])%list
      /\ Instance.webglState (this w) <> None
  | (Throw e, w) =>
      callbacks (browser w) = (callbacks (browser w0) ++ [onError e])%list
      /\ untouched w0 w /\ initError e
  end.
Proof.
  pose proof (init_outcome w0 w0) as H. pose proof (raises_init w0) as Hcode.
  assert (H0 : unready w0 w0) by (split; [reflexivity |]; repeat split).
  specialize (H H0).
  destruct (init w0) as [[a | e] w].
  - exact H.
  - destruct H as [Hc Hu].
    split; [exact Hc |]. split; [exact Hu |]. apply Hcode. reflexivity.
Qed.

(** *** GPU objects *)

Lemma remove_absent (h : Handle) (l : list Handle) :
  ~ In h l -> remove Nat.eq_dec h l = l.
Proof. apply notin_remove. Qed.

Lemma remove_last (h : Handle) (l : list Handle) :
  ~ In h l -> remove Nat.eq_dec h (l ++ [h]) = l.
Proof.
  intros H. rewrite remove_app, remove_absent by exact H. cbn.
  destruct (Nat.eq_dec h h); [apply app_nil_r | contradiction].
Qed.

Lemma next_is_fresh (b : Browser.t) :
  wellNumbered b -> ~ In (nextHandle b) (allocated b).
Proof. intros H Hin. apply H in Hin. apply (Nat.lt_irrefl _ Hin). Qed.

(** X25: in a browser that hands out no handle of a live object,
    [createShader] and [createProgram] return the new object, the only one
    they leave allocated, exactly when the browser creates it and it
    compiles or links; otherwise they throw a [PhysicsGlassError] with code
    SHADER_COMPILATION_FAILED and leave no object behind, the one that
    failed being deleted. *)
Theorem compile_and_link_do_not_leak (b : Browser.t) (type : GL.ShaderType)
  (vertexShader fragmentShader : Handle) :
  wellNumbered b ->
  match WebGL.createShader type b with
  | (Normal shader, b') =>
      createsShader (host b) = true /\ compiles (host b) type = true
      /\ shader = nextHandle b
      /\ allocated b' = (allocated b ++ [shader])%list
  | (Throw e, b') =>
      (createsShader (host b) = false \/ compiles (host b) type = false)
      /\ (exists message,
            e = PhysicsGlassError message SHADER_COMPILATION_FAILED)
      /\ allocated b' = allocated b
  end
  /\ match WebGL.createProgram vertexShader fragmentShader b with
     | (Normal program, b') =>
         createsProgram (host b) = true /\ links (host b) = true
         /\ program = nextHandle b
         /\ allocated b' = (allocated b ++ [program])%list
     | (Throw e, b') =>
         (createsProgram (host b) = false \/ links (host b) = false)
         /\ (exists message,
               e = PhysicsGlassError message SHADER_COMPILATION_FAILED)
         /\ allocated b' = allocated b
     end.
Proof.
  intros Hwf. pose proof (next_is_fresh b Hwf) as Hfresh.
  unfold allocated in *.
  unfold WebGL.createShader, WebGL.createProgram, create, fresh, gl, bind,
    gets, modify, ret, throw. cbn.
  split.
  - destruct (createsShader (host b)); cbn.
    + destruct (compiles (host b) type); cbn.
      * repeat split. rewrite !fold_left_app. reflexivity.
      * split; [auto |]. split; [eexists; reflexivity |].
        rewrite !fold_left_app. cbn. apply remove_last, Hfresh.
    + split; [auto |]. split; [eexists; reflexivity |].
      rewrite fold_left_app. reflexivity.
  - destruct (createsProgram (host b)); cbn.
    + destruct (links (host b)); cbn.
      * repeat split. rewrite !fold_left_app. reflexivity.
      * split; [auto |]. split; [eexists; reflexivity |].
        rewrite !fold_left_app. cbn. apply remove_last, Hfresh.
    + split; [auto |]. split; [eexists; reflexivity |].
      rewrite fold_left_app. reflexivity.
Qed.

Lemma wellNumbered_fresh : wellNumbered freshBrowser.
Proof. intros h H. destruct H. Qed.



Lemma remove_above (live l : list Handle) (n h : Handle) :
  (forall x, In x live -> (x < n)%nat) -> (n <= h)%nat ->
  remove Nat.eq_dec h (live ++ l) = (live ++ remove Nat.eq_dec h l)%list.
Proof.
  intros Hlive Hh. rewrite remove_app. f_equal. apply notin_remove.
  intros Hin. apply Hlive in Hin. lia.
Qed.

Ltac released Hwf :=
  rewrite ?(remove_above _ _ _ _ Hwf) by lia;
  repeat (cbn [remove];
          match goal with
          | |- context [Nat.eq_dec ?x ?y] =>
              destruct (Nat.eq_dec x y); try lia
          end).

Lemma setupWebGL_allocates (live : list Handle) (h : Handle) :
  hoare (bare live h) setupWebGL (fun _ => equipped live h)
    (fun _ => aborted live).
Proof.
  intros [t b] (Hlive & Hh & Hwf & Hstate). cbn in Hlive, Hh, Hstate.
  unfold equipped, aborted, equipment, allocated in *.
  unfold setupWebGL, WebGL.getWebGLContext, WebGL.createShader,
    WebGL.createProgram, WebGL.createQuadBuffer, WebGL.createDefaultTexture,
    WebGL.loadImageTexture, WebGL.createTextureFromElement,
    uniformNames, WebGL.getUniformLocations, create, fresh.
  unfold tryCatch, bind, field, gets, assign, modify, dom, lift, gl, ret,
    throw.
  cbn -[remove].
  repeat (match goal with
          | |- context [if ?c then _ else _] => destruct c eqn:?
          | |- context [match ?c with Url _ => _ | Image _ => _ end] =>
              destruct c eqn:?
          end; cbn -[remove]).
  all: rewrite ?fold_left_app; cbn [fold_left account];
    rewrite Hlive, ?Hh; rewrite <- ?app_assoc; cbn [app].
  all: try (split; [reflexivity |]; split; [exact Hwf |];
            split; [eexists; reflexivity | reflexivity]).
  all: split; [| exact Hstate].
  all: try (eexists; reflexivity).
  all: try (exists []; symmetry; apply app_nil_r).
  all: released Hwf; eexists; reflexivity.
Qed.

Lemma allocated_gl (c : GL.Command) (b : Browser.t) :
  allocated (snd (gl c b)) = account (allocated b) c.
Proof. unfold allocated, gl, modify. cbn. apply fold_left_app. Qed.

Lemma equipped_browser (live : list Handle) (h : Handle) (t : Instance.t)
  (b b' : Browser.t) :
  allocated b' = allocated b ->
  equipped live h (mkWorld t b) -> equipped live h (mkWorld t b').
Proof. unfold equipped. cbn. intros -> H. exact H. Qed.

Ltac equipped_step :=
  first
    [ triple_step
    | apply (steady_dom allocated (equipped _ _) (equipped_browser _ _));
      intros b; first [reflexivity | apply allocated_gl]
    | apply triple_assign;
      let K := fresh "K" in intros ? ? K; exact K ].

Lemma equipped_setupCanvas (live : list Handle) (h : Handle) :
  triple (equipped live h) setupCanvas (equipped live h).
Proof. unfold setupCanvas. repeat equipped_step. Qed.

Lemma equipped_setupEventListeners (live : list Handle) (h : Handle) :
  triple (equipped live h) setupEventListeners (equipped live h).
Proof.
  unfold setupEventListeners, WebGL.setupContextLossHandling.
  repeat equipped_step.
Qed.

Lemma equipped_render (live : list Handle) (h : Handle) :
  triple (equipped live h) render (equipped live h).
Proof. unfold render, updateUniforms. repeat equipped_step. Qed.

Lemma equipped_startAnimation (live : list Handle) (h : Handle) :
  triple (equipped live h) startAnimation (equipped live h).
Proof.
  pose proof (equipped_render live h).
  unfold startAnimation, setAnimationEnabled.
  repeat first [assumption | equipped_step].
Qed.

Lemma init_allocates (live : list Handle) (h : Handle) :
  hoare (bare live h) init (fun _ => equipped live h) (fun _ => aborted live).
Proof.
  unfold init.
  apply (hoare_tryCatch _ _ (fun _ => aborted live)).
  - apply (hoare_bind _ (fun _ => bare live h)).
    { intros [t b] H. exact H. }
    intros supported.
    apply (hoare_bind _ (fun _ => bare live h)).
    { intros [t b] (H1 & H2 & H3 & H4). destruct supported; cbn.
      - repeat split; assumption.
      - split; [| exact H4]. exists []. cbn in *. rewrite app_nil_r.
        exact H1. }
    intros _.
    apply (hoare_bind _ (fun _ => equipped live h));
      [apply setupWebGL_allocates | intros _].
    apply (hoare_bind _ (fun _ => equipped live h)).
    { apply hoare_returns;
        [apply equipped_setupCanvas | apply returns_setupCanvas]. }
    intros _.
    apply (hoare_bind _ (fun _ => equipped live h)).
    { apply hoare_returns;
        [ apply equipped_setupEventListeners
        | apply returns_setupEventListeners ]. }
    intros _.
    apply (hoare_bind _ (fun _ => equipped live h)).
    { apply hoare_returns; [apply triple_field |].
      intros w. eexists. reflexivity. }
    intros enabled.
    apply (hoare_bind _ (fun _ => equipped live h)).
    { apply hoare_returns.
      - apply triple_when, equipped_startAnimation.
      - apply returns_when, returns_startAnimation. }
    intros _.
    intros [t b] H. exact H.
  - intros e [t b] H. exact H.
Qed.

Lemma destroy_allocated (w : World) :
  allocated (browser (exec destroy w))
  = match Instance.webglState (this w) with
    | Some state =>
        remove Nat.eq_dec (WebGLState.program state)
          (release (Instance.vertexBuffer (this w))
             (release (WebGLState.backgroundTexture state)
                (allocated (browser w))))
    | None => allocated (browser w)
    end.
Proof.
  destruct w as [[canvas config state id destroyed time mouse uniforms
                   cleanup buffer] b].
  unfold destroy, stopAnimation, setAnimationEnabled,
    WebGL.cleanupContextLossHandling, exec, bind, when, field,
    gets, assign, modify, dom, lift, cancelAnimationFrame,
    removeEventListener, gl, ret, allocated, release.
  destruct id as [id |], cleanup, state as [[program locations [tex |]] |],
    buffer as [buffer |]; cbn -[Listener_eqb remove];
    rewrite ?fold_left_app; reflexivity.
Qed.

(** *** Textures and disposal *)

(** X26: on an instance whose WebGL state is stored,
    [setBackgroundTexture] with an image element the browser can make a
    texture of returns at once with the texture swapped: the new texture
    is the one of the WebGL state, the source is stored in the
    configuration, the old texture is deleted, and no callback is invoked.
    With a URL it changes nothing before the image has settled; once it has
    loaded, the rest of the call swaps the texture in the same way. *)
Theorem texture_change_swaps (w : World) (source : TextureSource) :
  Instance.webglState (this w) <> None ->
  match source with
  | Image e =>
      createsTexture (host (browser w)) = true ->
      exists w',
        setBackgroundTexture source w = (Normal None, w')
        /\ swapped source w w'
  | Url url =>
      setBackgroundTexture source w = (Normal (Some url), w)
      /\ forall later : World,
           Instance.webglState (this later) <> None ->
           loads (host (browser later)) url = true ->
           createsTexture (host (browser later)) = true ->
           exists w',
             setBackgroundTexture_resume url later = (Normal tt, w')
             /\ swapped source later w'
  end.
Proof.
  intros Hstate. destruct w as [t b].
  destruct source as [url | e].
  - split.
    + unfold setBackgroundTexture, bind, field, gets, ret. cbn in *.
      destruct (Instance.webglState t); [reflexivity | contradiction].
    + intros [t' b'] Hs Hload Hcreate. cbn in Hs, Hload, Hcreate.
      destruct (Instance.webglState t') as [[program locations old] |] eqn:Est;
        [| contradiction].
      unfold setBackgroundTexture_resume, WebGL.loadImageTexture,
        WebGL.createTextureFromElement, create, fresh, gl, swapTexture,
        tryCatch, bind, dom, lift, field, assign, gets, throw, modify, ret.
      cbn. rewrite Hload. cbn. rewrite Hcreate. cbn. rewrite Est. cbn.
      destruct old as [old |]; cbn; eexists;
        (split; [reflexivity |]); unfold swapped; cbn; eexists;
        (split; [exact Est |]); cbn; repeat split;
        unfold allocated; cbn; rewrite !fold_left_app; reflexivity.
  - intros Hcreate. cbn in Hstate, Hcreate.
    destruct (Instance.webglState t) as [[program locations old] |] eqn:Est;
      [| contradiction].
    unfold setBackgroundTexture, WebGL.createTextureFromElement, create,
      fresh, gl, swapTexture, tryCatch, bind, dom, lift, field, assign, gets,
      throw, modify, ret.
    cbn. rewrite Est. cbn. rewrite Hcreate. cbn. rewrite Est. cbn.
    destruct old as [old |]; cbn; eexists;
      (split; [reflexivity |]); unfold swapped; cbn; eexists;
      (split; [exact Est |]); cbn; repeat split;
      unfold allocated; cbn; rewrite !fold_left_app; reflexivity.
Qed.

(** X27: [destroy] deletes the background texture, the vertex buffer and
    the program of the stored WebGL state, and no other object; without
    WebGL state it deletes nothing.  It draws nothing, invokes no callback
    and requests no frame. *)
Theorem destroy_releases (w : World) :
  let w' := exec destroy w in
  allocated (browser w')
  = match Instance.webglState (this w) with
    | Some state =>
        remove Nat.eq_dec (WebGLState.program state)
          (release (Instance.vertexBuffer (this w))
             (release (WebGLState.backgroundTexture state)
                (allocated (browser w))))
    | None => allocated (browser w)
    end
  /\ filter draws (glLog (browser w')) = filter draws (glLog (browser w))
  /\ callbacks (browser w') = callbacks (browser w)
  /\ nextFrame (browser w') = nextFrame (browser w).
Proof.
  intros w'. split; [apply destroy_allocated |]. unfold w'.
  destruct w as [[canvas config state id destroyed time mouse uniforms
                   cleanup buffer] b].
  unfold destroy, stopAnimation, setAnimationEnabled,
    WebGL.cleanupContextLossHandling, exec, bind, when, field,
    gets, assign, modify, dom, lift, cancelAnimationFrame,
    removeEventListener, gl, ret.
  destruct id as [id |], cleanup, state as [[program locations [tex |]] |],
    buffer as [buffer |]; cbn -[Listener_eqb];
    rewrite ?filter_app; cbn -[Listener_eqb];
    rewrite ?app_nil_r; repeat split.
Qed.

(** *** A frame *)

(** X28: a setter of the public API makes no WebGL call: what it stores
    reaches the shader with the next frame.  A frame of a live instance
    advances the time by 0.016 times the animation speed, then clears the
    canvas, uploads the nine uniforms from [uniforms], binds the background
    texture if there is one and makes one draw call, in this order; a frame
    of a destroyed instance, or of one without WebGL state, does nothing. *)
Theorem setters_wait_for_the_frame (w : World) (c : Call) :
  let w1 := exec (perform c) w in
  let w2 := exec render w1 in
  (setter c = true -> glLog (browser w1) = glLog (browser w))
  /\ match Instance.isDestroyed (this w1), Instance.webglState (this w1) with
     | false, Some state =>
         Instance.time (this w2)
         = Instance.time (this w1) + 0.016 * speedOf (this w1)
         /\ Instance.uniforms (this w2)
            = ShaderUniforms.set_time (Instance.time (this w2))
                (Instance.uniforms (this w1))
         /\ glLog (browser w2)
            = (glLog (browser w1)
               ++ frameCalls (Instance.uniforms (this w2))
                    (WebGLState.backgroundTexture state))%list
     | _, _ => w2 = w1
     end.
Proof.
  intros w1 w2. split.
  - intros Hc. unfold w1. destruct w as [t b].
    destruct c; try discriminate; cbn [perform]; try reflexivity.
    + unfold setMaterial.
      destruct arg as [name | mat]; [destruct (lookup name GLASS_MATERIALS) |];
        reflexivity.
    + destruct enabled; reflexivity.
  - unfold w2. generalize w1. clear. intros [t b].
    unfold render, updateUniforms, exec, bind, field, gets, assign, modify,
      dom, lift, gl, requestAnimationFrame, ret, speedOf.
    cbn [this browser].
    destruct (Instance.isDestroyed t) eqn:Ed; [reflexivity |].
    destruct (Instance.webglState t) as [[program locations tex] |] eqn:Es;
      [| reflexivity].
    cbn. rewrite Es. cbn.
    destruct tex as [tex |]; cbn;
      destruct (AnimationConfig.enabled (Config.animation (Instance.config t)));
      cbn; (split; [reflexivity |]); (split; [reflexivity |]);
      unfold frameCalls; cbn; rewrite <- ?app_assoc; reflexivity.
Qed.

(** *** From [init] to [destroy] *)

(** X29: [init] on an instance without WebGL state, in a browser that
    hands out no handle of a live object: when it returns it has allocated
    five objects, two shaders, the program, the vertex buffer and the
    background texture, and a [destroy] that follows leaves the two shaders
    allocated.  When it throws, the objects it has created and not deleted
    stay allocated beside those there were, and [destroy] releases none of
    them. *)
Theorem shaders_outlive_the_instance (w : World) :
  wellNumbered (browser w) ->
  Instance.webglState (this w) = None ->
  let h := nextHandle (browser w) in
  match init w with
  | (Normal _, w1) =>
      allocated (browser w1) = (allocated (browser w) ++ equipment h)%list
      /\ allocated (browser (exec destroy w1))
         = (allocated (browser w) ++ [h; S h])%list
  | (Throw _, w1) =>
      (exists created,
         allocated (browser w1) = (allocated (browser w) ++ created)%list)
      /\ allocated (browser (exec destroy w1)) = allocated (browser w1)
  end.
Proof.
  intros Hwf Hstate h.
  pose proof (init_allocates (allocated (browser w)) h w) as H.
  assert (H0 : bare (allocated (browser w)) h w)
    by (repeat split; assumption).
  specialize (H H0).
  destruct (init w) as [[a | e] w1].
  - destruct H as (Hlive & Hbelow & [locations Hs] & Hbuffer).
    split; [exact Hlive |].
    rewrite destroy_allocated, Hs, Hbuffer, Hlive.
    unfold release, equipment. cbn [WebGLState.backgroundTexture
      WebGLState.program].
    released Hbelow. reflexivity.
  - destruct H as [Hcreated Hs]. split; [exact Hcreated |].
    rewrite destroy_allocated, Hs. reflexivity.
Qed.

(** *** Instances of the properties above *)

(** A [destroy] of the ready instance returns. *)
Lemma only_init_can_fail_witness :
  completion (handle (hostCalls callDestroy)) readyWorld = Normal tt.
Proof. apply only_init_can_fail. discriminate. Defined.

(** At the centre of the canvas the pointer leaves the browser as it is. *)
Lemma pointer_maps_into_unit_square_witness :
  browser (exec (handleMouseMove 400 300) readyWorld) = browser readyWorld.
Proof.
  pose proof (pointer_maps_into_unit_square readyWorld 400 300) as H.
  cbv zeta in H.
  assert (Hw : 0 < rectWidth (host (browser readyWorld)))
    by (vm_compute; reflexivity).
  assert (Hh : 0 < rectHeight (host (browser readyWorld)))
    by (vm_compute; reflexivity).
  specialize (H Hw Hh).
  assert (E : followsCursor (this readyWorld) = true)
    by (vm_compute; reflexivity).
  rewrite E in H. exact (proj1 (proj2 (proj2 H))).
Defined.

(** A second [startAnimation] after [init] requests no second frame. *)
Lemma one_frame_request_at_a_time_witness :
  match new (element 0%nat) PhysicsGlassConfig.empty freshBrowser with
  | Throw _ => True
  | Normal w0 =>
      let w := run [initRuns; hostCalls callStartAnimation] w0 in
      frames (browser w) = []
      \/ exists id, frames (browser w) = [id]
                    /\ Instance.animationId (this w) = Some id
  end.
Proof.
  exact (one_frame_request_at_a_time (element 0%nat) PhysicsGlassConfig.empty
           freshBrowser [initRuns; hostCalls callStartAnimation] eq_refl).
Defined.

(** The first shader compiled in a fresh browser is its only object. *)
Lemma compile_and_link_do_not_leak_witness :
  wellNumbered freshBrowser
  /\ allocated (snd (WebGL.createShader GL.VERTEX_SHADER freshBrowser))
     = [0%nat].
Proof.
  split; [apply wellNumbered_fresh |].
  pose proof (compile_and_link_do_not_leak freshBrowser GL.VERTEX_SHADER
                0%nat 1%nat wellNumbered_fresh) as [H _].
  exact (proj2 (proj2 (proj2 H))).
Defined.

(** A texture change by URL changes nothing before the image settles. *)
Lemma texture_change_swaps_witness :
  setBackgroundTexture (Url "next.png") readyWorld
  = (Normal (Some "next.png"), readyWorld).
Proof.
  assert (H : Instance.webglState (this readyWorld) <> None)
    by (vm_compute; discriminate).
  exact (proj1 (texture_change_swaps readyWorld (Url "next.png") H)).
Defined.

(** In a fresh browser the two shaders are what [init] and [destroy]
    leave behind. *)
Lemma shaders_outlive_the_instance_witness :
  allocated (browser (exec destroy (exec init blankWorld))) = [0%nat; 1%nat].
Proof.
  pose proof (shaders_outlive_the_instance blankWorld wellNumbered_fresh
                eq_refl) as H.
  cbv zeta in H. unfold exec.
  destruct (init blankWorld) as [[[] | e] w1] eqn:E.
  - exact (proj2 H).
  - vm_compute in E. discriminate.
Defined.

End GlassSpec.
